(** * covid-r: the epidemic-control model of [model.py]

    A shallow embedding of [model.py] (class [Infection], the registry
    [variables] and the generator [frange]) together with the properties
    of the model that the specification states.

    Arithmetic.  Python floats and numpy [float64] arrays are idealised
    as exact rationals ([Q], compared with [==]).  A Python number is an
    [Int] or a [Float], as in the source, because [np.ones] accepts only
    the former.  Two things are outside exact arithmetic and are kept
    visible rather than hidden:
    - a numpy division by zero, which does not raise: it emits a
      [RuntimeWarning] and leaves [nan]/[inf] in the array ([NonFinite]);
    - [np.linalg.eig], which is a section variable below.
    The generator [frange] alone is also run on IEEE 754 binary64
    ([Binary64]), where the drift of repeated additions shows. *)

From Stdlib Require Import String.
From Stdlib Require Import QArith Qabs Qround ZArith List Lia Lqa Bool.
From Stdlib Require Import Floats.
Import ListNotations.
Open Scope Q_scope.

(** ** Python numbers *)

Inductive number : Type :=
| Int (z : Z)
| Float (q : Q).

Definition to_Q (n : number) : Q :=
  match n with
  | Int z => inject_Z z
  | Float q => q
  end.

(** [a + b]: two ints add as ints, anything else is promoted to float. *)
Definition num_add (a b : number) : number :=
  match a, b with
  | Int x, Int y => Int (x + y)
  | _, _ => Float (to_Q a + to_Q b)
  end.

(** Truth value of a number: zero is falsy. *)
Definition truthy (n : number) : bool := negb (Qeq_bool (to_Q n) 0).

(** ** Outcomes of a call

    - [Ok]: the call returns, with a value that exact arithmetic describes.
    - [Raise]: a Python exception leaves the call.
    - [NonFinite]: the call went through a numpy division by zero, which
      warns and puts [nan] or [inf] into the array, and such a value is in
      what the call leaves behind.  Those values are not followed any
      further: the outcome stands for whatever a caller does with them.
    - [OutOfFuel]: the loop of [frange] was cut off before it ended; no
      range of the registry gets there ([registry_frange]). *)

Inductive exn : Type :=
| ValueError
| TypeError
| IndexError
| KeyError
| LinAlgError.

Inductive result (A : Type) : Type :=
| Ok (a : A)
| Raise (e : exn)
| NonFinite
| OutOfFuel.

Arguments Ok {A} a.
Arguments Raise {A} e.
Arguments NonFinite {A}.
Arguments OutOfFuel {A}.

Definition bind {A B : Type} (m : result A) (k : A -> result B) : result B :=
  match m with
  | Ok a => k a
  | Raise e => Raise e
  | NonFinite => NonFinite
  | OutOfFuel => OutOfFuel
  end.

Notation "x <- m ;; k" := (bind m (fun x => k))
  (at level 61, m at next level, right associativity).

Definition raises {A : Type} (m : result A) : Prop := exists e, m = Raise e.

(** ** The numpy operations the model uses, on one-dimensional arrays *)

Definition np_sum (a : list Q) : Q := fold_right Qplus 0 a.

Fixpoint cumsum_from (acc : Q) (a : list Q) : list Q :=
  match a with
  | [] => []
  | x :: t => (acc + x) :: cumsum_from (acc + x) t
  end.

Definition cumsum (a : list Q) : list Q := cumsum_from 0 a.

(** [np.ones(n)]: [n] must be a Python int, and not negative. *)
Definition np_ones (n : number) : result (list Q) :=
  match n with
  | Int z => if (z <? 0)%Z then Raise ValueError else Ok (repeat 1 (Z.to_nat z))
  | Float _ => Raise TypeError
  end.

(** [np.repeat(v, k)] for [k > 0]. *)
Definition np_repeat (v : Q) (k : Z) : list Q := repeat v (Z.to_nat k).

(** [a[-1]] *)
Definition last_elt (a : list Q) : result Q :=
  match a with
  | [] => Raise IndexError
  | x :: t => Ok (last t x)
  end.

(** [a[:n]] *)
Definition take (n : nat) (a : list Q) : list Q := firstn n a.

Fixpoint zip_mul (a b : list Q) : list Q :=
  match a, b with
  | x :: a', y :: b' => (x * y) :: zip_mul a' b'
  | _, _ => []
  end.

(** [a * b] with numpy broadcasting of one-dimensional shapes. *)
Definition np_mul (a b : list Q) : result (list Q) :=
  if (length a =? length b)%nat then Ok (zip_mul a b)
  else match a, b with
       | [x], _ => Ok (map (fun y => x * y) b)
       | _, [y] => Ok (map (fun x => x * y) a)
       | _, _ => Raise ValueError
       end.

(** [a @ b] on vectors. *)
Definition np_dot (a b : list Q) : result Q :=
  if (length a =? length b)%nat then Ok (np_sum (zip_mul a b))
  else Raise ValueError.

(** [np.max(a)] *)
Definition np_max (a : list Q) : result Q :=
  match a with
  | [] => Raise ValueError
  | x :: t => Ok (fold_left (fun m y => if Qle_bool m y then y else m) t x)
  end.

(** [x or y] on a list argument that may be omitted: [None] and the
    empty list are both falsy. *)
Definition list_or (x : option (list Q)) (y : list Q) : list Q :=
  match x with
  | Some ((_ :: _) as l) => l
  | _ => y
  end.

(** ** The parameter set *)

Record Infection : Type := mkInfection {
  r0 : number;
  infection_rates : list Q;
  symptoms : list Q;
  days : nat;
  testing_rate : number;
  testing_delay : number;
  isolation_effectivity : number;
  tracing_rate : number;
  tracing_delay : number;
  asymptomatic_inf : number
}.

(** [Infection.set_rates] *)
Definition set_rates (r0_arg : option number)
    (infection_rates_arg symptoms_arg : option (list Q))
    (self : Infection) : result Infection :=
  let new_r0 :=
    match r0_arg with
    | Some v => if truthy v then v else r0 self
    | None => r0 self
    end in
  let raw := list_or infection_rates_arg (infection_rates self) in
  let total := np_sum raw in
  match raw with
  | _ :: _ =>
      if Qeq_bool total 0 then NonFinite
      else Ok (mkInfection new_r0
                 (map (fun x => to_Q new_r0 * x / total) raw)
                 (list_or symptoms_arg (symptoms self))
                 (length raw)
                 (testing_rate self) (testing_delay self)
                 (isolation_effectivity self) (tracing_rate self)
                 (tracing_delay self) (asymptomatic_inf self))
  | [] =>
      Ok (mkInfection new_r0 [] (list_or symptoms_arg (symptoms self)) 0
            (testing_rate self) (testing_delay self)
            (isolation_effectivity self) (tracing_rate self)
            (tracing_delay self) (asymptomatic_inf self))
  end.

(** ** Arithmetic on Python numbers used by [suppress] *)

Definition num_sub (a b : number) : number :=
  match a, b with
  | Int x, Int y => Int (x - y)
  | _, _ => Float (to_Q a - to_Q b)
  end.

(** [n > 0] *)
Definition num_pos (n : number) : bool :=
  negb (Qle_bool (to_Q n) 0).

(** [np.repeat(v, k)]: the count must be a Python int, and not negative. *)
Definition np_repeat_n (v : Q) (k : number) : result (list Q) :=
  match k with
  | Int z => if (z <? 0)%Z then Raise ValueError else Ok (np_repeat v z)
  | Float _ => Raise TypeError
  end.

Definition len (a : list Q) : number := Int (Z.of_nat (length a)).

(** ** The suppression engine: [Infection.suppress] *)

(** The divisor of [effective_symptoms]. *)
Definition symptom_divisor (self : Infection) : Q :=
  (100 - np_sum (symptoms self)) * (to_Q (asymptomatic_inf self) / 100)
  + np_sum (symptoms self).

Definition effective_symptoms (self : Infection) : list Q :=
  map (fun x => x / symptom_divisor self) (symptoms self).

Definition testing_suppression (self : Infection) : list Q :=
  map (fun c => 1 - (to_Q (testing_rate self) / 100)
                    * (to_Q (isolation_effectivity self) / 100) * c)
      (cumsum (effective_symptoms self)).

Definition tracing_suppression (self : Infection) : Q :=
  1 - np_sum (effective_symptoms self) * (to_Q (testing_rate self) / 100)
      * (to_Q (tracing_rate self) / 100)
      * (to_Q (isolation_effectivity self) / 100).

Definition overall_testing_suppression (self : Infection) : result (list Q) :=
  let rest := num_sub (num_sub (Int (Z.of_nat (days self))) (len (symptoms self)))
                      (testing_delay self) in
  ones <- np_ones (testing_delay self) ;;
  tail <- (if num_pos rest
           then (v <- last_elt (testing_suppression self) ;; np_repeat_n v rest)
           else Ok []) ;;
  Ok (take (length (infection_rates self))
           (ones ++ testing_suppression self ++ tail)).

Definition overall_tracing_suppression (self : Infection) : result (list Q) :=
  let rest := num_sub (Int (Z.of_nat (days self)))
                      (num_add (testing_delay self) (tracing_delay self)) in
  ones <- np_ones (num_add (testing_delay self) (tracing_delay self)) ;;
  tail <- (if num_pos rest
           then np_repeat_n (tracing_suppression self) rest
           else Ok []) ;;
  Ok (take (length (infection_rates self)) (ones ++ tail)).

(** *** A zero divisor

    The division by [symptom_divisor] is a numpy division: on a zero
    divisor and a non-empty symptom array it only warns, and every entry
    of [effective_symptoms] is [nan] or [inf].  So is all that is
    computed from them: every entry of [testing_suppression], the entry
    that [np.repeat] copies, and the number [tracing_suppression] (a sum
    or a product with a [nan] or [inf] is one again).  The leading ones
    of the two sequences and the infection profile are finite.  Which of
    the two kinds reaches the result is decided by the slices and the
    products of the body, which are run on marks here: 1 for a finite
    entry and 0 for one that is not, so that a product is marked finite
    exactly when both factors are. *)

Definition testing_marks (self : Infection) : result (list Q) :=
  let rest := num_sub (num_sub (Int (Z.of_nat (days self))) (len (symptoms self)))
                      (testing_delay self) in
  ones <- np_ones (testing_delay self) ;;
  tail <- (if num_pos rest
           then (v <- last_elt (testing_suppression self) ;; np_repeat_n 0 rest)
           else Ok []) ;;
  Ok (take (length (infection_rates self))
           (ones ++ map (fun _ => 0) (testing_suppression self) ++ tail)).

Definition tracing_marks (self : Infection) : result (list Q) :=
  let rest := num_sub (Int (Z.of_nat (days self)))
                      (num_add (testing_delay self) (tracing_delay self)) in
  ones <- np_ones (num_add (testing_delay self) (tracing_delay self)) ;;
  tail <- (if num_pos rest then np_repeat_n 0 rest else Ok []) ;;
  Ok (take (length (infection_rates self)) (ones ++ tail)).

(** The marks of what [suppress] returns when the divisor is zero. *)
Definition finite_marks (self : Infection) : result (list Q) :=
  testing <- testing_marks self ;;
  tracing <- tracing_marks self ;;
  p <- np_mul (map (fun _ => 1) (infection_rates self)) testing ;;
  np_mul p tracing.

Definition all_finite (marks : list Q) : bool :=
  forallb (fun m => negb (Qeq_bool m 0)) marks.

(** [Infection.suppress].  On a zero divisor and a non-empty symptom
    array an exception raised later in the body still is the outcome of
    the call; otherwise the outcome is [NonFinite] when a [nan] or [inf]
    reaches the array that is returned, and the array itself when the
    slices drop every one of them. *)
Definition suppress (self : Infection) : result (list Q) :=
  testing <- overall_testing_suppression self ;;
  tracing <- overall_tracing_suppression self ;;
  p <- np_mul (infection_rates self) testing ;;
  e <- np_mul p tracing ;;
  match symptoms self with
  | _ :: _ =>
      if Qeq_bool (symptom_divisor self) 0
      then (marks <- finite_marks self ;;
            if all_finite marks then Ok e else NonFinite)
      else Ok e
  | [] => Ok e
  end.

(** ** Matrices, for [compute_growth] *)

Definition matrix : Type := list (list Q).

(** [np.diag(np.ones(n))] *)
Definition np_diag_ones (n : nat) : matrix :=
  map (fun i => map (fun j => if (i =? j)%nat then 1 else 0) (seq 0 n)) (seq 0 n).

(** [a.reshape(1, n)] *)
Definition reshape_row (n : nat) (a : list Q) : result matrix :=
  if (length a =? n)%nat then Ok [a] else Raise ValueError.

Definition is_square (A : matrix) : bool :=
  forallb (fun row => (length row =? length A)%nat) A.

(** ** The registry [variables] *)

(** The namedtuple [Variable] (a reserved word here, hence the underscore);
    the display name is left to the user interface. *)
Record Variable_ : Type := mkVariable {
  vmin : number;
  vmax : number;
  vstep : number;
  vdefault : number;
  getter : Infection -> number;
  cat : nat
}.

Local Open Scope string_scope.

Definition variables : list (String.string * Variable_) :=
  [ ("r0", mkVariable (Float 1) (Float 5) (Float (1 # 10)) (Float 2) r0 0);
    ("testing_rate", mkVariable (Int 0) (Int 100) (Int 5) (Int 50) testing_rate 1);
    ("testing_delay", mkVariable (Int 0) (Int 10) (Int 1) (Int 3) testing_delay 1);
    ("isolation_effectivity",
       mkVariable (Int 0) (Int 100) (Int 5) (Int 90) isolation_effectivity 1);
    ("tracing_rate", mkVariable (Int 0) (Int 100) (Int 5) (Int 0) tracing_rate 1);
    ("tracing_delay", mkVariable (Int 0) (Int 10) (Int 1) (Int 1) tracing_delay 1);
    ("asymptomatic_inf",
       mkVariable (Int 0) (Int 100) (Int 5) (Int 20) asymptomatic_inf 2) ].

(** [variables[id]] *)
Fixpoint lookup (id : String.string) (d : list (String.string * Variable_))
  : result Variable_ :=
  match d with
  | [] => Raise KeyError
  | (k, v) :: d' => if String.eqb id k then Ok v else lookup id d'
  end.

(** [setattr(self, id, x)] on the attributes the model has; any other
    name creates an attribute that nothing reads. *)
Definition setattr (self : Infection) (id : String.string) (x : number)
  : Infection :=
  let '(mkInfection a_r0 a_ir a_sy a_days a_tr a_td a_ie a_cr a_cd a_ai) := self in
  if String.eqb id "r0" then
    mkInfection x a_ir a_sy a_days a_tr a_td a_ie a_cr a_cd a_ai
  else if String.eqb id "testing_rate" then
    mkInfection a_r0 a_ir a_sy a_days x a_td a_ie a_cr a_cd a_ai
  else if String.eqb id "testing_delay" then
    mkInfection a_r0 a_ir a_sy a_days a_tr x a_ie a_cr a_cd a_ai
  else if String.eqb id "isolation_effectivity" then
    mkInfection a_r0 a_ir a_sy a_days a_tr a_td x a_cr a_cd a_ai
  else if String.eqb id "tracing_rate" then
    mkInfection a_r0 a_ir a_sy a_days a_tr a_td a_ie x a_cd a_ai
  else if String.eqb id "tracing_delay" then
    mkInfection a_r0 a_ir a_sy a_days a_tr a_td a_ie a_cr x a_ai
  else if String.eqb id "asymptomatic_inf" then
    mkInfection a_r0 a_ir a_sy a_days a_tr a_td a_ie a_cr a_cd x
  else self.

(** ** The generator [frange] *)

(** The loop of [frange], run for at most [fuel] iterations; [None]
    when the fuel runs out before the loop ends. *)
Fixpoint frange_fuel (fuel : nat) (x y jump : number) : option (list number) :=
  match fuel with
  | O => None
  | S fuel' =>
      if Qle_bool (to_Q x) (to_Q y + (1 # 100000) * to_Q jump)
      then option_map (cons x) (frange_fuel fuel' (num_add x jump) y jump)
      else Some []
  end.

(** A number of iterations that is enough whenever the step is positive. *)
Definition frange_steps (x y jump : number) : nat :=
  S (Z.to_nat
       (Qfloor ((to_Q y + (1 # 100000) * to_Q jump - to_Q x) / to_Q jump) + 1)).

Definition frange (x y jump : number) : option (list number) :=
  frange_fuel (frange_steps x y jump) x y jump.

(** ** The class-level attributes and [Infection.__init__] *)

(** The attributes a fresh object resolves to before [__init__] runs.
    The six scalar parameters are [None] at class level and [days] does
    not exist yet; [__init__] writes all of them before anything reads
    them (see [init_ignores_scalars]), so the values below stand for
    "unset". *)
Definition class_level : Infection :=
  mkInfection (Float 3) [0; 1; 3; 6; 8; 6; 3; 1] [0; 0; 0; 0; 10; 20; 20; 10]
              0 (Int 0) (Int 0) (Int 0) (Int 0) (Int 0) (Int 0).

(** [Infection.__init__] *)
Definition init (self : Infection) : result Infection :=
  set_rates None None None
    (fold_left (fun s kv => setattr s (fst kv) (vdefault (snd kv))) variables self).

(** [Infection()] *)
Definition new_Infection : result Infection := init class_level.

Local Close Scope string_scope.

(** ** Growth, sweep and simulation *)

(** One record of the data frame that [iterate] returns. *)
Record row : Type := mkRow {
  params : list (string * number);
  r : Q;
  perc : Q
}.

(** [np.zeros(k)] *)
Definition np_zeros (k : Z) : result (list Q) :=
  if (k <? 0)%Z then Raise ValueError else Ok (repeat 0 (Z.to_nat k)).

(** The matrix [A] of [compute_growth]: the row [a] on top of the
    identity without its last row. *)
Definition companion (self : Infection) (a : list Q) : result matrix :=
  top <- reshape_row (days self) a ;;
  Ok (top ++ removelast (np_diag_ones (days self))).

Section Growth.

(** [np.abs(np.linalg.eig(A)[0])] on a square matrix: the magnitudes of
    its eigenvalues.  The solver belongs to numpy, not to this
    repository. *)
Variable eig_abs : matrix -> list Q.

(** [Infection.compute_growth]; [eig] rejects a matrix that is not
    square. *)
Definition compute_growth (self : Infection) (a : list Q) : result Q :=
  A <- companion self a ;;
  if is_square A then np_max (eig_abs A) else Raise LinAlgError.

(** [Infection.get_r_and_growth] *)
Definition get_r_and_growth (self : Infection) : result (Q * Q) :=
  effective_daily_infectiousness <- suppress self ;;
  growth <- compute_growth self effective_daily_infectiousness ;;
  Ok (np_sum effective_daily_infectiousness, (growth - 1) * 100).

(** The body of the [for] loop of [iterate], over the values that
    [frange] yields; [self] is threaded through because the loop
    mutates it. *)
Fixpoint iterate_loop (id : string) (xs : list number) (self : Infection)
    (data : list row) : result (list row * Infection) :=
  match xs with
  | [] => Ok (data, self)
  | x :: xs' =>
      self' <- (if String.eqb id "r0"
                then set_rates (Some x) None None self
                else Ok (setattr self id x)) ;;
      let d := map (fun kv => (fst kv, getter (snd kv) self')) variables in
      rg <- get_r_and_growth self' ;;
      iterate_loop id xs' self' (data ++ [mkRow d (fst rg) (snd rg)])
  end.

(** [Infection.iterate]: the records and the parameter set as the
    sweep leaves it.  The generator is drained before the loop runs,
    which is the same as long as it is finite, as it is for every range
    of the registry. *)
Definition iterate (id : string) (self : Infection)
  : result (list row * Infection) :=
  var <- lookup id variables ;;
  match frange (vmin var) (vmax var) (vstep var) with
  | None => OutOfFuel
  | Some xs => iterate_loop id xs self []
  end.

End Growth.

(** [Infection._transmit] *)
Definition _transmit (self : Infection) (x : list Q) : result (list Q * Q) :=
  suppressed <- suppress self ;;
  let r := np_sum suppressed in
  newly_infected <- np_dot x suppressed ;;
  Ok (newly_infected :: removelast x, r).

Fixpoint simulate_loop (self : Infection) (n : nat) (x : matrix) (rs : list Q)
  : result (matrix * list Q) :=
  match n with
  | O => Ok (x, rs)
  | S n' =>
      nr <- _transmit self (last x []) ;;
      new <- reshape_row (days self) (fst nr) ;;
      simulate_loop self n' (x ++ new) (rs ++ [snd nr])
  end.

(** [Infection.simulate] *)
Definition simulate (self : Infection) (initial_cases : list Q) (n : nat)
  : result (matrix * list Q) :=
  pad <- np_zeros (Z.of_nat (days self) - Z.of_nat (length initial_cases)) ;;
  x <- reshape_row (days self) (initial_cases ++ pad) ;;
  simulate_loop self n x [to_Q (r0 self)].

(** ** The suppression formula in the words of the specification

    Day by day, by index, instead of by concatenation and slicing. *)

Module Spec.

Definition effectiveSymptomShare (p : Infection) (d : nat) : Q :=
  nth d (symptoms p) 0
  / ((100 - np_sum (symptoms p)) * (to_Q (asymptomatic_inf p) / 100)
     + np_sum (symptoms p)).

(** Cumulative share up to and including day [d]. *)
Definition cumulativeShare (p : Infection) (d : nat) : Q :=
  np_sum (map (effectiveSymptomShare p) (seq 0 (S d))).

Definition testingMultiplier (p : Infection) (d : nat) : Q :=
  1 - (to_Q (testing_rate p) / 100) * (to_Q (isolation_effectivity p) / 100)
      * cumulativeShare p d.

(** Ones for the first [testingDelay] days, the computed multipliers
    for the days the symptom profile covers, then the last computed
    multiplier. *)
Definition testingSequence (p : Infection) (testingDelay d : nat) : Q :=
  if (d <? testingDelay)%nat then 1
  else if (d - testingDelay <? length (symptoms p))%nat
       then testingMultiplier p (d - testingDelay)
       else testingMultiplier p (length (symptoms p) - 1).

Definition tracingSuppression (p : Infection) : Q :=
  1 - np_sum (map (effectiveSymptomShare p) (seq 0 (length (symptoms p))))
      * (to_Q (testing_rate p) / 100) * (to_Q (tracing_rate p) / 100)
      * (to_Q (isolation_effectivity p) / 100).

(** Ones for the first [testingDelay + tracingDelay] days, the scalar
    afterwards. *)
Definition tracingSequence (p : Infection) (delays d : nat) : Q :=
  if (d <? delays)%nat then 1 else tracingSuppression p.

Definition effectiveInfectiousness (p : Infection) (testingDelay delays d : nat)
  : Q :=
  nth d (infection_rates p) 0
  * testingSequence p testingDelay d * tracingSequence p delays d.

End Spec.

(** ** Parameter sets on which the suppression engine runs

    The delays are Python ints, [np.ones] gets no negative length, [days]
    is the length of the infection profile, the symptom profile is not
    empty and the divisor of [effective_symptoms] is not zero. *)
Definition well_formed (p : Infection) : Prop :=
  exists td cd : Z,
    testing_delay p = Int td /\ tracing_delay p = Int cd /\
    (0 <= td)%Z /\ (0 <= td + cd)%Z /\
    days p = length (infection_rates p) /\
    symptoms p <> [] /\
    ~ symptom_divisor p == 0.

(** A stand-in for the eigenvalue solver that is right on triangular
    matrices (the magnitudes of the diagonal), to run the model with. *)
Definition diag_abs (A : matrix) : list Q :=
  map (fun i => Qabs (nth i (nth i A []) 0)) (seq 0 (length A)).

(** The value of the field [id] in a record of the sweep. *)
Fixpoint field (id : string) (d : list (string * number)) : option number :=
  match d with
  | [] => None
  | (k, v) :: d' => if String.eqb id k then Some v else field id d'
  end.

(** The default parameter set, [Infection()]. *)
Definition default_infection : Infection :=
  match new_Infection with
  | Ok p => p
  | _ => class_level
  end.

(** A parameter set with a one-day infection profile. *)
Definition one_day_infection : Infection :=
  mkInfection (Float 2) [2] [50] 1 (Int 50) (Int 0) (Int 90) (Int 0) (Int 1)
              (Int 20).

(** [n] values from [x] on, [jump] apart, added up the way the loop of
    [frange] does. *)
Fixpoint steps (x jump : number) (n : nat) : list number :=
  match n with
  | O => []
  | S n' => x :: steps (num_add x jump) jump n'
  end.

Definition all_ones (a : list Q) : Prop := Forall (fun m => m == 1) a.

Definition rows_of_length (n : nat) (x : matrix) : Prop :=
  Forall (fun row => length row = n) x.

(** What a sweep over [id] leaves alone between two states of the
    parameter set: every other registry variable, the symptom profile and
    the number of days of the infection profile; the infection profile
    itself unless [id] is ["r0"]. *)
Definition frame (id : string) (s s' : Infection) : Prop :=
  (forall id' var', In (id', var') variables -> id' <> id ->
     getter var' s' = getter var' s) /\
  symptoms s' = symptoms s /\
  length (infection_rates s') = length (infection_rates s) /\
  (id <> "r0"%string ->
     infection_rates s' = infection_rates s /\ days s' = days s) /\
  (id = "r0"%string -> days s' = length (infection_rates s)).

(** The mutation at the head of the loop body of [iterate]. *)
Definition sweep_step (id : string) (x : number) (self : Infection)
  : result Infection :=
  if String.eqb id "r0"
  then set_rates (Some x) None None self
  else Ok (setattr self id x).

Definition no_row : row := mkRow [] 0 0.

(** ** [frange] on IEEE 754 binary64

    The generator is plain Python float arithmetic, so its loop can
    also be run on the machine numbers themselves; this is used to check
    the sweep of ["r0"] against the drift that repeated addition of 0.1
    accumulates. *)
Module Binary64.

(** The literal [0.00001]. *)
Definition tolerance : float := 0x1.4f8b588e368f1p-17%float.

(** The literal [0.1]. *)
Definition tenth : float := 0x1.999999999999ap-4%float.

Fixpoint frange_fuel (fuel : nat) (x y jump : float) : option (list float) :=
  match fuel with
  | O => None
  | S fuel' =>
      if PrimFloat.leb x (PrimFloat.add y (PrimFloat.mul tolerance jump))
      then option_map (cons x)
                      (frange_fuel fuel' (PrimFloat.add x jump) y jump)
      else Some []
  end.

Fixpoint of_nat (n : nat) : float :=
  match n with
  | O => 0%float
  | S n' => PrimFloat.add (of_nat n') 1%float
  end.

(** [|x - (1.0 + k * 0.1)| <= 1e-9] *)
Definition near_kth (k : nat) (x : float) : bool :=
  PrimFloat.leb
    (PrimFloat.abs
       (PrimFloat.sub x (PrimFloat.add 1%float (PrimFloat.mul (of_nat k) tenth))))
    0x1.12e0be826d695p-30%float.

End Binary64.

(** Parameter sets inside the ranges the sliders and the two profiles
    are meant for: non-negative profiles, symptom percentages that sum to
    at most 100 with a positive divisor, and the percentages between 0
    and 100. *)
Definition in_range (p : Infection) : Prop :=
  Forall (fun x => 0 <= x) (infection_rates p) /\
  Forall (fun x => 0 <= x) (symptoms p) /\
  np_sum (symptoms p) <= 100 /\
  0 < symptom_divisor p /\
  0 <= to_Q (asymptomatic_inf p) /\
  (0 <= to_Q (testing_rate p) /\ to_Q (testing_rate p) <= 100) /\
  (0 <= to_Q (isolation_effectivity p)
   /\ to_Q (isolation_effectivity p) <= 100) /\
  (0 <= to_Q (tracing_rate p) /\ to_Q (tracing_rate p) <= 100).

(** Two parameter sets for the same epidemic: they differ in the
    interventions only. *)
Definition same_epidemic (p1 p2 : Infection) : Prop :=
  infection_rates p1 = infection_rates p2 /\
  symptoms p1 = symptoms p2 /\
  days p1 = days p2 /\
  asymptomatic_inf p1 = asymptomatic_inf p2.

(** [p1] tests, isolates and traces at most as much as [p2]. *)
Definition weaker_rates (p1 p2 : Infection) : Prop :=
  to_Q (testing_rate p1) <= to_Q (testing_rate p2) /\
  to_Q (isolation_effectivity p1) <= to_Q (isolation_effectivity p2) /\
  to_Q (tracing_rate p1) <= to_Q (tracing_rate p2).

(** Parameter sets on which every sweep of the registry runs: int
    delays that are not negative, a non-empty infection profile with a
    non-zero sum and [days] its length, a non-empty symptom profile with a
    sum above 0 and at most 100, and asymptomatic carriers that are not
    negatively infectious. *)
Definition sweepable (p : Infection) : Prop :=
  exists td cd : Z,
    testing_delay p = Int td /\ tracing_delay p = Int cd /\
    (0 <= td)%Z /\ (0 <= cd)%Z /\
    days p = length (infection_rates p) /\
    infection_rates p <> [] /\
    ~ np_sum (infection_rates p) == 0 /\
    symptoms p <> [] /\
    0 < np_sum (symptoms p) /\ np_sum (symptoms p) <= 100 /\
    0 <= to_Q (asymptomatic_inf p).

(** ** The callback [get_data] of [app.py]

    From the text of the two profile fields and the slider values to the
    data frame that the two figures plot.  The figures themselves
    ([px.line] of that data frame) and the language of the labels are
    left to the user interface. *)

(** [s.split(",")], on the bytes of the text; [acc] is the piece read so
    far. *)
Fixpoint split_comma_from (acc s : string) : list string :=
  match s with
  | EmptyString => [acc]
  | String c s' =>
      if String.eqb (String c EmptyString) ","
      then acc :: split_comma_from EmptyString s'
      else split_comma_from (acc ++ String c EmptyString)%string s'
  end.

Definition split_comma (s : string) : list string :=
  split_comma_from EmptyString s.

(** The loop [for k, v in zip(variables.keys(), values)] of [get_data]. *)
Fixpoint configure (infection_rates symptom_rates : list Q)
    (kvs : list (string * number)) (inf : Infection) : result Infection :=
  match kvs with
  | [] => Ok inf
  | (k, v) :: kvs' =>
      inf' <- (if String.eqb k "r0"
               then set_rates (Some v) (Some infection_rates)
                              (Some symptom_rates) inf
               else Ok (setattr inf k v)) ;;
      configure infection_rates symptom_rates kvs' inf'
  end.

Section App.

(** [s.strip()] and [float(s)] ([None] for a [ValueError]) are Python's,
    and the solver numpy's. *)
Variable strip : string -> string.
Variable float : string -> option Q.
Variable eig_abs : matrix -> list Q.

(** [[float(x) for x in tokens]] *)
Fixpoint floats (tokens : list string) : option (list Q) :=
  match tokens with
  | [] => Some []
  | t :: ts =>
      match float t with
      | None => None
      | Some q => option_map (cons q) (floats ts)
      end
  end.

(** The two comprehensions that read one text field. *)
Definition parse_rates (text : string) : option (list Q) :=
  floats (filter (fun x => negb (String.eqb x EmptyString))
                 (map strip (split_comma text))).

(** [get_data]: [None] when a field does not parse ([return None]),
    otherwise the outcome of the sweep, its data frame when it returns. *)
Definition get_data (x infection_rates symptom_rates : string)
    (values : list number) : option (result (list row)) :=
  match parse_rates infection_rates with
  | None => None
  | Some ir =>
      match parse_rates symptom_rates with
      | None => None
      | Some sr =>
          Some (inf <- new_Infection ;;
                inf' <- configure ir sr (combine (map fst variables) values) inf ;;
                df <- iterate eig_abs x inf' ;;
                Ok (fst df))
      end
  end.

End App.

(** Stand-ins to run [get_data] with: no stripping (right on tokens
    without surrounding white space) and the value of a plain string of
    decimal digits. *)
Definition no_strip (s : string) : string := s.

Fixpoint digits_value (acc : Z) (s : string) : option Z :=
  match s with
  | EmptyString => Some acc
  | String c s' =>
      let n := Z.of_nat (Ascii.nat_of_ascii c) in
      if ((48 <=? n) && (n <=? 57))%Z
      then digits_value (10 * acc + (n - 48)) s'
      else None
  end.

Definition float_of_digits (s : string) : option Q :=
  match s with
  | EmptyString => None
  | _ => option_map inject_Z (digits_value 0 s)
  end.

(** [l] with entry [i] replaced by [v]. *)
Fixpoint replace_at {B : Type} (i : nat) (v : B) (l : list B) : list B :=
  match l, i with
  | [], _ => []
  | _ :: t, O => v :: t
  | x :: t, S i' => x :: replace_at i' v t
  end.

(** * Properties *)

(** Closed goals on concrete parameter sets are settled by running the
    model. *)
Ltac by_running :=
  vm_compute;
  solve [ reflexivity | discriminate | lia
        | let H := fresh in intros H; discriminate H ].

(** ** Sums and scaling *)

Lemma np_sum_cons (x : Q) (a : list Q) : np_sum (x :: a) = x + np_sum a.
Proof. reflexivity. Qed.

Lemma np_sum_scale (c s : Q) (a : list Q) :
  np_sum (map (fun x => c * x / s) a) == c * np_sum a / s.
Proof.
  induction a as [|x a IH]; simpl.
  - unfold Qdiv. ring.
  - rewrite IH. unfold Qdiv. ring.
Qed.

Lemma np_sum_normalized (c s : Q) (a : list Q) :
  np_sum a == s -> ~ s == 0 ->
  np_sum (map (fun x => c * x / s) a) == c.
Proof.
  intros Hs Hnz. rewrite np_sum_scale, Hs. field. exact Hnz.
Qed.

Lemma Qeq_bool_false (x y : Q) : Qeq_bool x y = false <-> ~ x == y.
Proof.
  split.
  - intros H E. apply Qeq_bool_iff in E. congruence.
  - intros H. destruct (Qeq_bool x y) eqn:E; [|reflexivity].
    apply Qeq_bool_iff in E. contradiction.
Qed.

Lemma truthy_pos (v : number) : 0 < to_Q v -> truthy v = true.
Proof.
  intros H. unfold truthy. apply negb_true_iff, Qeq_bool_false.
  intros E. rewrite E in H. discriminate.
Qed.

(** ** [set_rates] *)

(** C1, as stated, fails on an empty symptom vector: [[] or
    list(self.symptoms)] keeps the stored profile, so what is stored is
    not what was given. *)
Lemma set_rates_empty_symptoms_not_stored :
  exists p,
    set_rates (Some (Float 2)) (Some [1]) (Some []) class_level = Ok p /\
    symptoms p = [0; 0; 0; 0; 10; 20; 20; 10] /\
    symptoms p <> [].
Proof.
  eexists. split; [reflexivity|]. split; [reflexivity|discriminate].
Qed.

(** C1 (amended): for a positive [r0] and a raw infection-rate vector whose
    sum is not zero, [set_rates] stores [r0], the profile
    [r0 * raw[i] / sum(raw)], whose sum is [r0], and [days] as its
    length; a non-empty symptom vector is stored as given, an empty or
    omitted one leaves the stored symptom profile; the six scalar
    parameters are untouched. *)
Theorem set_rates_normalizes
    (v : number) (raw : list Q) (sym : option (list Q)) (self : Infection) :
  0 < to_Q v ->
  ~ np_sum raw == 0 ->
  exists p,
    set_rates (Some v) (Some raw) sym self = Ok p /\
    r0 p = v /\
    infection_rates p = map (fun x => to_Q v * x / np_sum raw) raw /\
    np_sum (infection_rates p) == to_Q v /\
    days p = length (infection_rates p) /\
    days p = length raw /\
    (forall s, sym = Some s -> s <> [] -> symptoms p = s) /\
    (sym = None \/ sym = Some [] -> symptoms p = symptoms self) /\
    testing_rate p = testing_rate self /\
    testing_delay p = testing_delay self /\
    isolation_effectivity p = isolation_effectivity self /\
    tracing_rate p = tracing_rate self /\
    tracing_delay p = tracing_delay self /\
    asymptomatic_inf p = asymptomatic_inf self.
Proof.
  intros Hv Hsum.
  destruct raw as [|x raw].
  { exfalso. apply Hsum. reflexivity. }
  unfold set_rates. rewrite (truthy_pos v Hv).
  cbv zeta. cbn [list_or].
  apply Qeq_bool_false in Hsum. rewrite Hsum.
  apply Qeq_bool_false in Hsum.
  eexists. split; [reflexivity|]. cbn [r0 infection_rates days symptoms
    testing_rate testing_delay isolation_effectivity tracing_rate
    tracing_delay asymptomatic_inf].
  repeat split.
  - apply np_sum_normalized; [reflexivity|exact Hsum].
  - now rewrite length_map.
  - intros s -> Hs. destruct s; [contradiction|reflexivity].
  - intros [->| ->]; reflexivity.
Qed.

Lemma set_rates_normalizes_witness :
  exists p,
    set_rates (Some (Float 2)) (Some [0; 1; 3]) (Some [10; 20]) class_level = Ok p /\
    np_sum (infection_rates p) == 2 /\ symptoms p = [10; 20].
Proof.
  destruct (set_rates_normalizes (Float 2) [0; 1; 3] (Some [10; 20]) class_level)
    as [p (E & _ & _ & S & _ & _ & Y & _)].
  - reflexivity.
  - discriminate.
  - exists p. split; [exact E|]. split; [exact S|].
    apply Y; [reflexivity|discriminate].
Defined.

(** C4, as stated, fails: on [[0, 0, 0]] the division is a numpy division,
    which warns and stores [nan]; no exception leaves [set_rates]. *)
Lemma set_rates_zero_sum_not_rejected :
  set_rates (Some (Float 2)) (Some [0; 0; 0]) None class_level = NonFinite /\
  ~ raises (set_rates (Some (Float 2)) (Some [0; 0; 0]) None class_level).
Proof.
  split; [reflexivity|]. intros [e H]. discriminate H.
Qed.

(** C4 (amended): [set_rates] never raises.  A non-empty raw vector whose
    sum is zero gives a profile of [nan]/[inf] under a warning; an empty
    vector, for either profile, counts as omitted and the stored profile
    is kept. *)
Theorem set_rates_never_raises
    (v : option number) (raw sym : option (list Q)) (self : Infection) :
  ~ raises (set_rates v raw sym self) /\
  (forall x a, raw = Some (x :: a) -> np_sum (x :: a) == 0 ->
     set_rates v raw sym self = NonFinite) /\
  set_rates v (Some []) sym self = set_rates v None sym self /\
  set_rates v raw (Some []) self = set_rates v raw None self.
Proof.
  repeat split.
  - intros [e H]. unfold set_rates in H. cbv zeta in H.
    destruct (list_or raw (infection_rates self)); [discriminate|].
    destruct (Qeq_bool _ 0); discriminate.
  - intros x a -> Hz. unfold set_rates. cbv zeta. cbn [list_or].
    apply Qeq_bool_iff in Hz. now rewrite Hz.
Qed.

(** ** [__init__] *)

(** C10: whatever the attributes resolve to before [__init__] runs (at
    class level [r0] is 3.0), with the class-level infection rates
    [[0,1,3,6,8,6,3,1]] the constructed parameter set has every scalar at
    its registry default, [r0 = 2.0], the profile scaled to sum 2.0 and
    [days = 8]. *)
Theorem init_defaults (self : Infection) :
  infection_rates self = [0; 1; 3; 6; 8; 6; 3; 1] ->
  exists p,
    init self = Ok p /\
    r0 p = Float 2 /\
    testing_rate p = Int 50 /\
    testing_delay p = Int 3 /\
    isolation_effectivity p = Int 90 /\
    tracing_rate p = Int 0 /\
    tracing_delay p = Int 1 /\
    asymptomatic_inf p = Int 20 /\
    infection_rates p = map (fun x => 2 * x / 28) [0; 1; 3; 6; 8; 6; 3; 1] /\
    np_sum (infection_rates p) == 2 /\
    days p = 8%nat /\
    symptoms p = symptoms self.
Proof.
  destruct self as [a_r0 ir sy d tr td ie cr cd ai]. cbn [infection_rates].
  intros ->. eexists. split; [reflexivity|].
  cbn [r0 infection_rates days symptoms testing_rate testing_delay
       isolation_effectivity tracing_rate tracing_delay asymptomatic_inf].
  repeat split.
Qed.

(** [__init__] reads nothing of the object but the two class-level
    profiles. *)
Lemma init_ignores_scalars (self self' : Infection) :
  infection_rates self = infection_rates self' ->
  symptoms self = symptoms self' ->
  init self = init self'.
Proof.
  destruct self, self'. cbn [infection_rates symptoms]. intros -> ->.
  reflexivity.
Qed.

Lemma init_defaults_witness :
  r0 class_level = Float 3 /\
  exists p, new_Infection = Ok p /\ r0 p = Float 2 /\
            np_sum (infection_rates p) == 2 /\ days p = 8%nat.
Proof.
  split; [reflexivity|].
  destruct (init_defaults class_level eq_refl)
    as [p (E & R & _ & _ & _ & _ & _ & _ & _ & S & D & _)].
  exists p. repeat split; assumption.
Defined.

(** ** Lists: prefix sums, slices and indices *)

Lemma cumsum_from_length (a : list Q) : forall acc,
  length (cumsum_from acc a) = length a.
Proof. induction a as [|x a IH]; intros acc; simpl; [|rewrite IH]; reflexivity. Qed.

Lemma cumsum_from_nth (a : list Q) : forall acc k,
  (k < length a)%nat ->
  nth k (cumsum_from acc a) 0 == acc + np_sum (firstn (S k) a).
Proof.
  induction a as [|x a IH]; intros acc k Hk; simpl in Hk; [lia|].
  destruct k as [|k].
  - cbn [cumsum_from nth firstn]. rewrite np_sum_cons. cbn [np_sum fold_right]. ring.
  - cbn [cumsum_from nth]. rewrite IH by lia.
    change (firstn (S (S k)) (x :: a)) with (x :: firstn (S k) a).
    rewrite np_sum_cons. ring.
Qed.

Lemma firstn_as_nth (a : list Q) : forall n,
  (n <= length a)%nat ->
  firstn n a = map (fun d => nth d a 0) (seq 0 n).
Proof.
  induction a as [|x a IH]; intros n Hn; simpl in Hn.
  - assert (n = 0%nat) as -> by lia. reflexivity.
  - destruct n as [|n]; [reflexivity|].
    cbn [firstn]. rewrite <- cons_seq, <- seq_shift, map_cons, map_map.
    cbn [nth]. f_equal. apply IH. lia.
Qed.

Lemma last_cons (x d : Q) (t : list Q) : last (x :: t) d = last t x.
Proof.
  revert x d. induction t as [|y t IH]; intros x d; [reflexivity|].
  change (last (x :: y :: t) d) with (last (y :: t) d).
  rewrite (IH y d), (IH y x). reflexivity.
Qed.

Lemma last_as_nth (a : list Q) (d : Q) :
  a <> [] -> last a d = nth (length a - 1) a 0.
Proof.
  induction a as [|x a IH]; intros Hne; [contradiction|].
  destruct a as [|y a]; [reflexivity|].
  change (last (x :: y :: a) d) with (last (y :: a) d).
  rewrite IH by discriminate.
  cbn [length]. replace (S (S (length a)) - 1)%nat with (S (length a)) by lia.
  cbn [nth]. replace (S (length a) - 1)%nat with (length a) by lia. reflexivity.
Qed.

Lemma nth_firstn_lt (a : list Q) : forall n k,
  (k < n)%nat -> nth k (firstn n a) 0 = nth k a 0.
Proof.
  induction a as [|x a IH]; intros n k Hk.
  - rewrite firstn_nil. reflexivity.
  - destruct n as [|n]; [lia|]. destruct k as [|k]; [reflexivity|].
    cbn [firstn nth]. apply IH. lia.
Qed.

Lemma nth_repeat_lt (v : Q) (n k : nat) : (k < n)%nat -> nth k (repeat v n) 0 = v.
Proof.
  revert k. induction n as [|n IH]; intros k Hk; [lia|].
  destruct k; [reflexivity|]. cbn [repeat nth]. apply IH. lia.
Qed.

Lemma zip_mul_length (a b : list Q) :
  length a = length b -> length (zip_mul a b) = length a.
Proof.
  revert b. induction a as [|x a IH]; intros [|y b] H; simpl in *; try lia.
  rewrite IH; lia.
Qed.

Lemma zip_mul_nth (a : list Q) : forall b k,
  length a = length b -> (k < length a)%nat ->
  nth k (zip_mul a b) 0 = nth k a 0 * nth k b 0.
Proof.
  induction a as [|x a IH]; intros [|y b] k H Hk; simpl in *; try lia.
  destruct k; [reflexivity|]. apply IH; lia.
Qed.

Lemma np_mul_same_length (a b : list Q) :
  length a = length b -> np_mul a b = Ok (zip_mul a b).
Proof. intros H. unfold np_mul. rewrite H, Nat.eqb_refl. reflexivity. Qed.

Lemma num_pos_Int (z : Z) : num_pos (Int z) = (0 <? z)%Z.
Proof.
  unfold num_pos. cbn [to_Q].
  destruct (Qle_bool (inject_Z z) 0) eqn:E; cbn [negb]; symmetry.
  - apply Qle_bool_iff in E. apply Z.ltb_ge.
    change 0 with (inject_Z 0) in E. rewrite Zle_Qle. exact E.
  - apply Z.ltb_lt. apply Z.nle_gt. intros H.
    assert (Qle_bool (inject_Z z) 0 = true); [|congruence].
    apply Qle_bool_iff. change 0 with (inject_Z 0). rewrite <- Zle_Qle. exact H.
Qed.

(** ** The suppression engine in closed form *)

Lemma effective_symptoms_length (p : Infection) :
  length (effective_symptoms p) = length (symptoms p).
Proof. unfold effective_symptoms. apply length_map. Qed.

Lemma testing_suppression_length (p : Infection) :
  length (testing_suppression p) = length (symptoms p).
Proof.
  unfold testing_suppression, cumsum.
  rewrite length_map, cumsum_from_length. apply effective_symptoms_length.
Qed.

Lemma overall_testing_closed (p : Infection) (td : Z) :
  testing_delay p = Int td -> (0 <= td)%Z -> symptoms p <> [] ->
  overall_testing_suppression p =
  Ok (take (length (infection_rates p))
        (repeat 1 (Z.to_nat td) ++ testing_suppression p
         ++ repeat (last (testing_suppression p) 1)
              (Z.to_nat (Z.of_nat (days p) - Z.of_nat (length (symptoms p)) - td)))).
Proof.
  intros Htd Hpos Hsym. unfold overall_testing_suppression.
  rewrite Htd. cbn [np_ones num_sub len].
  destruct (td <? 0)%Z eqn:E; [apply Z.ltb_lt in E; lia|]. cbn [bind].
  rewrite num_pos_Int.
  set (rest := (Z.of_nat (days p) - Z.of_nat (length (symptoms p)) - td)%Z).
  destruct (0 <? rest)%Z eqn:R.
  - apply Z.ltb_lt in R.
    pose proof (testing_suppression_length p) as Hlen.
    destruct (testing_suppression p) as [|x t] eqn:T.
    { destruct (symptoms p); [contradiction|discriminate]. }
    cbn [last_elt bind np_repeat_n].
    destruct (rest <? 0)%Z eqn:E2; [apply Z.ltb_lt in E2; lia|].
    cbn [bind]. rewrite last_cons. reflexivity.
  - apply Z.ltb_ge in R. cbn [bind].
    replace (Z.to_nat rest) with 0%nat by lia. reflexivity.
Qed.

Lemma overall_tracing_closed (p : Infection) (td cd : Z) :
  testing_delay p = Int td -> tracing_delay p = Int cd -> (0 <= td + cd)%Z ->
  overall_tracing_suppression p =
  Ok (take (length (infection_rates p))
        (repeat 1 (Z.to_nat (td + cd))
         ++ repeat (tracing_suppression p)
              (Z.to_nat (Z.of_nat (days p) - (td + cd))))).
Proof.
  intros Htd Hcd Hpos. unfold overall_tracing_suppression.
  rewrite Htd, Hcd. cbn [np_ones num_sub num_add].
  destruct (td + cd <? 0)%Z eqn:E; [apply Z.ltb_lt in E; lia|]. cbn [bind].
  rewrite num_pos_Int.
  set (rest := (Z.of_nat (days p) - (td + cd))%Z).
  destruct (0 <? rest)%Z eqn:R.
  - apply Z.ltb_lt in R. cbn [np_repeat_n].
    destruct (rest <? 0)%Z eqn:E2; [apply Z.ltb_lt in E2; lia|]. reflexivity.
  - apply Z.ltb_ge in R. cbn [bind].
    replace (Z.to_nat rest) with 0%nat by lia. reflexivity.
Qed.

Lemma take_length_full (n : nat) (a : list Q) :
  (n <= length a)%nat -> length (take n a) = n.
Proof. intros H. unfold take. rewrite length_firstn. lia. Qed.

(** On a well-formed parameter set [suppress] returns, and both
    multiplier sequences have exactly [days] entries. *)
Lemma suppress_closed (p : Infection) (td cd : Z) :
  testing_delay p = Int td -> tracing_delay p = Int cd ->
  (0 <= td)%Z -> (0 <= td + cd)%Z ->
  days p = length (infection_rates p) ->
  symptoms p <> [] ->
  ~ symptom_divisor p == 0 ->
  exists T C,
    overall_testing_suppression p = Ok T /\
    overall_tracing_suppression p = Ok C /\
    T = take (days p)
          (repeat 1 (Z.to_nat td) ++ testing_suppression p
           ++ repeat (last (testing_suppression p) 1)
                (Z.to_nat (Z.of_nat (days p) - Z.of_nat (length (symptoms p)) - td))) /\
    C = take (days p)
          (repeat 1 (Z.to_nat (td + cd))
           ++ repeat (tracing_suppression p)
                (Z.to_nat (Z.of_nat (days p) - (td + cd)))) /\
    length T = days p /\ length C = days p /\
    suppress p = Ok (zip_mul (zip_mul (infection_rates p) T) C).
Proof.
  intros Htd Hcd Hpos Hpos2 Hdays Hsym Hdiv.
  pose proof (overall_testing_closed p td Htd Hpos Hsym) as HT.
  pose proof (overall_tracing_closed p td cd Htd Hcd Hpos2) as HC.
  rewrite <- Hdays in HT, HC.
  eexists. eexists. split; [exact HT|]. split; [exact HC|].
  split; [reflexivity|]. split; [reflexivity|].
  assert (LT : length (take (days p)
          (repeat 1 (Z.to_nat td) ++ testing_suppression p
           ++ repeat (last (testing_suppression p) 1)
                (Z.to_nat (Z.of_nat (days p) - Z.of_nat (length (symptoms p)) - td))))
          = days p).
  { apply take_length_full.
    rewrite !length_app, !repeat_length, testing_suppression_length. lia. }
  assert (LC : length (take (days p)
          (repeat 1 (Z.to_nat (td + cd))
           ++ repeat (tracing_suppression p)
                (Z.to_nat (Z.of_nat (days p) - (td + cd))))) = days p).
  { apply take_length_full. rewrite !length_app, !repeat_length. lia. }
  split; [exact LT|]. split; [exact LC|].
  unfold suppress. rewrite HT, HC. cbn [bind].
  rewrite np_mul_same_length by (rewrite LT; symmetry; exact Hdays).
  cbn [bind].
  rewrite np_mul_same_length
    by (rewrite zip_mul_length; rewrite LT || rewrite LC; congruence).
  cbn [bind].
  destruct (symptoms p); [contradiction|].
  apply Qeq_bool_false in Hdiv. rewrite Hdiv. reflexivity.
Qed.

Lemma np_sum_map_ext (f g : nat -> Q) (l : list nat) :
  (forall x, In x l -> f x == g x) ->
  np_sum (map f l) == np_sum (map g l).
Proof.
  induction l as [|x l IH]; intros H; [reflexivity|].
  cbn [map]. rewrite !np_sum_cons, IH, (H x).
  - reflexivity.
  - now left.
  - intros y Hy. apply H. now right.
Qed.

Lemma nth_map_lt (f : Q -> Q) (a : list Q) (k : nat) :
  (k < length a)%nat -> nth k (map f a) 0 = f (nth k a 0).
Proof.
  intros H. rewrite (nth_indep (map f a) 0 (f 0)) by (now rewrite length_map).
  apply map_nth.
Qed.

Lemma effective_symptoms_nth (p : Infection) (d : nat) :
  (d < length (symptoms p))%nat ->
  nth d (effective_symptoms p) 0 = Spec.effectiveSymptomShare p d.
Proof. intros H. unfold effective_symptoms. now rewrite nth_map_lt. Qed.

Lemma effective_symptoms_prefix (p : Infection) (n : nat) :
  (n <= length (symptoms p))%nat ->
  np_sum (firstn n (effective_symptoms p))
  == np_sum (map (Spec.effectiveSymptomShare p) (seq 0 n)).
Proof.
  intros H. rewrite firstn_as_nth by (now rewrite effective_symptoms_length).
  apply np_sum_map_ext. intros d Hd. apply in_seq in Hd.
  rewrite effective_symptoms_nth by lia. reflexivity.
Qed.

Lemma testing_suppression_nth (p : Infection) (k : nat) :
  (k < length (symptoms p))%nat ->
  nth k (testing_suppression p) 0 == Spec.testingMultiplier p k.
Proof.
  intros H. unfold testing_suppression, cumsum.
  rewrite nth_map_lt
    by (now rewrite cumsum_from_length, effective_symptoms_length).
  rewrite cumsum_from_nth by (now rewrite effective_symptoms_length).
  rewrite effective_symptoms_prefix by lia.
  unfold Spec.testingMultiplier, Spec.cumulativeShare. ring.
Qed.

Lemma tracing_suppression_spec (p : Infection) :
  tracing_suppression p == Spec.tracingSuppression p.
Proof.
  unfold tracing_suppression, Spec.tracingSuppression.
  rewrite <- (effective_symptoms_prefix p (length (symptoms p))) by lia.
  rewrite <- effective_symptoms_length, firstn_all. reflexivity.
Qed.

Lemma overall_testing_nth (p : Infection) (n d : nat) :
  symptoms p <> [] -> (d < days p)%nat ->
  nth d (take (days p)
           (repeat 1 n ++ testing_suppression p
            ++ repeat (last (testing_suppression p) 1)
                 (Z.to_nat (Z.of_nat (days p) - Z.of_nat (length (symptoms p))
                            - Z.of_nat n)))) 0
  == Spec.testingSequence p n d.
Proof.
  intros Hsym Hd. unfold take. rewrite nth_firstn_lt by exact Hd.
  unfold Spec.testingSequence.
  pose proof (testing_suppression_length p) as Hlen.
  destruct (d <? n)%nat eqn:E1.
  - apply Nat.ltb_lt in E1.
    rewrite app_nth1 by (now rewrite repeat_length).
    rewrite nth_repeat_lt by exact E1. reflexivity.
  - apply Nat.ltb_ge in E1.
    rewrite app_nth2 by (rewrite repeat_length; lia).
    rewrite repeat_length.
    destruct (d - n <? length (symptoms p))%nat eqn:E2.
    + apply Nat.ltb_lt in E2.
      rewrite app_nth1 by lia. now apply testing_suppression_nth.
    + apply Nat.ltb_ge in E2.
      rewrite app_nth2 by lia. rewrite nth_repeat_lt by lia.
      rewrite last_as_nth.
      * rewrite Hlen. apply testing_suppression_nth.
        destruct (symptoms p); [contradiction|simpl; lia].
      * intros E. rewrite E in Hlen. destruct (symptoms p);
          [contradiction|discriminate].
Qed.

Lemma overall_tracing_nth (p : Infection) (n d : nat) :
  (d < days p)%nat ->
  nth d (take (days p)
           (repeat 1 n ++ repeat (tracing_suppression p)
                            (Z.to_nat (Z.of_nat (days p) - Z.of_nat n)))) 0
  == Spec.tracingSequence p n d.
Proof.
  intros Hd. unfold take. rewrite nth_firstn_lt by exact Hd.
  unfold Spec.tracingSequence.
  destruct (d <? n)%nat eqn:E1.
  - apply Nat.ltb_lt in E1.
    rewrite app_nth1 by (now rewrite repeat_length).
    rewrite nth_repeat_lt by exact E1. reflexivity.
  - apply Nat.ltb_ge in E1.
    rewrite app_nth2 by (rewrite repeat_length; lia).
    rewrite repeat_length, nth_repeat_lt by lia.
    apply tracing_suppression_spec.
Qed.

(** The entries of what [suppress] returns, day by day. *)
Lemma suppress_by_day (p : Infection) (td cd : Z) :
  testing_delay p = Int td -> tracing_delay p = Int cd ->
  (0 <= td)%Z -> (0 <= td + cd)%Z ->
  days p = length (infection_rates p) ->
  symptoms p <> [] ->
  ~ symptom_divisor p == 0 ->
  exists e,
    suppress p = Ok e /\
    length e = days p /\
    forall d, (d < days p)%nat ->
      nth d e 0
      == Spec.effectiveInfectiousness p (Z.to_nat td) (Z.to_nat (td + cd)) d.
Proof.
  intros Htd Hcd Hpos Hpos2 Hdays Hsym Hdiv.
  destruct (suppress_closed p td cd Htd Hcd Hpos Hpos2 Hdays Hsym Hdiv)
    as (T & C & _ & _ & ET & EC & LT & LC & E).
  eexists. split; [exact E|]. split.
  - rewrite !zip_mul_length; try congruence.
    rewrite zip_mul_length; congruence.
  - intros d Hd.
    rewrite zip_mul_nth;
      [|rewrite zip_mul_length; congruence
       |rewrite zip_mul_length; [rewrite <- Hdays; exact Hd|congruence]].
    rewrite zip_mul_nth; [|congruence|rewrite <- Hdays; exact Hd].
    unfold Spec.effectiveInfectiousness.
    assert (HT : nth d T 0 == Spec.testingSequence p (Z.to_nat td) d).
    { rewrite ET. rewrite <- (Z2Nat.id td) at 2 by exact Hpos.
      now apply overall_testing_nth. }
    assert (HC : nth d C 0 == Spec.tracingSequence p (Z.to_nat (td + cd)) d).
    { rewrite EC. rewrite <- (Z2Nat.id (td + cd)) at 2 by exact Hpos2.
      now apply overall_tracing_nth. }
    rewrite HT, HC. reflexivity.
Qed.

(** C2: on a parameter set whose delays are ints with [testing_delay >= 0]
    and [testing_delay + tracing_delay >= 0], whose [days] is the length
    of the infection profile, whose symptom profile is not empty and whose
    divisor is not zero, [suppress] returns exactly [days] entries; the
    testing-suppression and tracing-suppression sequences it builds have
    [days] entries each and are, day by day, the sequences of the
    specification; and entry [d] of the result is the product of the
    infection profile and the two sequences at day [d]. *)
Theorem suppress_matches_spec (p : Infection) (td cd : Z) :
  testing_delay p = Int td -> tracing_delay p = Int cd ->
  (0 <= td)%Z -> (0 <= td + cd)%Z ->
  days p = length (infection_rates p) ->
  symptoms p <> [] ->
  ~ symptom_divisor p == 0 ->
  exists T C e,
    overall_testing_suppression p = Ok T /\
    overall_tracing_suppression p = Ok C /\
    suppress p = Ok e /\
    length T = days p /\ length C = days p /\ length e = days p /\
    forall d, (d < days p)%nat ->
      nth d T 0 == Spec.testingSequence p (Z.to_nat td) d /\
      nth d C 0 == Spec.tracingSequence p (Z.to_nat (td + cd)) d /\
      nth d e 0 = nth d (infection_rates p) 0 * nth d T 0 * nth d C 0 /\
      nth d e 0
      == Spec.effectiveInfectiousness p (Z.to_nat td) (Z.to_nat (td + cd)) d.
Proof.
  intros Htd Hcd Hpos Hpos2 Hdays Hsym Hdiv.
  destruct (suppress_closed p td cd Htd Hcd Hpos Hpos2 Hdays Hsym Hdiv)
    as (T & C & HT & HC & ET & EC & LT & LC & E).
  destruct (suppress_by_day p td cd Htd Hcd Hpos Hpos2 Hdays Hsym Hdiv)
    as (e & E' & Le & N).
  exists T, C, e. split; [exact HT|]. split; [exact HC|]. split; [exact E'|].
  split; [exact LT|]. split; [exact LC|]. split; [exact Le|].
  intros d Hd. split; [|split; [|split]].
  - rewrite ET. rewrite <- (Z2Nat.id td) at 2 by exact Hpos.
    now apply overall_testing_nth.
  - rewrite EC. rewrite <- (Z2Nat.id (td + cd)) at 2 by exact Hpos2.
    now apply overall_tracing_nth.
  - rewrite E in E'. injection E' as <-.
    rewrite zip_mul_nth;
      [|rewrite zip_mul_length; congruence
       |rewrite zip_mul_length; [rewrite <- Hdays; exact Hd|congruence]].
    rewrite zip_mul_nth; [reflexivity|congruence|rewrite <- Hdays; exact Hd].
  - now apply N.
Qed.

Lemma suppress_matches_spec_witness :
  exists e,
    suppress default_infection = Ok e /\
    length e = 8%nat /\
    nth 7 e 0 == Spec.effectiveInfectiousness default_infection 3 4 7.
Proof.
  destruct (suppress_matches_spec default_infection 3 1)
    as (T & C & e & _ & _ & E & _ & _ & L & N);
    try reflexivity; try discriminate.
  exists e. split; [exact E|]. split; [exact L|].
  apply (N 7%nat). vm_compute. lia.
Defined.

(** ** The companion matrix and the estimator *)

Lemma removelast_length {A : Type} (l : list A) :
  length (removelast l) = (length l - 1)%nat.
Proof.
  induction l as [|x l IH]; [reflexivity|].
  destruct l as [|y l]; [reflexivity|].
  change (removelast (x :: y :: l)) with (x :: removelast (y :: l)).
  cbn [length] in *. rewrite IH. lia.
Qed.

Lemma removelast_In {A : Type} (l : list A) (x : A) :
  In x (removelast l) -> In x l.
Proof.
  induction l as [|y l IH]; [auto|].
  destruct l as [|z l]; [intros []|].
  change (removelast (y :: z :: l)) with (y :: removelast (z :: l)).
  intros [->|H]; [now left|right; now apply IH].
Qed.

Lemma np_diag_ones_rows (n : nat) (row : list Q) :
  In row (np_diag_ones n) -> length row = n.
Proof.
  unfold np_diag_ones. intros H. apply in_map_iff in H as (i & <- & _).
  now rewrite length_map, length_seq.
Qed.

Lemma companion_square (p : Infection) (a : list Q) :
  length a = days p -> (1 <= days p)%nat ->
  exists A, companion p a = Ok A /\
            A = a :: removelast (np_diag_ones (days p)) /\
            length A = days p /\ is_square A = true.
Proof.
  intros Hlen Hpos. unfold companion, reshape_row.
  rewrite Hlen, Nat.eqb_refl. cbn [bind app].
  eexists. split; [reflexivity|]. split; [reflexivity|].
  assert (L : length (a :: removelast (np_diag_ones (days p))) = days p).
  { cbn [length]. rewrite removelast_length. unfold np_diag_ones.
    rewrite length_map, length_seq. lia. }
  split; [exact L|].
  unfold is_square. apply forallb_forall. intros row [<-|H].
  - apply Nat.eqb_eq. congruence.
  - apply Nat.eqb_eq. rewrite L.
    apply np_diag_ones_rows. now apply removelast_In in H.
Qed.

(** When the engine returns [days >= 1] entries and the solver returns
    at least one eigenvalue, the estimator returns, and its [R] is the
    sum of the effective vector. *)
Lemma get_r_and_growth_ok (eig_abs : matrix -> list Q) (p : Infection)
    (e : list Q) :
  (forall A, A <> [] -> eig_abs A <> []) ->
  suppress p = Ok e -> length e = days p -> (1 <= days p)%nat ->
  exists g, get_r_and_growth eig_abs p = Ok (np_sum e, (g - 1) * 100) /\
            compute_growth eig_abs p e = Ok g.
Proof.
  intros Heig Hs Hlen Hpos. unfold get_r_and_growth, compute_growth.
  rewrite Hs. cbn [bind].
  destruct (companion_square p e Hlen Hpos) as (A & HA & EA & LA & HS).
  rewrite HA. cbn [bind]. rewrite HS.
  destruct (eig_abs A) as [|x t] eqn:E.
  - exfalso. apply (Heig A); [|exact E]. rewrite EA. discriminate.
  - cbn [np_max bind]. eexists. split; reflexivity.
Qed.

Lemma get_r_is_sum (eig_abs : matrix -> list Q) (p : Infection) (R g : Q) :
  get_r_and_growth eig_abs p = Ok (R, g) ->
  exists e, suppress p = Ok e /\ R = np_sum e.
Proof.
  unfold get_r_and_growth. destruct (suppress p) as [e| | |]; try discriminate.
  cbn [bind]. destruct (compute_growth eig_abs p e); try discriminate.
  cbn [bind]. intros H. injection H as <- _. now exists e.
Qed.

(** ** No intervention *)

Lemma all_ones_repeat (v : Q) (n : nat) : v == 1 -> all_ones (repeat v n).
Proof.
  intros H. induction n as [|n IH]; constructor; assumption.
Qed.

Lemma all_ones_app (a b : list Q) : all_ones a -> all_ones b -> all_ones (a ++ b).
Proof. intros Ha Hb. apply Forall_app. now split. Qed.

Lemma all_ones_take (n : nat) (a : list Q) : all_ones a -> all_ones (take n a).
Proof.
  intros H. revert n. induction H as [|x a Hx Ha IH]; intros [|n];
    unfold take; cbn [firstn]; try constructor; auto.
  apply IH.
Qed.

Lemma all_ones_last (a : list Q) : all_ones a -> last a 1 == 1.
Proof.
  intros H. induction H as [|x a Hx Ha IH]; [reflexivity|].
  destruct a as [|y a]; [exact Hx|exact IH].
Qed.

Lemma testing_suppression_ones (p : Infection) :
  to_Q (testing_rate p) == 0 -> all_ones (testing_suppression p).
Proof.
  intros H. unfold testing_suppression, all_ones.
  apply Forall_forall. intros m Hm. apply in_map_iff in Hm as (c & <- & _).
  rewrite H. unfold Qdiv. ring.
Qed.

Lemma tracing_suppression_one (p : Infection) :
  to_Q (testing_rate p) == 0 \/ to_Q (tracing_rate p) == 0 ->
  tracing_suppression p == 1.
Proof.
  unfold tracing_suppression. intros [H|H]; rewrite H; unfold Qdiv; ring.
Qed.

Lemma zip_mul_ones (a : list Q) : forall a' b,
  Forall2 Qeq a a' -> length b = length a -> all_ones b ->
  Forall2 Qeq (zip_mul a b) a'.
Proof.
  induction a as [|x a IH]; intros a' b H Hlen Hb.
  - inversion H. constructor.
  - inversion H as [|? y ? a'' Hxy Haa]; subst.
    destruct b as [|m b]; [discriminate|].
    inversion Hb as [|? ? Hm Hb']; subst.
    cbn [zip_mul]. constructor.
    + rewrite Hm, Hxy. ring.
    + apply IH; auto.
Qed.

Lemma Forall2_Qeq_refl (a : list Q) : Forall2 Qeq a a.
Proof. induction a; constructor; [reflexivity|assumption]. Qed.

Lemma np_sum_Forall2 (a b : list Q) : Forall2 Qeq a b -> np_sum a == np_sum b.
Proof.
  intros H. induction H as [|x y a b Hxy _ IH]; [reflexivity|].
  rewrite !np_sum_cons, Hxy, IH. reflexivity.
Qed.

(** C3, as stated, fails for [tracing_rate = 0]: the default parameter set
    has no tracing, yet testing still suppresses the last day, and [R] is
    below [r0]. *)
Lemma no_tracing_still_suppresses :
  exists e,
    to_Q (tracing_rate default_infection) == 0 /\
    np_sum (infection_rates default_infection) == to_Q (r0 default_infection) /\
    suppress default_infection = Ok e /\
    ~ nth 7 e 0 == nth 7 (infection_rates default_infection) 0 /\
    np_sum e < to_Q (r0 default_infection).
Proof.
  eexists. split; [vm_compute; reflexivity|].
  split; [vm_compute; reflexivity|].
  split; [vm_compute; reflexivity|]. split.
  - intros H. vm_compute in H. discriminate H.
  - vm_compute. reflexivity.
Qed.

(** C3 (amended): on a well-formed parameter set with a non-empty infection
    profile, [testing_rate = 0] makes every testing and every tracing
    multiplier 1, [suppress] returns the stored infection profile, and the
    [R] of the estimator is its sum, which is [r0] when the profile is
    normalized; [tracing_rate = 0] alone makes every tracing multiplier 1
    and leaves the testing multipliers as they are. *)
Theorem no_intervention_identity
    (eig_abs : matrix -> list Q) (p : Infection) (td cd : Z) :
  (forall A, A <> [] -> eig_abs A <> []) ->
  testing_delay p = Int td -> tracing_delay p = Int cd ->
  (0 <= td)%Z -> (0 <= td + cd)%Z ->
  days p = length (infection_rates p) -> infection_rates p <> [] ->
  symptoms p <> [] ->
  ~ symptom_divisor p == 0 ->
  (to_Q (testing_rate p) == 0 ->
   exists T C e g,
     overall_testing_suppression p = Ok T /\ all_ones T /\
     overall_tracing_suppression p = Ok C /\ all_ones C /\
     suppress p = Ok e /\ Forall2 Qeq e (infection_rates p) /\
     get_r_and_growth eig_abs p = Ok (np_sum e, g) /\
     np_sum e == np_sum (infection_rates p) /\
     (np_sum (infection_rates p) == to_Q (r0 p) -> np_sum e == to_Q (r0 p)))
  /\
  (to_Q (tracing_rate p) == 0 ->
   exists T C,
     overall_tracing_suppression p = Ok C /\ all_ones C /\
     overall_testing_suppression p = Ok T /\
     forall d, (d < days p)%nat ->
       nth d T 0 == Spec.testingSequence p (Z.to_nat td) d).
Proof.
  intros Heig Htd Hcd Hpos Hpos2 Hdays Hir Hsym Hdiv.
  destruct (suppress_closed p td cd Htd Hcd Hpos Hpos2 Hdays Hsym Hdiv)
    as (T & C & HT & HC & ET & EC & LT & LC & E).
  assert (Hone : to_Q (testing_rate p) == 0 \/ to_Q (tracing_rate p) == 0 ->
                 all_ones C).
  { intros H. rewrite EC. apply all_ones_take, all_ones_app;
      apply all_ones_repeat; [reflexivity|now apply tracing_suppression_one]. }
  split.
  - intros Hz.
    assert (HTone : all_ones T).
    { rewrite ET. pose proof (testing_suppression_ones p Hz) as Hts.
      apply all_ones_take. repeat apply all_ones_app; auto.
      + now apply all_ones_repeat.
      + apply all_ones_repeat. now apply all_ones_last. }
    assert (Heq : Forall2 Qeq (zip_mul (zip_mul (infection_rates p) T) C)
                    (infection_rates p)).
    { apply zip_mul_ones; [|rewrite zip_mul_length; congruence|auto].
      apply zip_mul_ones; [apply Forall2_Qeq_refl|congruence|exact HTone]. }
    assert (Hlen : length (zip_mul (zip_mul (infection_rates p) T) C) = days p).
    { rewrite !zip_mul_length; try congruence. rewrite zip_mul_length; congruence. }
    assert (Hd : (1 <= days p)%nat).
    { rewrite Hdays. destruct (infection_rates p); [contradiction|simpl; lia]. }
    destruct (get_r_and_growth_ok eig_abs p _ Heig E Hlen Hd) as (g & Hg & _).
    exists T, C. eexists. eexists.
    split; [exact HT|]. split; [exact HTone|]. split; [exact HC|].
    split; [now apply Hone; left|]. split; [exact E|]. split; [exact Heq|].
    split; [exact Hg|]. pose proof (np_sum_Forall2 _ _ Heq) as Hsum.
    split; [exact Hsum|]. intros Hn. now rewrite Hsum.
  - intros Hz. exists T, C. split; [exact HC|]. split; [now apply Hone; right|].
    split; [exact HT|]. intros d Hd. rewrite ET.
    rewrite <- (Z2Nat.id td) at 2 by exact Hpos.
    now apply overall_testing_nth.
Qed.

Lemma no_intervention_identity_witness :
  exists e g,
    suppress (setattr default_infection "testing_rate" (Int 0)) = Ok e /\
    Forall2 Qeq e (infection_rates default_infection) /\
    get_r_and_growth diag_abs (setattr default_infection "testing_rate" (Int 0))
    = Ok (np_sum e, g) /\
    np_sum e == 2.
Proof.
  destruct (no_intervention_identity diag_abs
              (setattr default_infection "testing_rate" (Int 0)) 3 1)
    as [H _]; try by_running.
  - intros A HA. unfold diag_abs. destruct A; [contradiction|discriminate].
  - destruct H as (T & C & e & g & _ & _ & _ & _ & E & F & G & _ & S);
      [by_running|].
    exists e, g. split; [exact E|]. split; [exact F|]. split; [exact G|].
    apply S. by_running.
Defined.

(** ** One-day profiles *)

(** C8: with [days = 1] the matrix of [compute_growth] is the 1x1 matrix
    whose entry is the effective infectiousness, the call does not fail,
    and, the solver returning that entry as the eigenvalue of a 1x1
    matrix, the growth factor returned is its absolute value. *)
Theorem growth_one_day (eig_abs : matrix -> list Q) (p : Infection) (v : Q) :
  days p = 1%nat ->
  eig_abs [[v]] = [Qabs v] ->
  companion p [v] = Ok [[v]] /\
  compute_growth eig_abs p [v] = Ok (Qabs v) /\
  (suppress p = Ok [v] ->
   get_r_and_growth eig_abs p = Ok (np_sum [v], (Qabs v - 1) * 100)).
Proof.
  intros Hd Heig.
  assert (HA : companion p [v] = Ok [[v]]).
  { unfold companion, reshape_row. rewrite Hd. reflexivity. }
  assert (HG : compute_growth eig_abs p [v] = Ok (Qabs v)).
  { unfold compute_growth. rewrite HA. cbn [bind is_square forallb length].
    cbn [Nat.eqb andb]. rewrite Heig. reflexivity. }
  split; [exact HA|]. split; [exact HG|].
  intros Hs. unfold get_r_and_growth. rewrite Hs. cbn [bind].
  rewrite HG. reflexivity.
Qed.

Lemma growth_one_day_witness :
  compute_growth diag_abs one_day_infection [2] = Ok 2 /\
  companion one_day_infection [2] = Ok [[2]].
Proof.
  destruct (growth_one_day diag_abs one_day_infection 2) as (A & G & _);
    [reflexivity|reflexivity|].
  split; [exact G|exact A].
Defined.

(** ** Simulation *)

Lemma well_formed_default : well_formed default_infection.
Proof.
  exists 3%Z, 1%Z. repeat split; try by_running.
Qed.

Lemma suppress_well_formed (p : Infection) :
  well_formed p ->
  exists e, suppress p = Ok e /\ length e = days p.
Proof.
  intros (td & cd & Htd & Hcd & Hpos & Hpos2 & Hdays & Hsym & Hdiv).
  destruct (suppress_by_day p td cd Htd Hcd Hpos Hpos2 Hdays Hsym Hdiv)
    as (e & E & L & _).
  now exists e.
Qed.

Lemma transmit_closed (p : Infection) (e x : list Q) :
  suppress p = Ok e -> length e = days p -> length x = days p ->
  (1 <= days p)%nat ->
  _transmit p x = Ok (np_sum (zip_mul x e) :: removelast x, np_sum e) /\
  length (np_sum (zip_mul x e) :: removelast x) = days p.
Proof.
  intros Hs He Hx Hd. unfold _transmit, np_dot. rewrite Hs. cbn [bind].
  rewrite Hx, He, Nat.eqb_refl. cbn [bind]. split; [reflexivity|].
  cbn [length]. rewrite removelast_length. lia.
Qed.

Lemma simulate_loop_closed (p : Infection) (e : list Q) :
  suppress p = Ok e -> length e = days p -> (1 <= days p)%nat ->
  forall n x rs,
    x <> [] -> rows_of_length (days p) x ->
    exists x',
      simulate_loop p n x rs = Ok (x', rs ++ repeat (np_sum e) n) /\
      length x' = (length x + n)%nat /\
      rows_of_length (days p) x' /\
      firstn (length x) x' = x.
Proof.
  intros Hs He Hd. induction n as [|n IH]; intros x rs Hne Hrows.
  - exists x. cbn [simulate_loop repeat]. rewrite app_nil_r, firstn_all.
    repeat split; auto.
  - cbn [simulate_loop].
    assert (Hlast : length (last x []) = days p).
    { destruct (exists_last Hne) as (x0 & row & ->).
      rewrite last_last. apply Forall_app in Hrows as [_ Hrow].
      now inversion Hrow. }
    destruct (transmit_closed p e (last x []) Hs He Hlast Hd) as [Ht Hl].
    rewrite Ht. cbn [bind fst snd]. unfold reshape_row.
    rewrite Hl, Nat.eqb_refl. cbn [bind].
    destruct (IH (x ++ [np_sum (zip_mul (last x []) e) :: removelast (last x [])])
                 (rs ++ [np_sum e]))
      as (x' & E & L & R & F).
    + destruct x; discriminate.
    + apply Forall_app. split; [exact Hrows|]. constructor; [exact Hl|constructor].
    + exists x'. rewrite E, <- app_assoc. cbn [app repeat].
      split; [reflexivity|]. rewrite length_app in L. cbn [length] in L.
      split; [lia|]. split; [exact R|].
      rewrite length_app in F. cbn [length] in F.
      assert (firstn (length x) (firstn (length x + 1) x')
              = firstn (length x) x') as <-
        by (rewrite firstn_firstn; f_equal; lia).
      rewrite F, firstn_app, Nat.sub_diag, firstn_all. cbn [firstn].
      apply app_nil_r.
Qed.

(** C6: on a well-formed parameter set with at least one day and an
    initial case vector of at most [days] entries, [simulate] returns; the
    R series has [n + 1] entries, [r0] first and then, for each of the [n]
    steps, the sum of what [suppress] returns on the parameter set; the
    history has [n + 1] rows of [days] entries, the first being the
    initial cases padded with zeros. *)
Theorem simulate_consistent (p : Infection) (initial_cases : list Q) (n : nat) :
  well_formed p -> (1 <= days p)%nat ->
  (length initial_cases <= days p)%nat ->
  exists e x rs,
    suppress p = Ok e /\
    simulate p initial_cases n = Ok (x, rs) /\
    rs = to_Q (r0 p) :: repeat (np_sum e) n /\
    length rs = S n /\
    (forall i, (1 <= i <= n)%nat -> nth i rs 0 = np_sum e) /\
    length x = S n /\
    rows_of_length (days p) x /\
    nth 0 x [] = initial_cases ++ repeat 0 (days p - length initial_cases).
Proof.
  intros Hwf Hd Hinit.
  destruct (suppress_well_formed p Hwf) as (e & Hs & He).
  unfold simulate, np_zeros.
  destruct (_ <? 0)%Z eqn:E; [apply Z.ltb_lt in E; lia|]. cbn [bind].
  replace (Z.to_nat (Z.of_nat (days p) - Z.of_nat (length initial_cases)))
    with (days p - length initial_cases)%nat by lia.
  set (row := initial_cases ++ repeat 0 (days p - length initial_cases)).
  assert (Hrow : length row = days p).
  { unfold row. rewrite length_app, repeat_length. lia. }
  unfold reshape_row. rewrite Hrow, Nat.eqb_refl. cbn [bind].
  destruct (simulate_loop_closed p e Hs He Hd n [row] [to_Q (r0 p)])
    as (x' & E' & L & R & F).
  - discriminate.
  - constructor; [exact Hrow|constructor].
  - exists e, x'. eexists. split; [exact Hs|]. split; [exact E'|].
    cbn [app]. split; [reflexivity|]. split.
    + cbn [length]. now rewrite repeat_length.
    + split.
      * intros i Hi. destruct i as [|i]; [lia|]. cbn [nth].
        rewrite (nth_indep _ 0 (np_sum e)) by (rewrite repeat_length; lia).
        apply nth_repeat.
      * split; [cbn [length] in L; lia|]. split; [exact R|].
        cbn [length] in F. destruct x' as [|r' x']; [discriminate|].
        cbn [firstn] in F. now injection F as ->.
Qed.

Lemma simulate_consistent_witness :
  exists e x rs,
    suppress default_infection = Ok e /\
    simulate default_infection [1] 5 = Ok (x, rs) /\
    rs = 2 :: repeat (np_sum e) 5 /\
    length x = 6%nat.
Proof.
  destruct (simulate_consistent default_infection [1] 5 well_formed_default)
    as (e & x & rs & S & E & R & _ & _ & L & _).
  - by_running.
  - by_running.
  - exists e, x, rs. repeat split; assumption.
Defined.

(** ** Monotonicity in the isolation effectivity *)

Lemma np_sum_nonneg (a : list Q) : Forall (fun x => 0 <= x) a -> 0 <= np_sum a.
Proof.
  intros H. induction H as [|x a Hx _ IH]; [apply Qle_refl|].
  rewrite np_sum_cons. lra.
Qed.

Lemma np_sum_firstn_le (a : list Q) : forall n,
  Forall (fun x => 0 <= x) a -> np_sum (firstn n a) <= np_sum a.
Proof.
  induction a as [|x a IH]; intros n H.
  - rewrite firstn_nil. apply Qle_refl.
  - inversion H as [|? ? Hx Ha]; subst. destruct n as [|n].
    + cbn [firstn]. rewrite np_sum_cons.
      pose proof (np_sum_nonneg a Ha). cbn [np_sum fold_right]. lra.
    + cbn [firstn]. rewrite !np_sum_cons. specialize (IH n Ha). lra.
Qed.

Lemma Forall_firstn_nonneg (a : list Q) : forall n,
  Forall (fun x => 0 <= x) a -> Forall (fun x => 0 <= x) (firstn n a).
Proof.
  induction a as [|x a IH]; intros n H.
  - rewrite firstn_nil. constructor.
  - inversion H; subst. destruct n; cbn [firstn]; constructor; auto.
Qed.

Lemma np_sum_map_le (f g : nat -> Q) (l : list nat) :
  (forall x, In x l -> f x <= g x) ->
  np_sum (map f l) <= np_sum (map g l).
Proof.
  induction l as [|x l IH]; intros H; [apply Qle_refl|].
  cbn [map]. rewrite !np_sum_cons.
  assert (f x <= g x) by (apply H; now left).
  assert (np_sum (map f l) <= np_sum (map g l))
    by (apply IH; intros y Hy; apply H; now right).
  lra.
Qed.

Lemma np_sum_as_nth (a : list Q) :
  np_sum a = np_sum (map (fun d => nth d a 0) (seq 0 (length a))).
Proof. rewrite <- firstn_as_nth by lia. now rewrite firstn_all. Qed.

Lemma div_nonneg (x d : Q) : 0 <= x -> 0 < d -> 0 <= x / d.
Proof.
  intros Hx Hd. apply Qle_shift_div_l; [exact Hd|]. lra.
Qed.

Lemma effective_symptoms_nonneg (p : Infection) :
  0 < symptom_divisor p -> Forall (fun x => 0 <= x) (symptoms p) ->
  Forall (fun x => 0 <= x) (effective_symptoms p).
Proof.
  intros Hd H. unfold effective_symptoms. apply Forall_forall.
  intros y Hy. apply in_map_iff in Hy as (x & <- & Hx).
  apply div_nonneg; [|exact Hd]. revert x Hx. now apply Forall_forall.
Qed.

Lemma np_sum_div (d : Q) (a : list Q) :
  np_sum (map (fun x => x / d) a) == np_sum a / d.
Proof.
  induction a as [|x a IH]; cbn [map].
  - cbn [np_sum fold_right]. unfold Qdiv. ring.
  - rewrite !np_sum_cons, IH. unfold Qdiv. ring.
Qed.

(** With percentages in range the symptomatic share is at most 1. *)
Lemma effective_symptoms_total (p : Infection) :
  0 < symptom_divisor p ->
  np_sum (symptoms p) <= 100 -> 0 <= to_Q (asymptomatic_inf p) ->
  np_sum (effective_symptoms p) <= 1.
Proof.
  intros Hd Hs Ha. unfold effective_symptoms. rewrite np_sum_div.
  apply Qle_shift_div_r; [exact Hd|]. unfold symptom_divisor in *.
  assert (0 <= (100 - np_sum (symptoms p)) * (to_Q (asymptomatic_inf p) / 100)).
  { apply Qmult_le_0_compat; [lra|]. apply div_nonneg; [exact Ha|reflexivity]. }
  lra.
Qed.

Lemma cumulativeShare_bounds (p : Infection) (k : nat) :
  0 < symptom_divisor p -> Forall (fun x => 0 <= x) (symptoms p) ->
  np_sum (symptoms p) <= 100 -> 0 <= to_Q (asymptomatic_inf p) ->
  (k < length (symptoms p))%nat ->
  0 <= Spec.cumulativeShare p k <= 1.
Proof.
  intros Hd Hs Hsum Ha Hk. unfold Spec.cumulativeShare.
  rewrite <- effective_symptoms_prefix by lia.
  pose proof (effective_symptoms_nonneg p Hd Hs) as Hn.
  split.
  - apply np_sum_nonneg. now apply Forall_firstn_nonneg.
  - eapply Qle_trans; [apply np_sum_firstn_le; exact Hn|].
    now apply effective_symptoms_total.
Qed.

Lemma total_share_bounds (p : Infection) :
  0 < symptom_divisor p -> Forall (fun x => 0 <= x) (symptoms p) ->
  np_sum (symptoms p) <= 100 -> 0 <= to_Q (asymptomatic_inf p) ->
  0 <= np_sum (map (Spec.effectiveSymptomShare p) (seq 0 (length (symptoms p))))
    <= 1.
Proof.
  intros Hd Hs Hsum Ha.
  rewrite <- effective_symptoms_prefix by lia.
  rewrite <- effective_symptoms_length, firstn_all.
  split; [apply np_sum_nonneg; now apply effective_symptoms_nonneg|].
  now apply effective_symptoms_total.
Qed.

(** One day: a smaller non-negative multiplier pair gives a smaller
    product. *)
Lemma product_mono (x t1 t2 c1 c2 : Q) :
  0 <= x -> 0 <= t2 -> t2 <= t1 -> 0 <= c2 -> c2 <= c1 ->
  x * t2 * c2 <= x * t1 * c1.
Proof.
  intros Hx Ht2 Ht Hc2 Hc.
  assert (H1 : x * t2 <= x * t1).
  { rewrite !(Qmult_comm x). apply Qmult_le_compat_r; assumption. }
  assert (H2 : 0 <= x * t2) by (apply Qmult_le_0_compat; assumption).
  assert (H3 : 0 <= x * t1) by lra.
  eapply Qle_trans.
  - apply Qmult_le_compat_r; [exact H1|exact Hc2].
  - rewrite !(Qmult_comm (x * t1)). apply Qmult_le_compat_r; assumption.
Qed.

(** A multiplier [1 - a * (e / 100) * c] with [0 <= a * c <= 1]: it falls
    as [e] grows and stays non-negative up to [e = 100]. *)
Lemma multiplier_mono (k e1 e2 : Q) :
  0 <= k -> k <= 1 -> e1 <= e2 -> e2 <= 100 ->
  0 <= 1 - k * (e2 / 100) /\ 1 - k * (e2 / 100) <= 1 - k * (e1 / 100).
Proof.
  intros Hk0 Hk1 He He2.
  assert (H1 : k * (e1 / 100) <= k * (e2 / 100)).
  { rewrite !(Qmult_comm k). apply Qmult_le_compat_r; [|exact Hk0].
    unfold Qdiv. apply Qmult_le_compat_r; [exact He|discriminate]. }
  assert (H2 : k * (e2 / 100) <= k * 1).
  { rewrite !(Qmult_comm k). apply Qmult_le_compat_r; [|exact Hk0].
    apply Qle_shift_div_r; [reflexivity|]. lra. }
  split; lra.
Qed.

Lemma unit_product (x y : Q) :
  0 <= x -> x <= 1 -> 0 <= y -> y <= 1 -> 0 <= x * y /\ x * y <= 1.
Proof.
  intros Hx0 Hx1 Hy0 Hy1. split; [now apply Qmult_le_0_compat|].
  assert (x * y <= 1 * y) by (apply Qmult_le_compat_r; assumption). lra.
Qed.

Lemma percent_unit (x : Q) : 0 <= x -> x <= 100 -> 0 <= x / 100 /\ x / 100 <= 1.
Proof.
  intros H0 H1. split; [apply div_nonneg; [exact H0|reflexivity]|].
  apply Qle_shift_div_r; [reflexivity|]. lra.
Qed.

Lemma testingMultiplier_mono (p1 p2 : Infection) (k : nat) :
  symptoms p1 = symptoms p2 ->
  asymptomatic_inf p1 = asymptomatic_inf p2 ->
  testing_rate p1 = testing_rate p2 ->
  0 < symptom_divisor p2 -> Forall (fun x => 0 <= x) (symptoms p2) ->
  np_sum (symptoms p2) <= 100 -> 0 <= to_Q (asymptomatic_inf p2) ->
  0 <= to_Q (testing_rate p2) -> to_Q (testing_rate p2) <= 100 ->
  (k < length (symptoms p2))%nat ->
  to_Q (isolation_effectivity p1) <= to_Q (isolation_effectivity p2) ->
  to_Q (isolation_effectivity p2) <= 100 ->
  0 <= Spec.testingMultiplier p2 k /\
  Spec.testingMultiplier p2 k <= Spec.testingMultiplier p1 k.
Proof.
  intros Hsy Has Htr Hd Hn Hsum Ha Ht0 Ht1 Hk He He2.
  destruct (cumulativeShare_bounds p2 k Hd Hn Hsum Ha Hk) as [Hc0 Hc1].
  assert (Hc : Spec.cumulativeShare p1 k = Spec.cumulativeShare p2 k).
  { unfold Spec.cumulativeShare, Spec.effectiveSymptomShare.
    now rewrite Hsy, Has. }
  unfold Spec.testingMultiplier. rewrite Hc, Htr.
  set (c := Spec.cumulativeShare p2 k) in *.
  destruct (percent_unit _ Ht0 Ht1) as [Ha0 Ha1].
  destruct (unit_product _ c Ha0 Ha1 Hc0 Hc1) as [Hk0 Hk1].
  destruct (multiplier_mono _ _ _ Hk0 Hk1 He He2) as [M0 M1].
  assert (E : forall x, 1 - to_Q (testing_rate p2) / 100 * x * c
                        == 1 - to_Q (testing_rate p2) / 100 * c * x)
    by (intros; ring).
  rewrite !E. split; assumption.
Qed.

Lemma testingSequence_mono (p1 p2 : Infection) (n d : nat) :
  symptoms p1 = symptoms p2 ->
  asymptomatic_inf p1 = asymptomatic_inf p2 ->
  testing_rate p1 = testing_rate p2 ->
  0 < symptom_divisor p2 -> Forall (fun x => 0 <= x) (symptoms p2) ->
  np_sum (symptoms p2) <= 100 -> 0 <= to_Q (asymptomatic_inf p2) ->
  0 <= to_Q (testing_rate p2) -> to_Q (testing_rate p2) <= 100 ->
  symptoms p2 <> [] ->
  to_Q (isolation_effectivity p1) <= to_Q (isolation_effectivity p2) ->
  to_Q (isolation_effectivity p2) <= 100 ->
  0 <= Spec.testingSequence p2 n d /\
  Spec.testingSequence p2 n d <= Spec.testingSequence p1 n d.
Proof.
  intros Hsy Has Htr Hd Hn Hsum Ha Ht0 Ht1 Hne He He2.
  unfold Spec.testingSequence. rewrite Hsy.
  destruct (d <? n)%nat; [split; [discriminate|apply Qle_refl]|].
  assert (Hlen : (0 < length (symptoms p2))%nat)
    by (destruct (symptoms p2); [contradiction|simpl; lia]).
  destruct (d - n <? length (symptoms p2))%nat eqn:E.
  - apply Nat.ltb_lt in E. now apply testingMultiplier_mono.
  - apply testingMultiplier_mono; auto. lia.
Qed.

Lemma tracingSequence_mono (p1 p2 : Infection) (n d : nat) :
  symptoms p1 = symptoms p2 ->
  asymptomatic_inf p1 = asymptomatic_inf p2 ->
  testing_rate p1 = testing_rate p2 ->
  tracing_rate p1 = tracing_rate p2 ->
  0 < symptom_divisor p2 -> Forall (fun x => 0 <= x) (symptoms p2) ->
  np_sum (symptoms p2) <= 100 -> 0 <= to_Q (asymptomatic_inf p2) ->
  0 <= to_Q (testing_rate p2) -> to_Q (testing_rate p2) <= 100 ->
  0 <= to_Q (tracing_rate p2) -> to_Q (tracing_rate p2) <= 100 ->
  to_Q (isolation_effectivity p1) <= to_Q (isolation_effectivity p2) ->
  to_Q (isolation_effectivity p2) <= 100 ->
  0 <= Spec.tracingSequence p2 n d /\
  Spec.tracingSequence p2 n d <= Spec.tracingSequence p1 n d.
Proof.
  intros Hsy Has Htr Hcr Hd Hn Hsum Ha Ht0 Ht1 Hc0 Hc1 He He2.
  unfold Spec.tracingSequence.
  destruct (d <? n)%nat; [split; [discriminate|apply Qle_refl]|].
  destruct (total_share_bounds p2 Hd Hn Hsum Ha) as [Hs0 Hs1].
  unfold Spec.tracingSuppression, Spec.effectiveSymptomShare in *.
  rewrite Hsy, Has, Htr, Hcr.
  destruct (percent_unit _ Ht0 Ht1) as [Ha0 Ha1].
  destruct (percent_unit _ Hc0 Hc1) as [Hb0 Hb1].
  destruct (unit_product _ _ Hs0 Hs1 Ha0 Ha1) as [Hk0 Hk1].
  destruct (unit_product _ _ Hk0 Hk1 Hb0 Hb1) as [Hm0 Hm1].
  exact (multiplier_mono _ _ _ Hm0 Hm1 He He2).
Qed.

Lemma nth_nonneg (a : list Q) (d : nat) :
  Forall (fun x => 0 <= x) a -> 0 <= nth d a 0.
Proof.
  intros H. revert d. induction H as [|x a Hx _ IH]; intros [|d]; cbn [nth];
    auto; apply Qle_refl.
Qed.

Lemma setattr_isolation_effectivity (p : Infection) (e : number) :
  setattr p "isolation_effectivity" e
  = mkInfection (r0 p) (infection_rates p) (symptoms p) (days p)
      (testing_rate p) (testing_delay p) e (tracing_rate p) (tracing_delay p)
      (asymptomatic_inf p).
Proof. destruct p. reflexivity. Qed.

(** C7 (amended): on a well-formed parameter set with the percentages in range
    (non-negative infection and symptom profiles, symptoms summing to at
    most 100, a positive divisor, [0 < testing_rate <= 100],
    [0 <= tracing_rate <= 100], [asymptomatic_inf >= 0]) the sum of the
    effective vector, which is the [R] of the estimator, does not grow
    when [isolation_effectivity] goes from [e1] to [e2 >= e1], up to 100. *)
Theorem isolation_effectivity_monotone (p : Infection) (e1 e2 : number) :
  well_formed p ->
  0 < symptom_divisor p ->
  Forall (fun x => 0 <= x) (infection_rates p) ->
  Forall (fun x => 0 <= x) (symptoms p) ->
  np_sum (symptoms p) <= 100 ->
  0 <= to_Q (asymptomatic_inf p) ->
  0 < to_Q (testing_rate p) -> to_Q (testing_rate p) <= 100 ->
  0 <= to_Q (tracing_rate p) -> to_Q (tracing_rate p) <= 100 ->
  to_Q e1 <= to_Q e2 -> to_Q e2 <= 100 ->
  exists v1 v2,
    suppress (setattr p "isolation_effectivity" e1) = Ok v1 /\
    suppress (setattr p "isolation_effectivity" e2) = Ok v2 /\
    np_sum v2 <= np_sum v1 /\
    forall eig_abs R1 g1 R2 g2,
      get_r_and_growth eig_abs (setattr p "isolation_effectivity" e1)
      = Ok (R1, g1) ->
      get_r_and_growth eig_abs (setattr p "isolation_effectivity" e2)
      = Ok (R2, g2) ->
      R2 <= R1.
Proof.
  intros (td & cd & Htd & Hcd & Hpos & Hpos2 & Hdays & Hsym & Hdiv)
         Hd Hir Hsy Hsum Ha Ht0 Ht1 Hc0 Hc1 He He2.
  rewrite !setattr_isolation_effectivity.
  set (p1 := mkInfection _ _ _ _ _ _ e1 _ _ _).
  set (p2 := mkInfection _ _ _ _ _ _ e2 _ _ _).
  destruct (suppress_by_day p1 td cd Htd Hcd Hpos Hpos2 Hdays Hsym Hdiv)
    as (v1 & E1 & L1 & N1).
  destruct (suppress_by_day p2 td cd Htd Hcd Hpos Hpos2 Hdays Hsym Hdiv)
    as (v2 & E2 & L2 & N2).
  assert (Hle : np_sum v2 <= np_sum v1).
  { rewrite (np_sum_as_nth v1), (np_sum_as_nth v2), L1, L2.
    change (days p2) with (days p1).
    apply np_sum_map_le. intros d Hin. apply in_seq in Hin.
    rewrite N1, N2 by (cbn [days p1 p2] in *; lia).
    unfold Spec.effectiveInfectiousness.
    change (infection_rates p2) with (infection_rates p1).
    assert (Ht0' : 0 <= to_Q (testing_rate p)) by lra.
    destruct (testingSequence_mono p1 p2 (Z.to_nat td) d)
      as [T0 T1]; auto.
    destruct (tracingSequence_mono p1 p2 (Z.to_nat (td + cd)) d)
      as [C0 C1]; auto.
    apply product_mono; auto. now apply nth_nonneg. }
  exists v1, v2. split; [exact E1|]. split; [exact E2|]. split; [exact Hle|].
  intros eig_abs R1 g1 R2 g2 H1 H2.
  apply get_r_is_sum in H1 as (w1 & W1 & ->).
  apply get_r_is_sum in H2 as (w2 & W2 & ->).
  rewrite E1 in W1. rewrite E2 in W2.
  injection W1 as <-. injection W2 as <-. exact Hle.
Qed.

Lemma isolation_effectivity_monotone_witness :
  exists v1 v2,
    suppress (setattr default_infection "isolation_effectivity" (Int 10)) = Ok v1 /\
    suppress (setattr default_infection "isolation_effectivity" (Int 95)) = Ok v2 /\
    np_sum v2 <= np_sum v1.
Proof.
  destruct (isolation_effectivity_monotone default_infection (Int 10) (Int 95)
              well_formed_default)
    as (v1 & v2 & E1 & E2 & L & _); try by_running.
  - repeat constructor; by_running.
  - repeat constructor; by_running.
  - exists v1, v2. repeat split; assumption.
Defined.

(** ** The generator [frange] *)

Lemma to_Q_num_add (a b : number) : to_Q (num_add a b) == to_Q a + to_Q b.
Proof.
  destruct a, b; cbn [num_add to_Q]; try reflexivity.
  rewrite inject_Z_plus. reflexivity.
Qed.

Lemma frange_fuel_more (y jump : number) : forall fuel fuel' x l,
  (fuel <= fuel')%nat ->
  frange_fuel fuel x y jump = Some l -> frange_fuel fuel' x y jump = Some l.
Proof.
  induction fuel as [|fuel IH]; intros fuel' x l Hle H; [discriminate|].
  destruct fuel' as [|fuel']; [lia|]. cbn [frange_fuel] in *.
  destruct (Qle_bool _ _); [|exact H].
  destruct (frange_fuel fuel (num_add x jump) y jump) as [l'|] eqn:E;
    [|discriminate].
  rewrite (IH fuel' _ l') by (lia || exact E). exact H.
Qed.

Lemma floor_unique (q : Q) (n : Z) :
  inject_Z n <= q -> q < inject_Z (n + 1) -> Qfloor q = n.
Proof.
  intros Hlo Hhi.
  pose proof (Qfloor_le q) as F1. pose proof (Qlt_floor q) as F2.
  assert (A : (Qfloor q < n + 1)%Z).
  { rewrite Zlt_Qlt. eapply Qle_lt_trans; eassumption. }
  assert (B : (n < Qfloor q + 1)%Z).
  { rewrite Zlt_Qlt. eapply Qle_lt_trans; eassumption. }
  lia.
Qed.

Lemma floor_pred (q : Q) : Qfloor (q - 1) = (Qfloor q - 1)%Z.
Proof.
  apply floor_unique.
  - pose proof (Qfloor_le q).
    assert (E : inject_Z (Qfloor q - 1) == inject_Z (Qfloor q) - 1)
      by (unfold Zminus; rewrite inject_Z_plus; reflexivity).
    rewrite E. lra.
  - pose proof (Qlt_floor q). replace (Qfloor q - 1 + 1)%Z with (Qfloor q) by lia.
    rewrite inject_Z_plus in H. change (inject_Z 1) with 1 in H. lra.
Qed.

(** With a positive step the loop of [frange] ends, and [frange_steps]
    iterations are enough. *)
Lemma frange_fuel_enough (y jump : number) :
  0 < to_Q jump ->
  forall fuel x,
    (Z.to_nat (Qfloor ((to_Q y + (1 # 100000) * to_Q jump - to_Q x) / to_Q jump)
               + 1) < fuel)%nat ->
    exists l, frange_fuel fuel x y jump = Some l.
Proof.
  intros Hj. induction fuel as [|fuel IH]; intros x Hf; [lia|].
  cbn [frange_fuel].
  destruct (Qle_bool _ _) eqn:E; [|now exists []].
  apply Qle_bool_iff in E.
  set (B := to_Q y + (1 # 100000) * to_Q jump) in *.
  assert (H0 : 0 <= (B - to_Q x) / to_Q jump)
    by (apply div_nonneg; [lra|exact Hj]).
  assert (F0 : (0 <= Qfloor ((B - to_Q x) / to_Q jump))%Z).
  { change 0%Z with (Qfloor 0). now apply Qfloor_resp_le. }
  destruct (IH (num_add x jump)) as [l Hl].
  - assert (Eq : (B - to_Q (num_add x jump)) / to_Q jump
                 == (B - to_Q x) / to_Q jump - 1).
    { rewrite to_Q_num_add. field. lra. }
    rewrite Eq, floor_pred. lia.
  - rewrite Hl. now exists (x :: l).
Qed.

Lemma frange_terminates (x y jump : number) :
  0 < to_Q jump -> exists l, frange x y jump = Some l.
Proof.
  intros Hj. unfold frange, frange_steps.
  apply frange_fuel_enough; [exact Hj|lia].
Qed.

Lemma frange_fuel_steps (y jump : number) : forall fuel x l,
  frange_fuel fuel x y jump = Some l -> l = steps x jump (length l).
Proof.
  induction fuel as [|fuel IH]; intros x l H; [discriminate|].
  cbn [frange_fuel] in H. destruct (Qle_bool _ _).
  - destruct (frange_fuel fuel (num_add x jump) y jump) as [l'|] eqn:E;
      [|discriminate].
    injection H as <-. cbn [length steps]. f_equal. now apply IH.
  - injection H as <-. reflexivity.
Qed.

Lemma steps_nth (jump d : number) : forall n x k,
  (k < n)%nat ->
  to_Q (nth k (steps x jump n) d)
  == to_Q x + inject_Z (Z.of_nat k) * to_Q jump.
Proof.
  induction n as [|n IH]; intros x k Hk; [lia|].
  destruct k as [|k]; cbn [steps nth].
  - change (inject_Z (Z.of_nat 0)) with 0. ring.
  - rewrite IH by lia. rewrite to_Q_num_add, Nat2Z.inj_succ.
    unfold Z.succ. rewrite inject_Z_plus. change (inject_Z 1) with 1. ring.
Qed.

(** What [frange] yields: every value within the tolerance of [y], and
    the next one beyond it. *)
Lemma frange_fuel_range (y jump : number) : forall fuel x l,
  frange_fuel fuel x y jump = Some l ->
  (forall k, (k < length l)%nat ->
     to_Q x + inject_Z (Z.of_nat k) * to_Q jump
     <= to_Q y + (1 # 100000) * to_Q jump) /\
  ~ to_Q x + inject_Z (Z.of_nat (length l)) * to_Q jump
    <= to_Q y + (1 # 100000) * to_Q jump.
Proof.
  induction fuel as [|fuel IH]; intros x l H; [discriminate|].
  cbn [frange_fuel] in H. destruct (Qle_bool _ _) eqn:E.
  - destruct (frange_fuel fuel (num_add x jump) y jump) as [l'|] eqn:E';
      [|discriminate].
    injection H as <-. apply Qle_bool_iff in E.
    destruct (IH _ _ E') as [Hin Hout].
    assert (Eq : forall k, to_Q x + inject_Z (Z.of_nat (S k)) * to_Q jump
                 == to_Q (num_add x jump) + inject_Z (Z.of_nat k) * to_Q jump).
    { intros k. rewrite to_Q_num_add, Nat2Z.inj_succ. unfold Z.succ.
      rewrite inject_Z_plus. change (inject_Z 1) with 1. ring. }
    split.
    + intros [|k] Hk.
      * change (inject_Z (Z.of_nat 0)) with 0. lra.
      * rewrite Eq. apply Hin. cbn [length] in Hk. lia.
    + cbn [length]. rewrite Eq. exact Hout.
  - injection H as <-. split; [cbn [length]; intros; lia|].
    cbn [length]. change (inject_Z (Z.of_nat 0)) with 0.
    intros Hle. assert (Qle_bool (to_Q x) (to_Q y + (1 # 100000) * to_Q jump) = true);
      [apply Qle_bool_iff; lra|congruence].
Qed.

(** ** The registry and the sweep *)

Lemma lookup_In (id : string) (var : Variable_) : forall d,
  lookup id d = Ok var -> In (id, var) d.
Proof.
  induction d as [|[k v] d IH]; intros H; [discriminate|].
  cbn [lookup] in H. destruct (String.eqb id k) eqn:E.
  - apply String.eqb_eq in E. subst. injection H as ->. now left.
  - right. now apply IH.
Qed.

Lemma lookup_field (id : string) (var : Variable_) (s : Infection) : forall d,
  lookup id d = Ok var ->
  field id (map (fun kv => (fst kv, getter (snd kv) s)) d) = Some (getter var s).
Proof.
  induction d as [|[k v] d IH]; intros H; [discriminate|].
  cbn [lookup] in H. cbn [map field fst snd].
  destruct (String.eqb id k); [now injection H as ->|now apply IH].
Qed.

Ltac registry_cases H :=
  cbn [variables In] in H;
  repeat (destruct H as [H|H]; [injection H as <- <-|]);
  [..|contradiction H].

(** Every range of the registry is swept by a finite, non-empty run of
    [frange]; the run of ["r0"] has 41 values, all positive. *)
Lemma registry_frange (id : string) (var : Variable_) :
  In (id, var) variables ->
  exists xs,
    frange (vmin var) (vmax var) (vstep var) = Some xs /\
    xs <> [] /\
    (0 < to_Q (vstep var)) /\
    (id = "r0"%string ->
     length xs = 41%nat /\ Forall (fun x => 0 < to_Q x) xs).
Proof.
  intros H. registry_cases H; eexists;
    (split; [vm_compute; reflexivity|]);
    (split; [discriminate|]); (split; [vm_compute; reflexivity|]);
    intros E; try discriminate E.
  split; [reflexivity|].
  repeat (constructor; [vm_compute; reflexivity|]). constructor.
Qed.

Lemma setattr_getter (id : string) (var : Variable_) (s : Infection)
    (x : number) :
  In (id, var) variables -> getter var (setattr s id x) = x.
Proof. intros H. destruct s. registry_cases H; reflexivity. Qed.

Lemma setattr_frame (id : string) (s : Infection) (x : number) :
  id <> "r0"%string -> frame id s (setattr s id x).
Proof.
  intros Hid. destruct s as [a_r0 ir sy d tr td ie cr cd ai].
  assert (Hsame : symptoms (setattr (mkInfection a_r0 ir sy d tr td ie cr cd ai) id x) = sy /\
          infection_rates (setattr (mkInfection a_r0 ir sy d tr td ie cr cd ai) id x) = ir /\
          days (setattr (mkInfection a_r0 ir sy d tr td ie cr cd ai) id x) = d).
  { unfold setattr.
    repeat match goal with
           | |- context [String.eqb id ?k] =>
               destruct (String.eqb id k); [repeat split|]
           end.
    repeat split. }
  destruct Hsame as (Hs & Hi & Hd).
  unfold frame. rewrite Hs, Hi, Hd. cbn [symptoms infection_rates days].
  repeat split; try congruence.
  intros id' var' Hin Hne. unfold setattr.
  repeat match goal with
         | |- context [String.eqb id ?k] =>
             let E := fresh "E" in
             destruct (String.eqb id k) eqn:E;
             [ apply String.eqb_eq in E; subst id;
               registry_cases Hin; try reflexivity; contradiction
             |]
         end.
  reflexivity.
Qed.

Lemma frame_trans (id : string) (a b c : Infection) :
  frame id a b -> frame id b c -> frame id a c.
Proof.
  intros (G1 & S1 & L1 & N1 & R1) (G2 & S2 & L2 & N2 & R2).
  unfold frame. split; [|split; [|split; [|split]]].
  - intros id' var' Hin Hne.
    rewrite (G2 id' var' Hin Hne). exact (G1 id' var' Hin Hne).
  - congruence.
  - congruence.
  - intros H. destruct (N1 H), (N2 H). split; congruence.
  - intros E. rewrite (R2 E). exact L1.
Qed.

(** [set_rates(x)] as the sweep over ["r0"] calls it. *)
Lemma set_rates_sweep (x : number) (s s' : Infection) :
  0 < to_Q x ->
  set_rates (Some x) None None s = Ok s' ->
  r0 s' = x /\ frame "r0" s s' /\
  ((1 <= days s')%nat -> np_sum (infection_rates s') == to_Q x).
Proof.
  intros Hx H. unfold set_rates in H. rewrite (truthy_pos x Hx) in H.
  cbv zeta in H. cbn [list_or] in H.
  destruct (infection_rates s) as [|v ir] eqn:Eir.
  - injection H as <-. cbn [r0 infection_rates days symptoms].
    split; [reflexivity|]. split; [|lia].
    unfold frame. cbn [symptoms infection_rates days]. rewrite Eir.
    repeat split; try congruence.
    intros id' var' Hin Hne. destruct s.
    registry_cases Hin; try reflexivity. contradiction.
  - destruct (Qeq_bool (np_sum (v :: ir)) 0) eqn:E; [discriminate|].
    injection H as <-. cbn [r0 infection_rates days symptoms].
    split; [reflexivity|]. split.
    + unfold frame. cbn [symptoms infection_rates days]. rewrite Eir.
      repeat split; try congruence.
      * intros id' var' Hin Hne. destruct s.
        registry_cases Hin; try reflexivity. contradiction.
      * cbn [length]. now rewrite length_map.
    + intros _.
      change (np_sum (map (fun y => to_Q x * y / np_sum (v :: ir)) (v :: ir))
              == to_Q x).
      apply np_sum_normalized; [reflexivity|].
      now apply Qeq_bool_false.
Qed.

Lemma set_rates_sweep_ok (x : number) (s : Infection) :
  0 < to_Q x -> well_formed s ->
  infection_rates s <> [] -> ~ np_sum (infection_rates s) == 0 ->
  exists s',
    set_rates (Some x) None None s = Ok s' /\
    well_formed s' /\ infection_rates s' <> [] /\
    ~ np_sum (infection_rates s') == 0.
Proof.
  intros Hx (td & cd & Htd & Hcd & Hpos & Hpos2 & Hdays & Hsym & Hdiv) Hne Hsum.
  unfold set_rates. rewrite (truthy_pos x Hx). cbv zeta. cbn [list_or].
  destruct (infection_rates s) as [|v ir] eqn:Eir; [contradiction|].
  apply Qeq_bool_false in Hsum. rewrite Hsum. apply Qeq_bool_false in Hsum.
  eexists. split; [reflexivity|]. split; [|split].
  - exists td, cd. cbn [testing_delay tracing_delay days infection_rates symptoms].
    repeat split; auto. now rewrite length_map.
  - cbn [infection_rates]. discriminate.
  - cbn [infection_rates].
    rewrite np_sum_normalized; [|reflexivity|exact Hsum].
    intros E. rewrite E in Hx. discriminate.
Qed.

Lemma In_lookup (id : string) (var : Variable_) :
  In (id, var) variables -> lookup id variables = Ok var.
Proof. intros H. registry_cases H; reflexivity. Qed.

Lemma get_r_and_growth_days (eig_abs : matrix -> list Q) (p : Infection)
    (R g : Q) :
  get_r_and_growth eig_abs p = Ok (R, g) -> (1 <= days p)%nat.
Proof.
  unfold get_r_and_growth, compute_growth, companion, reshape_row.
  destruct (suppress p) as [e| | |]; try discriminate. cbn [bind].
  destruct (days p) as [|n] eqn:E; [|lia].
  destruct e as [|v e]; cbn [length Nat.eqb bind]; discriminate.
Qed.

Lemma sweep_step_inv (id : string) (var : Variable_) (x : number)
    (s s' : Infection) :
  In (id, var) variables ->
  (id = "r0"%string -> 0 < to_Q x) ->
  sweep_step id x s = Ok s' ->
  frame id s s' /\ getter var s' = x /\
  (id = "r0"%string -> (1 <= days s')%nat ->
   np_sum (infection_rates s') == to_Q x).
Proof.
  intros Hin. registry_cases Hin; intros Hx Hs.
  1: { change (set_rates (Some x) None None s = Ok s') in Hs.
       destruct (set_rates_sweep x s s' (Hx eq_refl) Hs) as (R & F & S).
       split; [exact F|]. split; [exact R|]. intros _. exact S. }
  all: injection Hs as <-;
    (split; [apply setattr_frame; discriminate|]);
    (split; [destruct s; reflexivity|]);
    intros E; discriminate E.
Qed.

(** The loop of [iterate]: one record per value, holding that value in
    the swept field, and the parameter set left at the last value. *)
Lemma iterate_loop_inv (eig_abs : matrix -> list Q) (id : string)
    (var : Variable_) :
  In (id, var) variables ->
  forall xs,
    (id = "r0"%string -> Forall (fun x => 0 < to_Q x) xs) ->
    forall self data recs p',
      iterate_loop eig_abs id xs self data = Ok (recs, p') ->
      exists recs',
        recs = data ++ recs' /\
        length recs' = length xs /\
        (forall k, (k < length xs)%nat ->
           field id (params (nth k recs' no_row)) = Some (nth k xs (Int 0))) /\
        (xs = [] -> p' = self) /\
        (xs <> [] ->
           frame id self p' /\ getter var p' = last xs (Int 0) /\
           (id = "r0"%string ->
            np_sum (infection_rates p') == to_Q (last xs (Int 0)))).
Proof.
  intros Hin. induction xs as [|x xs IH]; intros Hpos self data recs p' H.
  - cbn [iterate_loop] in H. injection H as <- <-. exists [].
    rewrite app_nil_r. repeat split; try reflexivity.
    + cbn [length]. intros; lia.
    + contradiction.
    + contradiction.
    + contradiction.
  - cbn [iterate_loop] in H. fold (sweep_step id x self) in H.
    destruct (sweep_step id x self) as [s1| | |] eqn:Es; try discriminate.
    cbn [bind] in H.
    destruct (get_r_and_growth eig_abs s1) as [[R g]| | |] eqn:Eg;
      try discriminate.
    cbn [bind fst snd] in H.
    assert (Hx : id = "r0"%string -> 0 < to_Q x).
    { intros E. specialize (Hpos E). now inversion Hpos. }
    assert (Hxs : id = "r0"%string -> Forall (fun x => 0 < to_Q x) xs).
    { intros E. specialize (Hpos E). now inversion Hpos. }
    destruct (sweep_step_inv id var x self s1 Hin Hx Es) as (F1 & G1 & S1).
    destruct (IH Hxs _ _ _ _ H) as (recs' & -> & L & Fld & Hnil & Hcons).
    eexists. split; [rewrite <- app_assoc; reflexivity|].
    split; [cbn [app length]; now rewrite L|]. split; [|split].
    + intros [|k] Hk; cbn [app nth params].
      * rewrite (lookup_field id var s1 variables (In_lookup id var Hin)).
        now rewrite G1.
      * apply Fld. cbn [length] in Hk. lia.
    + discriminate.
    + intros _. destruct xs as [|x' xs].
      * rewrite (Hnil eq_refl). cbn [last]. split; [exact F1|].
        split; [exact G1|]. intros E. apply (S1 E).
        eapply get_r_and_growth_days. exact Eg.
      * destruct Hcons as (F2 & G2 & S2); [discriminate|].
        split; [eapply frame_trans; eassumption|].
        split; [exact G2|exact S2].
Qed.

Lemma iterate_loop_r0_ok (eig_abs : matrix -> list Q) :
  (forall A, A <> [] -> eig_abs A <> []) ->
  forall xs, Forall (fun x => 0 < to_Q x) xs ->
  forall self data,
    well_formed self -> infection_rates self <> [] ->
    ~ np_sum (infection_rates self) == 0 ->
    exists recs p', iterate_loop eig_abs "r0" xs self data = Ok (recs, p').
Proof.
  intros Heig. induction xs as [|x xs IH]; intros Hpos self data Hwf Hne Hsum.
  - now exists data, self.
  - inversion Hpos as [|? ? Hx Hxs]; subst.
    destruct (set_rates_sweep_ok x self Hx Hwf Hne Hsum)
      as (s1 & E1 & Hwf1 & Hne1 & Hsum1).
    destruct (suppress_well_formed s1 Hwf1) as (e & Es & Le).
    assert (Hd : (1 <= days s1)%nat).
    { destruct Hwf1 as (? & ? & _ & _ & _ & _ & D & _). rewrite D.
      destruct (infection_rates s1); [contradiction|simpl; lia]. }
    destruct (get_r_and_growth_ok eig_abs s1 e Heig Es Le Hd) as (g & Eg & _).
    cbn [iterate_loop]. change (String.eqb "r0" "r0") with true.
    cbv iota. rewrite E1. cbn [bind]. rewrite Eg. cbn [bind].
    now apply IH.
Qed.

Lemma frange_values (x y jump : number) (xs : list number) :
  frange x y jump = Some xs ->
  (forall k, (k < length xs)%nat ->
     to_Q (nth k xs (Int 0)) == to_Q x + inject_Z (Z.of_nat k) * to_Q jump /\
     to_Q (nth k xs (Int 0)) <= to_Q y + (1 # 100000) * to_Q jump) /\
  ~ to_Q x + inject_Z (Z.of_nat (length xs)) * to_Q jump
    <= to_Q y + (1 # 100000) * to_Q jump.
Proof.
  unfold frange. intros H.
  destruct (frange_fuel_range _ _ _ _ _ H) as [Hin Hout].
  split; [|exact Hout]. intros k Hk.
  assert (E : to_Q (nth k xs (Int 0))
              == to_Q x + inject_Z (Z.of_nat k) * to_Q jump).
  { rewrite (frange_fuel_steps _ _ _ _ _ H). now apply steps_nth. }
  split; [exact E|]. rewrite E. now apply Hin.
Qed.

(** What a sweep that returns has done. *)
Lemma iterate_inv (eig_abs : matrix -> list Q) (id : string) (q : Infection)
    (recs : list row) (p' : Infection) :
  iterate eig_abs id q = Ok (recs, p') ->
  exists var xs,
    In (id, var) variables /\
    lookup id variables = Ok var /\
    frange (vmin var) (vmax var) (vstep var) = Some xs /\
    xs <> [] /\
    length recs = length xs /\
    (forall k, (k < length xs)%nat ->
       field id (params (nth k recs no_row)) = Some (nth k xs (Int 0))) /\
    frame id q p' /\
    getter var p' = last xs (Int 0) /\
    (id = "r0"%string -> np_sum (infection_rates p') == to_Q (last xs (Int 0))).
Proof.
  unfold iterate. intros H.
  destruct (lookup id variables) as [var| | |] eqn:El; try discriminate.
  cbn [bind] in H. pose proof (lookup_In id var variables El) as Hin.
  destruct (registry_frange id var Hin) as (xs & Ef & Hne & _ & Hr0).
  rewrite Ef in H.
  assert (Hpos : id = "r0"%string -> Forall (fun x => 0 < to_Q x) xs)
    by (intros E; now destruct (Hr0 E)).
  destruct (iterate_loop_inv eig_abs id var Hin xs Hpos q [] recs p' H)
    as (recs' & -> & L & Fld & _ & Hcons).
  destruct (Hcons Hne) as (F & G & S).
  exists var, xs. cbn [app].
  split; [exact Hin|]. split; [reflexivity|]. split; [exact Ef|].
  split; [exact Hne|]. split; [exact L|]. split; [exact Fld|].
  split; [exact F|]. split; [exact G|exact S].
Qed.

(** C5: on a well-formed parameter set with a non-empty infection profile
    whose sum is not zero (the solver returning at least one eigenvalue),
    the sweep over ["r0"] returns 41 records and record [k] holds
    [r0 = 1 + k/10]; and whenever a sweep over a variable [id] returns,
    there is one record per value of [frange(min, max, step)], record [k]
    holds the value [min + k * step] in field [id], every value is at most
    [max + 0.00001 * step], and the next one would be beyond it. *)
Theorem sweep_completeness (eig_abs : matrix -> list Q) (p : Infection) :
  (forall A, A <> [] -> eig_abs A <> []) ->
  well_formed p -> infection_rates p <> [] ->
  ~ np_sum (infection_rates p) == 0 ->
  (exists recs p',
     iterate eig_abs "r0" p = Ok (recs, p') /\
     length recs = 41%nat /\
     forall k, (k < 41)%nat ->
       exists v, field "r0" (params (nth k recs no_row)) = Some v /\
                 to_Q v == 1 + inject_Z (Z.of_nat k) * (1 # 10)) /\
  (forall id q recs p',
     iterate eig_abs id q = Ok (recs, p') ->
     exists var xs,
       lookup id variables = Ok var /\
       frange (vmin var) (vmax var) (vstep var) = Some xs /\
       length recs = length xs /\
       (forall k, (k < length xs)%nat ->
          field id (params (nth k recs no_row)) = Some (nth k xs (Int 0)) /\
          to_Q (nth k xs (Int 0))
          == to_Q (vmin var) + inject_Z (Z.of_nat k) * to_Q (vstep var) /\
          to_Q (nth k xs (Int 0))
          <= to_Q (vmax var) + (1 # 100000) * to_Q (vstep var)) /\
       ~ to_Q (vmin var) + inject_Z (Z.of_nat (length xs)) * to_Q (vstep var)
         <= to_Q (vmax var) + (1 # 100000) * to_Q (vstep var)).
Proof.
  intros Heig Hwf Hne Hsum.
  assert (General : forall id q recs p',
     iterate eig_abs id q = Ok (recs, p') ->
     exists var xs,
       lookup id variables = Ok var /\
       frange (vmin var) (vmax var) (vstep var) = Some xs /\
       length recs = length xs /\
       (forall k, (k < length xs)%nat ->
          field id (params (nth k recs no_row)) = Some (nth k xs (Int 0)) /\
          to_Q (nth k xs (Int 0))
          == to_Q (vmin var) + inject_Z (Z.of_nat k) * to_Q (vstep var) /\
          to_Q (nth k xs (Int 0))
          <= to_Q (vmax var) + (1 # 100000) * to_Q (vstep var)) /\
       ~ to_Q (vmin var) + inject_Z (Z.of_nat (length xs)) * to_Q (vstep var)
         <= to_Q (vmax var) + (1 # 100000) * to_Q (vstep var)).
  { intros id q recs p' H.
    destruct (iterate_inv eig_abs id q recs p' H)
      as (var & xs & _ & El & Ef & _ & L & Fld & _).
    destruct (frange_values _ _ _ _ Ef) as [Hin Hout].
    exists var, xs. split; [exact El|]. split; [exact Ef|].
    split; [exact L|]. split; [|exact Hout].
    intros k Hk. destruct (Hin k Hk). auto. }
  split; [|exact General].
  set (var0 := mkVariable (Float 1) (Float 5) (Float (1 # 10)) (Float 2) r0 0).
  assert (Hin0 : In ("r0"%string, var0) variables) by (now left).
  destruct (registry_frange "r0" var0 Hin0) as (xs & Ef & _ & _ & Hr0).
  destruct (Hr0 eq_refl) as [L41 Hpos].
  destruct (iterate_loop_r0_ok eig_abs Heig xs Hpos p [] Hwf Hne Hsum)
    as (recs & p' & Eloop).
  assert (E : iterate eig_abs "r0" p = Ok (recs, p')).
  { unfold iterate. change (lookup "r0" variables) with (Ok var0).
    cbn [bind]. rewrite Ef. exact Eloop. }
  exists recs, p'. split; [exact E|].
  destruct (General _ _ _ _ E) as (var & xs' & El & Ef' & L & Fld & _).
  change (lookup "r0" variables) with (Ok var0) in El. injection El as <-.
  rewrite Ef in Ef'. injection Ef' as <-.
  split; [congruence|]. intros k Hk.
  destruct (Fld k) as (F1 & F2 & _); [lia|].
  eexists. split; [exact F1|]. exact F2.
Qed.

Lemma sweep_completeness_witness :
  exists recs p',
    iterate diag_abs "r0" default_infection = Ok (recs, p') /\
    length recs = 41%nat /\
    exists v, field "r0" (params (nth 40 recs no_row)) = Some v /\ to_Q v == 5.
Proof.
  destruct (sweep_completeness diag_abs default_infection) as [A _].
  - intros A HA. unfold diag_abs. destruct A; [contradiction|discriminate].
  - exact well_formed_default.
  - by_running.
  - by_running.
  - destruct A as (recs & p' & E & L & F). exists recs, p'.
    split; [exact E|]. split; [exact L|].
    destruct (F 40%nat) as (v & Fv & Ev); [lia|].
    exists v. split; [exact Fv|]. rewrite Ev. reflexivity.
Defined.

(** C9: when a sweep over [id] returns (on a parameter set with
    [days = len(infection_rates)]), the parameter set is left mutated:
    the swept field holds the last value that [frange] yielded; every
    other registry variable, the symptom profile, [days] and the length
    of the infection profile are as before; the infection profile itself
    is as before unless [id] is ["r0"], in which case it sums to that
    last value. *)
Theorem sweep_mutates_in_place (eig_abs : matrix -> list Q) (id : string)
    (p : Infection) (recs : list row) (p' : Infection) :
  days p = length (infection_rates p) ->
  iterate eig_abs id p = Ok (recs, p') ->
  exists var xs,
    lookup id variables = Ok var /\
    frange (vmin var) (vmax var) (vstep var) = Some xs /\
    xs <> [] /\
    getter var p' = last xs (Int 0) /\
    (forall id' var', In (id', var') variables -> id' <> id ->
       getter var' p' = getter var' p) /\
    symptoms p' = symptoms p /\
    days p' = days p /\
    length (infection_rates p') = length (infection_rates p) /\
    (id <> "r0"%string -> infection_rates p' = infection_rates p) /\
    (id = "r0"%string ->
     np_sum (infection_rates p') == to_Q (last xs (Int 0))).
Proof.
  intros Hdays H.
  destruct (iterate_inv eig_abs id p recs p' H)
    as (var & xs & _ & El & Ef & Hne & _ & _ & F & G & S).
  destruct F as (Fg & Fs & Fl & Fn & Fr).
  exists var, xs. split; [exact El|]. split; [exact Ef|]. split; [exact Hne|].
  split; [exact G|]. split; [exact Fg|]. split; [exact Fs|]. split; [|split; [exact Fl|split]].
  - destruct (string_dec id "r0") as [E|E].
    + rewrite (Fr E). symmetry. exact Hdays.
    + now destruct (Fn E).
  - intros E. now destruct (Fn E).
  - exact S.
Qed.

Lemma sweep_mutates_in_place_witness :
  exists recs p',
    iterate diag_abs "testing_delay" default_infection = Ok (recs, p') /\
    testing_delay p' = Int 10 /\
    testing_delay default_infection = Int 3 /\
    r0 p' = r0 default_infection /\
    infection_rates p' = infection_rates default_infection.
Proof.
  destruct (iterate diag_abs "testing_delay" default_infection)
    as [[recs p']| | |] eqn:E; try (vm_compute in E; discriminate E).
  destruct (sweep_mutates_in_place diag_abs "testing_delay" default_infection
              recs p' eq_refl E)
    as (var & xs & El & Ef & _ & G & Fg & _ & _ & _ & Fi & _).
  exists recs, p'. split; [reflexivity|].
  change (lookup "testing_delay" variables)
    with (Ok (mkVariable (Int 0) (Int 10) (Int 1) (Int 3) testing_delay 1)) in El.
  injection El as <-.
  vm_compute in Ef. injection Ef as <-.
  split; [exact G|]. split; [reflexivity|].
  split; [apply (Fg "r0"%string (mkVariable (Float 1) (Float 5) (Float (1 # 10))
                                    (Float 2) r0 0)); [now left|discriminate]|].
  apply Fi. discriminate.
Defined.

(** In binary64 the sweep of ["r0"] also has 41 values: the additions
    drift (the last value is just below 5.0) but every value stays within
    [1e-9] of [1.0 + k * 0.1]. *)
Lemma frange_binary64_r0 :
  exists xs,
    Binary64.frange_fuel 100 1%float 5%float Binary64.tenth = Some xs /\
    length xs = 41%nat /\
    forallb (fun kx => Binary64.near_kth (fst kx) (snd kx))
            (combine (seq 0 41) xs) = true /\
    PrimFloat.ltb (last xs 0%float) 5%float = true.
Proof.
  eexists. split; [vm_compute; reflexivity|].
  split; [reflexivity|]. split; vm_compute; reflexivity.
Qed.

(** C7, as stated, fails outside the ranges: with [testing_rate = 100]
    and a symptom percentage of 200 the multipliers go negative, and [R]
    grows when the isolation effectivity goes from 90 to 100, all other
    fields fixed. *)
Remark isolation_effectivity_out_of_range :
  exists v1 v2,
    suppress (mkInfection (Float 2) [2] [200] 1 (Int 100) (Int 0) (Int 90)
                          (Int 100) (Int 0) (Int 20)) = Ok v1 /\
    suppress (mkInfection (Float 2) [2] [200] 1 (Int 100) (Int 0) (Int 100)
                          (Int 100) (Int 0) (Int 20)) = Ok v2 /\
    np_sum v1 < np_sum v2.
Proof.
  eexists. eexists. split; [vm_compute; reflexivity|].
  split; [vm_compute; reflexivity|]. vm_compute. reflexivity.
Qed.

(** * Further properties of [model.py] *)

(** ** [frange] *)

(** X1: with a positive step [frange] ends; every run of its loop with at
    least [frange_steps] iterations gives the same values, value [k] is
    [x + k * jump], all are at most [y + 0.00001 * jump], and the next
    one would be beyond that bound. *)
Theorem frange_positive_step (x y jump : number) :
  0 < to_Q jump ->
  exists xs,
    frange x y jump = Some xs /\
    (forall fuel, (frange_steps x y jump <= fuel)%nat ->
       frange_fuel fuel x y jump = Some xs) /\
    (forall k, (k < length xs)%nat ->
       to_Q (nth k xs (Int 0)) == to_Q x + inject_Z (Z.of_nat k) * to_Q jump /\
       to_Q (nth k xs (Int 0)) <= to_Q y + (1 # 100000) * to_Q jump) /\
    ~ to_Q x + inject_Z (Z.of_nat (length xs)) * to_Q jump
      <= to_Q y + (1 # 100000) * to_Q jump.
Proof.
  intros Hj. destruct (frange_terminates x y jump Hj) as [xs E].
  exists xs. split; [exact E|]. split.
  - intros fuel Hf. eapply frange_fuel_more; [exact Hf|exact E].
  - now apply frange_values.
Qed.

Lemma frange_positive_step_witness :
  exists xs,
    frange (Int 0) (Int 10) (Int 1) = Some xs /\
    frange_fuel 50 (Int 0) (Int 10) (Int 1) = Some xs /\
    to_Q (nth 10 xs (Int 0)) == 10.
Proof.
  destruct (frange_positive_step (Int 0) (Int 10) (Int 1)) as (xs & E & F & V & _);
    [reflexivity|].
  exists xs. split; [exact E|]. split; [apply F; vm_compute; lia|].
  assert (L : length xs = 11%nat).
  { vm_compute in E. injection E as <-. reflexivity. }
  destruct (V 10%nat) as [Hv _]; [lia|]. rewrite Hv. reflexivity.
Defined.

(** X2: the number of values: with a positive step and a start within
    the bound, [frange] yields [floor((y + 0.00001 * jump - x) / jump) + 1]
    values; with a start beyond the bound it yields none. *)
Theorem frange_count (x y jump : number) (xs : list number) :
  0 < to_Q jump ->
  frange x y jump = Some xs ->
  (to_Q x <= to_Q y + (1 # 100000) * to_Q jump ->
   Z.of_nat (length xs)
   = (Qfloor ((to_Q y + (1 # 100000) * to_Q jump - to_Q x) / to_Q jump) + 1)%Z) /\
  (~ to_Q x <= to_Q y + (1 # 100000) * to_Q jump -> xs = []).
Proof.
  intros Hj E. unfold frange in E.
  destruct (frange_fuel_range _ _ _ _ _ E) as [Hin Hout].
  set (B := to_Q y + (1 # 100000) * to_Q jump) in *.
  split.
  - intros Hx. destruct (length xs) as [|n] eqn:L.
    + exfalso. apply Hout. change (inject_Z (Z.of_nat 0)) with 0. lra.
    + assert (Hn := Hin n (Nat.lt_succ_diag_r n)).
      assert (F : Qfloor ((B - to_Q x) / to_Q jump) = Z.of_nat n).
      { apply floor_unique.
        - apply Qle_shift_div_l; [exact Hj|]. lra.
        - apply Qlt_shift_div_r; [exact Hj|].
          apply Qnot_le_lt in Hout.
          rewrite Nat2Z.inj_succ in Hout. unfold Z.succ in Hout. lra. }
      rewrite F. lia.
  - intros Hx. destruct xs as [|v xs]; [reflexivity|].
    exfalso. apply Hx. specialize (Hin 0%nat). cbn [length] in Hin.
    change (inject_Z (Z.of_nat 0)) with 0 in Hin.
    assert (to_Q x + 0 * to_Q jump <= B) by (apply Hin; lia). lra.
Qed.

Lemma frange_count_witness :
  exists xs,
    frange (Int 0) (Int 100) (Int 5) = Some xs /\ Z.of_nat (length xs) = 21%Z.
Proof.
  destruct (frange (Int 0) (Int 100) (Int 5)) as [xs|] eqn:E;
    [|vm_compute in E; discriminate E].
  exists xs. split; [reflexivity|].
  destruct (frange_count (Int 0) (Int 100) (Int 5) xs) as [C _];
    [reflexivity|exact E|].
  rewrite C; [reflexivity|]. vm_compute. discriminate.
Defined.

(** X3: with a step that is not positive and a start within the bound
    the loop of [frange] never ends: no number of iterations is enough. *)
Theorem frange_nonpositive_step_diverges (y jump : number) :
  to_Q jump <= 0 ->
  forall fuel x,
    to_Q x <= to_Q y + (1 # 100000) * to_Q jump ->
    frange_fuel fuel x y jump = None.
Proof.
  intros Hj. induction fuel as [|fuel IH]; intros x Hx; [reflexivity|].
  cbn [frange_fuel].
  destruct (Qle_bool _ _) eqn:E.
  - rewrite IH; [reflexivity|]. rewrite to_Q_num_add. lra.
  - apply Qle_bool_iff in Hx. congruence.
Qed.

Lemma frange_nonpositive_step_diverges_witness :
  frange_fuel 1000 (Int 0) (Int 10) (Int 0) = None /\
  frange (Float 1) (Float 5) (Float (- 1 # 10)) = None.
Proof.
  split.
  - apply (frange_nonpositive_step_diverges (Int 10) (Int 0)); vm_compute;
      discriminate.
  - apply (frange_nonpositive_step_diverges (Float 5) (Float (- 1 # 10)));
      vm_compute; discriminate.
Defined.

Lemma steps_int_nth (j : Z) : forall n a k,
  (k < n)%nat ->
  nth k (steps (Int a) (Int j) n) (Int 0) = Int (a + Z.of_nat k * j).
Proof.
  induction n as [|n IH]; intros a k Hk; [lia|].
  destruct k as [|k]; cbn [steps nth num_add].
  - f_equal. lia.
  - rewrite IH by lia. f_equal. lia.
Qed.

(** X4: from an int start with an int step [frange] yields ints only,
    value [k] being [x + k * jump] exactly; so a swept delay stays a
    number that [np.ones] accepts. *)
Theorem frange_ints (a j : Z) (y : number) (xs : list number) :
  frange (Int a) y (Int j) = Some xs ->
  forall k, (k < length xs)%nat ->
    nth k xs (Int 0) = Int (a + Z.of_nat k * j).
Proof.
  unfold frange. intros E k Hk.
  rewrite (frange_fuel_steps _ _ _ _ _ E). now apply steps_int_nth.
Qed.

Lemma frange_ints_witness :
  exists xs, frange (Int 0) (Float 10) (Int 1) = Some xs /\
             nth 7 xs (Int 0) = Int 7.
Proof.
  destruct (frange (Int 0) (Float 10) (Int 1)) as [xs|] eqn:E;
    [|vm_compute in E; discriminate E].
  exists xs. split; [reflexivity|].
  rewrite (frange_ints 0 1 (Float 10) xs E 7%nat); [reflexivity|].
  vm_compute in E. injection E as <-. vm_compute. lia.
Defined.

(** ** [set_rates] *)

Lemma np_sum_mul (c : Q) (a : list Q) :
  np_sum (map (Qmult c) a) == c * np_sum a.
Proof.
  induction a as [|x a IH]; cbn [map].
  - cbn [np_sum fold_right]. ring.
  - rewrite !np_sum_cons, IH. ring.
Qed.

Lemma Forall2_Qeq_map (f g : Q -> Q) (a : list Q) :
  (forall x, f x == g x) -> Forall2 Qeq (map f a) (map g a).
Proof.
  intros H. induction a as [|x a IH]; cbn [map]; constructor; auto.
Qed.

(** What a call of [set_rates] with a non-empty raw vector of non-zero
    sum stores, whatever the other arguments are. *)
Lemma set_rates_supplied (v : option number) (x : Q) (raw : list Q)
    (sym : option (list Q)) (self : Infection) :
  ~ np_sum (x :: raw) == 0 ->
  set_rates v (Some (x :: raw)) sym self
  = Ok (mkInfection
          (match v with
           | Some w => if truthy w then w else r0 self
           | None => r0 self
           end)
          (map (fun y =>
                  to_Q (match v with
                        | Some w => if truthy w then w else r0 self
                        | None => r0 self
                        end) * y / np_sum (x :: raw)) (x :: raw))
          (list_or sym (symptoms self)) (length (x :: raw))
          (testing_rate self) (testing_delay self)
          (isolation_effectivity self) (tracing_rate self)
          (tracing_delay self) (asymptomatic_inf self)).
Proof.
  intros Hs. unfold set_rates. cbv zeta. cbn [list_or].
  apply Qeq_bool_false in Hs. rewrite Hs. reflexivity.
Qed.

(** X5: only the shape of the raw vector matters: scaling every raw
    infection rate by the same non-zero factor stores the same profile
    (and the same of everything else). *)
Theorem set_rates_scale_invariant (v : option number) (c : Q) (raw : list Q)
    (sym : option (list Q)) (self : Infection) :
  ~ c == 0 -> raw <> [] -> ~ np_sum raw == 0 ->
  exists p p',
    set_rates v (Some raw) sym self = Ok p /\
    set_rates v (Some (map (Qmult c) raw)) sym self = Ok p' /\
    Forall2 Qeq (infection_rates p') (infection_rates p) /\
    r0 p' = r0 p /\ symptoms p' = symptoms p /\ days p' = days p.
Proof.
  intros Hc Hne Hs. destruct raw as [|x raw]; [contradiction|].
  assert (Hs' : ~ np_sum (c * x :: map (Qmult c) raw) == 0).
  { change (c * x :: map (Qmult c) raw) with (map (Qmult c) (x :: raw)).
    rewrite np_sum_mul. intros E.
    apply Qmult_integral in E. tauto. }
  eexists. eexists.
  split; [apply set_rates_supplied; exact Hs|].
  split; [cbn [map]; apply set_rates_supplied; exact Hs'|].
  cbn [infection_rates r0 symptoms days].
  split; [|split; [reflexivity|split; [reflexivity|]]].
  - change (c * x :: map (Qmult c) raw) with (map (Qmult c) (x :: raw)).
    rewrite map_map. apply Forall2_Qeq_map. intros y.
    rewrite np_sum_mul. field. split; assumption.
  - cbn [length]. now rewrite length_map.
Qed.

Lemma set_rates_scale_invariant_witness :
  exists p p',
    set_rates (Some (Float 2)) (Some [0; 1; 3]) None class_level = Ok p /\
    set_rates (Some (Float 2)) (Some [0; 10; 30]) None class_level = Ok p' /\
    Forall2 Qeq (infection_rates p') (infection_rates p).
Proof.
  destruct (set_rates_scale_invariant (Some (Float 2)) 10 [0; 1; 3] None
              class_level) as (p & p' & E & E' & F & _);
    try discriminate.
  exists p, p'. split; [exact E|]. split; [exact E'|exact F].
Defined.

(** What [set_rates] stores when the profiles are omitted and the stored
    profile is non-empty with a non-zero sum. *)
Lemma set_rates_retained (v : option number) (self : Infection) (x : Q)
    (raw : list Q) :
  infection_rates self = x :: raw ->
  ~ np_sum (x :: raw) == 0 ->
  set_rates v None None self
  = Ok (mkInfection
          (match v with
           | Some w => if truthy w then w else r0 self
           | None => r0 self
           end)
          (map (fun y =>
                  to_Q (match v with
                        | Some w => if truthy w then w else r0 self
                        | None => r0 self
                        end) * y / np_sum (x :: raw)) (x :: raw))
          (symptoms self) (length (x :: raw))
          (testing_rate self) (testing_delay self)
          (isolation_effectivity self) (tracing_rate self)
          (tracing_delay self) (asymptomatic_inf self)).
Proof.
  intros Eir Hs. unfold set_rates. cbv zeta. cbn [list_or]. rewrite Eir.
  apply Qeq_bool_false in Hs. rewrite Hs. reflexivity.
Qed.

Lemma set_rates_zero_sum (v : option number) (self : Infection) (x : Q)
    (raw : list Q) :
  infection_rates self = x :: raw ->
  np_sum (x :: raw) == 0 ->
  set_rates v None None self = NonFinite.
Proof.
  intros Eir Hs. unfold set_rates. cbv zeta. cbn [list_or]. rewrite Eir.
  apply Qeq_bool_iff in Hs. rewrite Hs. reflexivity.
Qed.

(** X6: renormalizing twice is renormalizing once: after [set_rates(a)],
    [set_rates(b)] (both without new profiles, [a] and [b] not zero)
    stores the profile that [set_rates(b)] alone would have stored; a
    sweep over r0 does not deform the profile. *)
Theorem set_rates_twice (a b : number) (self p1 : Infection) :
  ~ to_Q a == 0 -> ~ to_Q b == 0 ->
  infection_rates self <> [] ->
  set_rates (Some a) None None self = Ok p1 ->
  exists p2 p2',
    set_rates (Some b) None None p1 = Ok p2 /\
    set_rates (Some b) None None self = Ok p2' /\
    Forall2 Qeq (infection_rates p2) (infection_rates p2') /\
    r0 p2 = b /\ r0 p2' = b /\
    symptoms p2 = symptoms p2' /\ days p2 = days p2'.
Proof.
  intros Ha Hb Hne H1.
  assert (Ta : truthy a = true)
    by (unfold truthy; now apply negb_true_iff, Qeq_bool_false).
  assert (Tb : truthy b = true)
    by (unfold truthy; now apply negb_true_iff, Qeq_bool_false).
  destruct (infection_rates self) as [|x raw] eqn:Eir; [contradiction|].
  destruct (Qeq_dec (np_sum (x :: raw)) 0) as [Z|Es].
  { rewrite (set_rates_zero_sum _ _ _ _ Eir Z) in H1. discriminate. }
  rewrite (set_rates_retained _ _ _ _ Eir Es), Ta in H1.
  set (s := np_sum (x :: raw)) in *.
  set (f := fun y => to_Q a * y / s) in *.
  assert (S1 : np_sum (map f (x :: raw)) == to_Q a)
    by (apply np_sum_normalized; [reflexivity|exact Es]).
  assert (E1 : infection_rates p1 = f x :: map f raw)
    by (injection H1 as <-; reflexivity).
  assert (Hs1 : ~ np_sum (f x :: map f raw) == 0).
  { change (f x :: map f raw) with (map f (x :: raw)). now rewrite S1. }
  assert (Hsy : symptoms p1 = symptoms self)
    by (injection H1 as <-; reflexivity).
  rewrite (set_rates_retained _ _ _ _ E1 Hs1), Tb.
  rewrite (set_rates_retained _ _ _ _ Eir Es), Tb.
  eexists. eexists. split; [reflexivity|]. split; [reflexivity|].
  cbn [infection_rates r0 symptoms days].
  split; [|split; [reflexivity|split; [reflexivity|split; [exact Hsy|]]]].
  - change (f x :: map f raw) with (map f (x :: raw)).
    rewrite map_map. apply Forall2_Qeq_map. intros y.
    rewrite S1. unfold f. fold s. field. split; assumption.
  - cbn [length]. now rewrite length_map.
Qed.

Lemma set_rates_twice_witness :
  exists p1 p2 p2',
    set_rates (Some (Float 3)) None None default_infection = Ok p1 /\
    set_rates (Some (Float 5)) None None p1 = Ok p2 /\
    set_rates (Some (Float 5)) None None default_infection = Ok p2' /\
    Forall2 Qeq (infection_rates p2) (infection_rates p2').
Proof.
  destruct (set_rates (Some (Float 3)) None None default_infection)
    as [p1| | |] eqn:E1; try (vm_compute in E1; discriminate E1).
  destruct (set_rates_twice (Float 3) (Float 5) default_infection p1)
    as (p2 & p2' & E & E' & F & _); try by_running.
  - exact E1.
  - exists p1, p2, p2'. split; [reflexivity|].
    split; [exact E|]. split; [exact E'|exact F].
Defined.

(** X7: an [r0] of zero cannot be set: [r0 or self.r0] takes it for
    omitted, so the stored [r0] stays and the supplied profile is scaled
    to the old [r0]. *)
Theorem set_rates_zero_r0_ignored (v : number) (raw : list Q)
    (sym : option (list Q)) (self : Infection) :
  to_Q v == 0 -> raw <> [] -> ~ np_sum raw == 0 ->
  exists p,
    set_rates (Some v) (Some raw) sym self = Ok p /\
    set_rates None (Some raw) sym self = Ok p /\
    r0 p = r0 self /\
    np_sum (infection_rates p) == to_Q (r0 self).
Proof.
  intros Hv Hne Hs. destruct raw as [|x raw]; [contradiction|].
  assert (T : truthy v = false).
  { unfold truthy. apply negb_false_iff. now apply Qeq_bool_iff. }
  rewrite (set_rates_supplied (Some v) x raw sym self Hs).
  rewrite (set_rates_supplied None x raw sym self Hs). rewrite T.
  eexists. split; [reflexivity|]. split; [reflexivity|].
  cbn [r0 infection_rates]. split; [reflexivity|].
  apply np_sum_normalized; [reflexivity|exact Hs].
Qed.

Lemma set_rates_zero_r0_ignored_witness :
  exists p,
    set_rates (Some (Float 0)) (Some [1; 1]) None default_infection = Ok p /\
    r0 p = Float 2 /\ np_sum (infection_rates p) == 2.
Proof.
  destruct (set_rates_zero_r0_ignored (Float 0) [1; 1] None default_infection)
    as (p & E & _ & R & S); try reflexivity; try discriminate.
  exists p. split; [exact E|]. split; [exact R|exact S].
Defined.

(** ** [suppress]: errors and edges *)

(** X8: [suppress] rejects delays that [np.ones] does not take: a float
    testing delay is a [TypeError], a negative one a [ValueError]; with a
    good testing delay, a float tracing delay is a [TypeError] and a
    negative sum of the two delays a [ValueError]. *)
Theorem suppress_rejects_bad_delays (p : Infection) :
  (forall q, testing_delay p = Float q -> suppress p = Raise TypeError) /\
  (forall td, testing_delay p = Int td -> (td < 0)%Z ->
     suppress p = Raise ValueError) /\
  (forall td q, testing_delay p = Int td -> (0 <= td)%Z ->
     symptoms p <> [] -> tracing_delay p = Float q ->
     suppress p = Raise TypeError) /\
  (forall td cd, testing_delay p = Int td -> (0 <= td)%Z ->
     symptoms p <> [] -> tracing_delay p = Int cd -> (td + cd < 0)%Z ->
     suppress p = Raise ValueError).
Proof.
  split; [|split; [|split]].
  - intros q H. unfold suppress, overall_testing_suppression.
    rewrite H. reflexivity.
  - intros td H Hneg. unfold suppress, overall_testing_suppression.
    rewrite H. cbn [np_ones]. apply Z.ltb_lt in Hneg. rewrite Hneg. reflexivity.
  - intros td q H Hpos Hsym Hc. unfold suppress.
    rewrite (overall_testing_closed p td H Hpos Hsym). cbn [bind].
    unfold overall_tracing_suppression. rewrite H, Hc. reflexivity.
  - intros td cd H Hpos Hsym Hc Hneg. unfold suppress.
    rewrite (overall_testing_closed p td H Hpos Hsym). cbn [bind].
    unfold overall_tracing_suppression. rewrite H, Hc. cbn [num_add np_ones].
    apply Z.ltb_lt in Hneg. rewrite Hneg. reflexivity.
Qed.

Lemma suppress_rejects_bad_delays_witness :
  suppress (setattr default_infection "testing_delay" (Float 3)) = Raise TypeError /\
  suppress (setattr default_infection "testing_delay" (Int (-1))) = Raise ValueError /\
  suppress (setattr default_infection "tracing_delay" (Int (-4))) = Raise ValueError.
Proof.
  split; [|split].
  - apply (proj1 (suppress_rejects_bad_delays _) 3). reflexivity.
  - apply (proj1 (proj2 (suppress_rejects_bad_delays _)) (-1)%Z); reflexivity.
  - apply (proj2 (proj2 (proj2 (suppress_rejects_bad_delays _))) 3%Z (-4)%Z);
      try reflexivity; by_running.
Defined.

(** X9: an empty symptom profile: when [days] exceeds the testing delay
    the tail of the testing sequence reads [testing_suppression[-1]] of
    an empty array, an [IndexError]; when it does not, nothing is
    suppressed and the infection profile comes back as it is. *)
Theorem suppress_empty_symptoms (p : Infection) (td cd : Z) :
  symptoms p = [] ->
  testing_delay p = Int td -> tracing_delay p = Int cd ->
  (0 <= td)%Z -> (0 <= td + cd)%Z ->
  days p = length (infection_rates p) ->
  ((td < Z.of_nat (days p))%Z -> suppress p = Raise IndexError) /\
  ((Z.of_nat (days p) <= td)%Z ->
   exists e, suppress p = Ok e /\ Forall2 Qeq e (infection_rates p)).
Proof.
  intros Hsym Htd Hcd Hpos Hpos2 Hdays.
  assert (Hts : testing_suppression p = []).
  { unfold testing_suppression, effective_symptoms. now rewrite Hsym. }
  split.
  - intros Hlt. unfold suppress, overall_testing_suppression.
    rewrite Htd, Hsym, Hts. cbn [np_ones num_sub len length].
    destruct (td <? 0)%Z eqn:E; [apply Z.ltb_lt in E; lia|]. cbn [bind].
    rewrite num_pos_Int.
    destruct (0 <? _)%Z eqn:R; [reflexivity|]. apply Z.ltb_ge in R.
    cbn [Z.of_nat] in R. lia.
  - intros Hge.
    assert (HT : overall_testing_suppression p
                 = Ok (take (length (infection_rates p))
                            (repeat 1 (Z.to_nat td)))).
    { unfold overall_testing_suppression.
      rewrite Htd, Hsym, Hts. cbn [np_ones num_sub len length].
      destruct (td <? 0)%Z eqn:E; [apply Z.ltb_lt in E; lia|]. cbn [bind].
      rewrite num_pos_Int.
      destruct (0 <? _)%Z eqn:R.
      - apply Z.ltb_lt in R. cbn [Z.of_nat] in R. lia.
      - cbn [bind app]. now rewrite app_nil_r. }
    pose proof (overall_tracing_closed p td cd Htd Hcd Hpos2) as HC.
    unfold suppress. rewrite HT, HC. cbn [bind].
    assert (One : tracing_suppression p == 1).
    { unfold tracing_suppression, effective_symptoms. rewrite Hsym.
      cbn [map np_sum fold_right]. ring. }
    assert (LT : length (take (length (infection_rates p))
                           (repeat 1 (Z.to_nat td)))
                 = length (infection_rates p)).
    { apply take_length_full. rewrite repeat_length. lia. }
    assert (LC : length (take (length (infection_rates p))
                  (repeat 1 (Z.to_nat (td + cd))
                   ++ repeat (tracing_suppression p)
                        (Z.to_nat (Z.of_nat (days p) - (td + cd)))))
                 = length (infection_rates p)).
    { apply take_length_full. rewrite length_app, !repeat_length. lia. }
    rewrite np_mul_same_length by (now rewrite LT). cbn [bind].
    rewrite np_mul_same_length
      by (rewrite zip_mul_length; [now rewrite LC|now rewrite LT]).
    cbn [bind]. rewrite Hsym. eexists. split; [reflexivity|].
    apply zip_mul_ones.
    + apply zip_mul_ones; [apply Forall2_Qeq_refl|exact LT|].
      apply all_ones_take, all_ones_repeat. reflexivity.
    + rewrite zip_mul_length; [exact LC|now rewrite LT].
    + apply all_ones_take, all_ones_app; apply all_ones_repeat;
        [reflexivity|exact One].
Qed.

Lemma suppress_empty_symptoms_witness :
  suppress (mkInfection (Float 2) [1; 1] [] 2 (Int 50) (Int 1) (Int 90)
                        (Int 50) (Int 1) (Int 20)) = Raise IndexError /\
  exists e,
    suppress (mkInfection (Float 2) [1; 1] [] 2 (Int 50) (Int 2) (Int 90)
                          (Int 50) (Int 1) (Int 20)) = Ok e /\
    Forall2 Qeq e [1; 1].
Proof.
  split.
  - refine (proj1 (suppress_empty_symptoms _ 1 1 _ _ _ _ _ _) _);
      first [reflexivity | by_running].
  - refine (proj2 (suppress_empty_symptoms _ 2 1 _ _ _ _ _ _) _);
      first [reflexivity | by_running].
Defined.

Lemma testing_marks_closed (p : Infection) (td : Z) :
  testing_delay p = Int td -> (0 <= td)%Z -> symptoms p <> [] ->
  testing_marks p =
  Ok (take (length (infection_rates p))
        (repeat 1 (Z.to_nat td) ++ map (fun _ => 0) (testing_suppression p)
         ++ repeat 0
              (Z.to_nat (Z.of_nat (days p) - Z.of_nat (length (symptoms p)) - td)))).
Proof.
  intros Htd Hpos Hsym. unfold testing_marks.
  rewrite Htd. cbn [np_ones num_sub len].
  destruct (td <? 0)%Z eqn:E; [apply Z.ltb_lt in E; lia|]. cbn [bind].
  rewrite num_pos_Int.
  set (rest := (Z.of_nat (days p) - Z.of_nat (length (symptoms p)) - td)%Z).
  destruct (0 <? rest)%Z eqn:R.
  - apply Z.ltb_lt in R.
    pose proof (testing_suppression_length p) as Hlen.
    destruct (testing_suppression p) as [|x t] eqn:T.
    { destruct (symptoms p); [contradiction|discriminate]. }
    cbn [last_elt bind np_repeat_n].
    destruct (rest <? 0)%Z eqn:E2; [apply Z.ltb_lt in E2; lia|].
    reflexivity.
  - apply Z.ltb_ge in R. cbn [bind].
    replace (Z.to_nat rest) with 0%nat by lia. reflexivity.
Qed.

Lemma tracing_marks_closed (p : Infection) (td cd : Z) :
  testing_delay p = Int td -> tracing_delay p = Int cd -> (0 <= td + cd)%Z ->
  tracing_marks p =
  Ok (take (length (infection_rates p))
        (repeat 1 (Z.to_nat (td + cd))
         ++ repeat 0 (Z.to_nat (Z.of_nat (days p) - (td + cd))))).
Proof.
  intros Htd Hcd Hpos. unfold tracing_marks.
  rewrite Htd, Hcd. cbn [np_ones num_sub num_add].
  destruct (td + cd <? 0)%Z eqn:E; [apply Z.ltb_lt in E; lia|]. cbn [bind].
  rewrite num_pos_Int.
  set (rest := (Z.of_nat (days p) - (td + cd))%Z).
  destruct (0 <? rest)%Z eqn:R.
  - apply Z.ltb_lt in R. cbn [np_repeat_n].
    destruct (rest <? 0)%Z eqn:E2; [apply Z.ltb_lt in E2; lia|]. reflexivity.
  - apply Z.ltb_ge in R. cbn [bind].
    replace (Z.to_nat rest) with 0%nat by lia. reflexivity.
Qed.

Lemma take_of_prefix (n : nat) (a b : list Q) :
  (n <= length a)%nat -> take n (a ++ b) = take n a.
Proof.
  intros H. unfold take. rewrite firstn_app.
  replace (n - length a)%nat with 0%nat by lia.
  cbn [firstn]. apply app_nil_r.
Qed.

Lemma nth_map_const (c : Q) (l : list Q) : forall d,
  (d < length l)%nat -> nth d (map (fun _ => c) l) 0 = c.
Proof.
  induction l as [|x l IH]; intros d Hd; cbn [length] in Hd; [lia|].
  destruct d as [|d]; [reflexivity|]. cbn [map nth]. apply IH. lia.
Qed.

Lemma all_finite_ones (marks : list Q) : all_ones marks -> all_finite marks = true.
Proof.
  intros H. unfold all_finite. apply forallb_forall. intros m Hm.
  unfold all_ones in H. rewrite Forall_forall in H. specialize (H m Hm).
  destruct (Qeq_bool m 0) eqn:E; [|reflexivity].
  apply Qeq_bool_iff in E. rewrite E in H. discriminate H.
Qed.

Lemma all_finite_nth (marks : list Q) (d : nat) :
  (d < length marks)%nat -> nth d marks 0 == 0 -> all_finite marks = false.
Proof.
  intros Hd Hz. destruct (all_finite marks) eqn:E; [|reflexivity].
  unfold all_finite in E. rewrite forallb_forall in E.
  specialize (E (nth d marks 0) (nth_In marks 0 Hd)).
  apply Qeq_bool_iff in Hz. rewrite Hz in E. discriminate E.
Qed.

Lemma all_ones_Forall2 (a b : list Q) :
  Forall2 Qeq a b -> all_ones b -> all_ones a.
Proof.
  intros H. induction H as [|x y a b Hxy _ IH]; intros Hb; [constructor|].
  inversion Hb as [|? ? Hy Hb']; subst. constructor.
  - now rewrite Hxy.
  - now apply IH.
Qed.

(** X10: a zero divisor is not an error.  With symptoms present and
    [(100 - sum) * asymptomatic_inf / 100 + sum = 0] (for instance no
    symptomatic share at all and asymptomatic carriers that do not
    infect) numpy divides by zero under a warning, and [suppress] does
    not raise.  What it returns depends on the delays: when [days]
    exceeds the testing delay or the sum of the two delays, a [nan] or
    [inf] is in the result; when it exceeds neither, both sequences are
    cut out of their leading ones and the infection profile comes back
    as it is. *)
Theorem suppress_zero_divisor (p : Infection) (td cd : Z) :
  testing_delay p = Int td -> tracing_delay p = Int cd ->
  (0 <= td)%Z -> (0 <= td + cd)%Z ->
  days p = length (infection_rates p) ->
  symptoms p <> [] ->
  symptom_divisor p == 0 ->
  ((td < Z.of_nat (days p))%Z \/ (td + cd < Z.of_nat (days p))%Z ->
   suppress p = NonFinite) /\
  ((Z.of_nat (days p) <= td)%Z -> (Z.of_nat (days p) <= td + cd)%Z ->
   exists e, suppress p = Ok e /\ Forall2 Qeq e (infection_rates p)) /\
  ~ raises (suppress p).
Proof.
  intros Htd Hcd Hpos Hpos2 Hdays Hsym Hdiv.
  pose proof (overall_testing_closed p td Htd Hpos Hsym) as HT.
  pose proof (overall_tracing_closed p td cd Htd Hcd Hpos2) as HC.
  pose proof (testing_marks_closed p td Htd Hpos Hsym) as MT.
  pose proof (tracing_marks_closed p td cd Htd Hcd Hpos2) as MC.
  pose proof (testing_suppression_length p) as Lts.
  rewrite <- Hdays in HT, HC, MT, MC.
  set (T := take (days p) (_ ++ testing_suppression p ++ _)) in HT.
  set (C := take (days p) (_ ++ repeat (tracing_suppression p) _)) in HC.
  set (TM := take (days p) (_ ++ map _ _ ++ _)) in MT.
  set (CM := take (days p) (_ ++ repeat 0 _)) in MC.
  set (I := map (fun _ : Q => 1) (infection_rates p)).
  assert (LT : length T = days p).
  { apply take_length_full.
    rewrite !length_app, !repeat_length. lia. }
  assert (LC : length C = days p).
  { apply take_length_full. rewrite !length_app, !repeat_length. lia. }
  assert (LTM : length TM = days p).
  { apply take_length_full.
    rewrite !length_app, !repeat_length, length_map. lia. }
  assert (LCM : length CM = days p).
  { apply take_length_full. rewrite !length_app, !repeat_length. lia. }
  assert (LI : length I = days p) by (unfold I; now rewrite length_map).
  assert (LM1 : length (zip_mul I TM) = days p)
    by (rewrite zip_mul_length; congruence).
  assert (LM : length (zip_mul (zip_mul I TM) CM) = days p)
    by (rewrite zip_mul_length; congruence).
  assert (LE1 : length (zip_mul (infection_rates p) T) = days p)
    by (rewrite zip_mul_length; congruence).
  assert (Hmarks : finite_marks p = Ok (zip_mul (zip_mul I TM) CM)).
  { unfold finite_marks. rewrite MT, MC. cbn [bind]. fold I.
    rewrite np_mul_same_length by congruence. cbn [bind].
    apply np_mul_same_length. congruence. }
  assert (Hsup : suppress p
                 = if all_finite (zip_mul (zip_mul I TM) CM)
                   then Ok (zip_mul (zip_mul (infection_rates p) T) C)
                   else NonFinite).
  { unfold suppress. rewrite HT, HC. cbn [bind].
    rewrite np_mul_same_length by congruence. cbn [bind].
    rewrite np_mul_same_length by congruence.
    cbn [bind]. destruct (symptoms p); [contradiction|].
    apply Qeq_bool_iff in Hdiv. rewrite Hdiv, Hmarks. reflexivity. }
  assert (Hone : forall d, (d < days p)%nat -> nth d I 0 = 1).
  { intros d Hd. unfold I. apply nth_map_const. lia. }
  assert (Hlen : (0 < length (testing_suppression p))%nat).
  { rewrite Lts. destruct (symptoms p); [contradiction|cbn [length]; lia]. }
  split; [|split].
  - intros Hlt. rewrite Hsup.
    assert (Z : exists d, (d < days p)%nat /\
                  nth d (zip_mul (zip_mul I TM) CM) 0 == 0).
    { destruct Hlt as [Hlt|Hlt].
      - exists (Z.to_nat td). split; [lia|].
        rewrite zip_mul_nth by (congruence || lia).
        rewrite zip_mul_nth by (congruence || lia).
        assert (E : nth (Z.to_nat td) TM 0 = 0).
        { unfold TM, take. rewrite nth_firstn_lt by lia.
          rewrite app_nth2 by (rewrite repeat_length; lia).
          rewrite repeat_length, Nat.sub_diag.
          rewrite app_nth1 by (rewrite length_map; exact Hlen).
          apply nth_map_const. exact Hlen. }
        rewrite E. ring.
      - exists (Z.to_nat (td + cd)). split; [lia|].
        rewrite zip_mul_nth by (congruence || lia).
        assert (E : nth (Z.to_nat (td + cd)) CM 0 = 0).
        { unfold CM, take. rewrite nth_firstn_lt by lia.
          rewrite app_nth2 by (rewrite repeat_length; lia).
          rewrite repeat_length, Nat.sub_diag.
          apply nth_repeat_lt. lia. }
        rewrite E. ring. }
    destruct Z as (d & Hd & Hz).
    rewrite (all_finite_nth _ d); [reflexivity|lia|exact Hz].
  - intros Hge Hge2.
    assert (OT : all_ones T).
    { unfold T. rewrite take_of_prefix by (rewrite repeat_length; lia).
      apply all_ones_take, all_ones_repeat. reflexivity. }
    assert (OC : all_ones C).
    { unfold C. rewrite take_of_prefix by (rewrite repeat_length; lia).
      apply all_ones_take, all_ones_repeat. reflexivity. }
    assert (OTM : all_ones TM).
    { unfold TM. rewrite take_of_prefix by (rewrite repeat_length; lia).
      apply all_ones_take, all_ones_repeat. reflexivity. }
    assert (OCM : all_ones CM).
    { unfold CM. rewrite take_of_prefix by (rewrite repeat_length; lia).
      apply all_ones_take, all_ones_repeat. reflexivity. }
    assert (OI : all_ones I).
    { unfold I, all_ones. apply Forall_map, Forall_forall. reflexivity. }
    assert (FM : Forall2 Qeq (zip_mul (zip_mul I TM) CM) I).
    { apply zip_mul_ones; [|congruence|exact OCM].
      apply zip_mul_ones; [apply Forall2_Qeq_refl|congruence|exact OTM]. }
    rewrite Hsup, (all_finite_ones _ (all_ones_Forall2 _ _ FM OI)).
    eexists. split; [reflexivity|].
    apply zip_mul_ones; [|congruence|exact OC].
    apply zip_mul_ones; [apply Forall2_Qeq_refl|congruence|exact OT].
  - rewrite Hsup. intros [e H].
    destruct (all_finite _); discriminate H.
Qed.

Lemma suppress_zero_divisor_witness :
  suppress (mkInfection (Float 2) [1; 1] [0; 0] 2 (Int 50) (Int 0) (Int 90)
                        (Int 50) (Int 1) (Int 0)) = NonFinite /\
  exists e,
    suppress (mkInfection (Float 2) [1; 1] [0; 0] 2 (Int 50) (Int 2) (Int 90)
                          (Int 50) (Int 1) (Int 0)) = Ok e /\
    Forall2 Qeq e [1; 1].
Proof.
  split.
  - refine (proj1 (suppress_zero_divisor _ 0 1 _ _ _ _ _ _ _) _);
      first [reflexivity | by_running | left; by_running].
  - refine (proj1 (proj2 (suppress_zero_divisor _ 2 1 _ _ _ _ _ _ _)) _ _);
      first [reflexivity | by_running].
Defined.

(** ** [suppress]: bounds and monotonicity *)

Lemma np_sum_app (a b : list Q) : np_sum (a ++ b) == np_sum a + np_sum b.
Proof.
  induction a as [|x a IH]; cbn [app].
  - cbn [np_sum fold_right]. ring.
  - rewrite !np_sum_cons, IH. ring.
Qed.

Lemma share_nonneg (p : Infection) (d : nat) :
  0 < symptom_divisor p -> Forall (fun x => 0 <= x) (symptoms p) ->
  0 <= Spec.effectiveSymptomShare p d.
Proof.
  intros Hd Hs. unfold Spec.effectiveSymptomShare.
  apply div_nonneg; [now apply nth_nonneg|exact Hd].
Qed.

Lemma cumulativeShare_step (p : Infection) (k : nat) :
  Spec.cumulativeShare p (S k)
  == Spec.cumulativeShare p k + Spec.effectiveSymptomShare p (S k).
Proof.
  unfold Spec.cumulativeShare. rewrite (seq_S (S k) 0), map_app, np_sum_app.
  cbn [map Nat.add]. rewrite np_sum_cons. cbn [np_sum fold_right]. ring.
Qed.

Lemma cumulativeShare_mono (p : Infection) (k1 k2 : nat) :
  0 < symptom_divisor p -> Forall (fun x => 0 <= x) (symptoms p) ->
  (k1 <= k2)%nat ->
  Spec.cumulativeShare p k1 <= Spec.cumulativeShare p k2.
Proof.
  intros Hd Hs Hk. induction Hk as [|k2 Hk IH]; [apply Qle_refl|].
  rewrite cumulativeShare_step. pose proof (share_nonneg p (S k2) Hd Hs). lra.
Qed.

Lemma product_le (a1 a2 e1 e2 : Q) :
  0 <= a1 -> a1 <= a2 -> 0 <= e1 -> e1 <= e2 -> a1 * e1 <= a2 * e2.
Proof.
  intros Ha0 Ha He0 He.
  eapply Qle_trans.
  - apply Qmult_le_compat_r; [exact Ha|exact He0].
  - rewrite !(Qmult_comm a2). apply Qmult_le_compat_r; [exact He|lra].
Qed.

(** The multiplier [1 - a * e * c] for fractions [a], [e] and a share [c]
    in the unit interval. *)
Lemma unit_multiplier (a1 a2 e1 e2 c : Q) :
  0 <= a1 -> a1 <= a2 -> a2 <= 1 ->
  0 <= e1 -> e1 <= e2 -> e2 <= 1 ->
  0 <= c -> c <= 1 ->
  0 <= 1 - a2 * e2 * c /\ 1 - a2 * e2 * c <= 1 - a1 * e1 * c /\
  1 - a1 * e1 * c <= 1.
Proof.
  intros Ha0 Ha Ha1 He0 He He1 Hc0 Hc1.
  assert (P : a1 * e1 <= a2 * e2) by now apply product_le.
  assert (P0 : 0 <= a1 * e1) by now apply Qmult_le_0_compat.
  destruct (unit_product a2 e2) as [U0 U1]; try lra.
  destruct (unit_product (a2 * e2) c U0 U1 Hc0 Hc1) as [V0 V1].
  assert (W : a1 * e1 * c <= a2 * e2 * c)
    by (apply Qmult_le_compat_r; assumption).
  assert (W0 : 0 <= a1 * e1 * c) by now apply Qmult_le_0_compat.
  repeat split; lra.
Qed.

Lemma percent_le (x y : Q) : x <= y -> x / 100 <= y / 100.
Proof.
  intros H. unfold Qdiv. apply Qmult_le_compat_r; [exact H|discriminate].
Qed.

Lemma cumulativeShare_same (p1 p2 : Infection) (k : nat) :
  symptoms p1 = symptoms p2 -> asymptomatic_inf p1 = asymptomatic_inf p2 ->
  Spec.cumulativeShare p1 k = Spec.cumulativeShare p2 k.
Proof.
  intros Hs Ha. unfold Spec.cumulativeShare, Spec.effectiveSymptomShare.
  now rewrite Hs, Ha.
Qed.

(** Less intervention and an earlier day give the larger multiplier, and
    every multiplier lies between 0 and 1. *)
Lemma testingMultiplier_compare (p1 p2 : Infection) (k1 k2 : nat) :
  symptoms p1 = symptoms p2 -> asymptomatic_inf p1 = asymptomatic_inf p2 ->
  in_range p1 -> in_range p2 -> weaker_rates p1 p2 ->
  (k1 <= k2)%nat -> (k2 < length (symptoms p2))%nat ->
  0 <= Spec.testingMultiplier p2 k2 /\
  Spec.testingMultiplier p2 k2 <= Spec.testingMultiplier p1 k1 /\
  Spec.testingMultiplier p1 k1 <= 1.
Proof.
  intros Hs Ha R1 R2 (Wt & We & _) Hk Hk2.
  destruct R1 as (_ & _ & _ & _ & _ & [T10 T11] & [E10 E11] & _).
  destruct R2 as (_ & N2 & S2 & D2 & A2 & [T20 T21] & [E20 E21] & _).
  unfold Spec.testingMultiplier.
  rewrite (cumulativeShare_same p1 p2 k1 Hs Ha).
  destruct (cumulativeShare_bounds p2 k1 D2 N2 S2 A2) as [C10 C11]; [lia|].
  destruct (cumulativeShare_bounds p2 k2 D2 N2 S2 A2 Hk2) as [C20 C21].
  pose proof (cumulativeShare_mono p2 k1 k2 D2 N2 Hk) as Cm.
  destruct (percent_unit _ T10 T11) as [a10 a11].
  destruct (percent_unit _ T20 T21) as [a20 a21].
  destruct (percent_unit _ E10 E11) as [e10 e11].
  destruct (percent_unit _ E20 E21) as [e20 e21].
  pose proof (percent_le _ _ Wt) as Wa. pose proof (percent_le _ _ We) as Wb.
  set (a1 := to_Q (testing_rate p1) / 100) in *.
  set (a2 := to_Q (testing_rate p2) / 100) in *.
  set (e1 := to_Q (isolation_effectivity p1) / 100) in *.
  set (e2 := to_Q (isolation_effectivity p2) / 100) in *.
  set (c1 := Spec.cumulativeShare p2 k1) in *.
  set (c2 := Spec.cumulativeShare p2 k2) in *.
  assert (P : a1 * e1 <= a2 * e2) by now apply product_le.
  assert (P0 : 0 <= a1 * e1) by now apply Qmult_le_0_compat.
  assert (Q1 : a1 * e1 * c1 <= a2 * e2 * c2) by now apply product_le.
  assert (Q0 : 0 <= a1 * e1 * c1) by now apply Qmult_le_0_compat.
  destruct (unit_product a2 e2 a20 a21 e20 e21) as [U0 U1].
  destruct (unit_product (a2 * e2) c2 U0 U1 C20 C21) as [V0 V1].
  repeat split; lra.
Qed.

Lemma testingSequence_compare (p1 p2 : Infection) (n1 n2 d1 d2 : nat) :
  symptoms p1 = symptoms p2 -> asymptomatic_inf p1 = asymptomatic_inf p2 ->
  in_range p1 -> in_range p2 -> weaker_rates p1 p2 ->
  symptoms p2 <> [] ->
  (n2 <= n1)%nat -> (d1 <= d2)%nat ->
  0 <= Spec.testingSequence p2 n2 d2 /\
  Spec.testingSequence p2 n2 d2 <= Spec.testingSequence p1 n1 d1 /\
  Spec.testingSequence p1 n1 d1 <= 1.
Proof.
  intros Hs Ha R1 R2 W Hne Hn Hd.
  assert (Hlen : (0 < length (symptoms p2))%nat)
    by (destruct (symptoms p2); [contradiction|simpl; lia]).
  assert (W2 : weaker_rates p2 p2) by (repeat split; apply Qle_refl).
  assert (Self : forall k, (k < length (symptoms p2))%nat ->
            0 <= Spec.testingMultiplier p2 k /\
            Spec.testingMultiplier p2 k <= 1).
  { intros k Hk.
    destruct (testingMultiplier_compare p2 p2 k k eq_refl eq_refl R2 R2 W2
                (le_n k) Hk) as (X0 & _ & X1). now split. }
  unfold Spec.testingSequence. rewrite Hs.
  destruct (Nat.ltb_spec d1 n1) as [A1|A1];
    destruct (Nat.ltb_spec d2 n2) as [A2|A2].
  - split; [discriminate|]. split; apply Qle_refl.
  - destruct (Nat.ltb_spec (d2 - n2) (length (symptoms p2))) as [B2|B2].
    + destruct (Self _ B2) as [X0 X1].
      split; [exact X0|]. split; [exact X1|apply Qle_refl].
    + destruct (Self (length (symptoms p2) - 1)%nat) as [X0 X1]; [lia|].
      split; [exact X0|]. split; [exact X1|apply Qle_refl].
  - lia.
  - destruct (Nat.ltb_spec (d1 - n1) (length (symptoms p2))) as [B1|B1];
      destruct (Nat.ltb_spec (d2 - n2) (length (symptoms p2))) as [B2|B2];
      try lia; apply testingMultiplier_compare; auto; lia.
Qed.

Lemma tracingSuppression_compare (p1 p2 : Infection) :
  symptoms p1 = symptoms p2 -> asymptomatic_inf p1 = asymptomatic_inf p2 ->
  in_range p1 -> in_range p2 -> weaker_rates p1 p2 ->
  0 <= Spec.tracingSuppression p2 /\
  Spec.tracingSuppression p2 <= Spec.tracingSuppression p1 /\
  Spec.tracingSuppression p1 <= 1.
Proof.
  intros Hs Ha R1 R2 (Wt & We & Wc).
  destruct R1 as (_ & _ & _ & _ & _ & [T10 T11] & [E10 E11] & [C10 C11]).
  destruct R2 as (_ & N2 & S2 & D2 & A2 & [T20 T21] & [E20 E21] & [C20 C21]).
  destruct (total_share_bounds p2 D2 N2 S2 A2) as [S0 S1].
  assert (Hsum : np_sum (map (Spec.effectiveSymptomShare p1)
                             (seq 0 (length (symptoms p1))))
                 = np_sum (map (Spec.effectiveSymptomShare p2)
                               (seq 0 (length (symptoms p2)))))
    by (unfold Spec.effectiveSymptomShare; now rewrite Hs, Ha).
  unfold Spec.tracingSuppression. rewrite Hsum.
  destruct (percent_unit _ T10 T11) as [a10 a11].
  destruct (percent_unit _ T20 T21) as [a20 a21].
  destruct (percent_unit _ E10 E11) as [e10 e11].
  destruct (percent_unit _ E20 E21) as [e20 e21].
  destruct (percent_unit _ C10 C11) as [t10 t11].
  destruct (percent_unit _ C20 C21) as [t20 t21].
  pose proof (percent_le _ _ Wt) as Wa. pose proof (percent_le _ _ We) as Wb.
  pose proof (percent_le _ _ Wc) as Wd.
  set (a1 := to_Q (testing_rate p1) / 100) in *.
  set (a2 := to_Q (testing_rate p2) / 100) in *.
  set (e1 := to_Q (isolation_effectivity p1) / 100) in *.
  set (e2 := to_Q (isolation_effectivity p2) / 100) in *.
  set (t1 := to_Q (tracing_rate p1) / 100) in *.
  set (t2 := to_Q (tracing_rate p2) / 100) in *.
  set (s := np_sum (map (Spec.effectiveSymptomShare p2) _)) in *.
  assert (P1 : s * a1 <= s * a2) by (apply product_le; lra).
  assert (P10 : 0 <= s * a1) by now apply Qmult_le_0_compat.
  assert (P2 : s * a1 * t1 <= s * a2 * t2) by now apply product_le.
  assert (P20 : 0 <= s * a1 * t1) by now apply Qmult_le_0_compat.
  assert (P3 : s * a1 * t1 * e1 <= s * a2 * t2 * e2) by now apply product_le.
  assert (P30 : 0 <= s * a1 * t1 * e1) by now apply Qmult_le_0_compat.
  destruct (unit_product s a2 S0 S1 a20 a21) as [U0 U1].
  destruct (unit_product (s * a2) t2 U0 U1 t20 t21) as [V0 V1].
  destruct (unit_product (s * a2 * t2) e2 V0 V1 e20 e21) as [X0 X1].
  repeat split; lra.
Qed.

Lemma tracingSequence_compare (p1 p2 : Infection) (n1 n2 d1 d2 : nat) :
  symptoms p1 = symptoms p2 -> asymptomatic_inf p1 = asymptomatic_inf p2 ->
  in_range p1 -> in_range p2 -> weaker_rates p1 p2 ->
  (n2 <= n1)%nat -> (d1 <= d2)%nat ->
  0 <= Spec.tracingSequence p2 n2 d2 /\
  Spec.tracingSequence p2 n2 d2 <= Spec.tracingSequence p1 n1 d1 /\
  Spec.tracingSequence p1 n1 d1 <= 1.
Proof.
  intros Hs Ha R1 R2 W Hn Hd.
  destruct (tracingSuppression_compare p1 p2 Hs Ha R1 R2 W) as (X0 & X & X1).
  assert (W2 : weaker_rates p2 p2) by (repeat split; apply Qle_refl).
  destruct (tracingSuppression_compare p2 p2 eq_refl eq_refl R2 R2 W2)
    as (_ & _ & Y1).
  unfold Spec.tracingSequence.
  destruct (Nat.ltb_spec d1 n1) as [A1|A1];
    destruct (Nat.ltb_spec d2 n2) as [A2|A2]; try lia.
  - split; [discriminate|]. split; apply Qle_refl.
  - split; [exact X0|]. split; [exact Y1|apply Qle_refl].
  - split; [exact X0|]. split; [exact X|exact X1].
Qed.

Lemma np_sum_map_nonneg (f : nat -> Q) (l : list nat) :
  (forall x, In x l -> 0 <= f x) -> 0 <= np_sum (map f l).
Proof.
  induction l as [|x l IH]; intros H; [apply Qle_refl|].
  cbn [map]. rewrite np_sum_cons.
  assert (0 <= f x) by (apply H; now left).
  assert (0 <= np_sum (map f l)) by (apply IH; intros y Hy; apply H; now right).
  lra.
Qed.

Lemma in_range_divisor (p : Infection) : in_range p -> ~ symptom_divisor p == 0.
Proof.
  intros (_ & _ & _ & D & _) E. rewrite E in D. discriminate.
Qed.

(** Weaker rates and later delays leave at least as much of the
    infection profile, day by day, and never more than the profile. *)
Lemma suppress_compare (p1 p2 : Infection) (td1 cd1 td2 cd2 : Z) :
  same_epidemic p1 p2 ->
  testing_delay p1 = Int td1 -> tracing_delay p1 = Int cd1 ->
  testing_delay p2 = Int td2 -> tracing_delay p2 = Int cd2 ->
  (0 <= td2 <= td1)%Z -> (0 <= td2 + cd2 <= td1 + cd1)%Z ->
  days p1 = length (infection_rates p1) -> symptoms p1 <> [] ->
  in_range p1 -> in_range p2 -> weaker_rates p1 p2 ->
  exists e1 e2,
    suppress p1 = Ok e1 /\ suppress p2 = Ok e2 /\
    length e1 = days p1 /\ length e2 = days p1 /\
    (forall d, (d < days p1)%nat ->
       0 <= nth d e2 0 /\ nth d e2 0 <= nth d e1 0 /\
       nth d e1 0 <= nth d (infection_rates p1) 0) /\
    0 <= np_sum e2 /\ np_sum e2 <= np_sum e1 /\
    np_sum e1 <= np_sum (infection_rates p1).
Proof.
  intros (Sir & Ssy & Sd & Sa) Ht1 Hc1 Ht2 Hc2 Htd Hcd Hdays Hsym R1 R2 W.
  assert (Hdays2 : days p2 = length (infection_rates p2)) by congruence.
  assert (Hsym2 : symptoms p2 <> []) by congruence.
  destruct (suppress_by_day p1 td1 cd1 Ht1 Hc1) as (e1 & E1 & L1 & N1);
    try lia; auto using in_range_divisor.
  destruct (suppress_by_day p2 td2 cd2 Ht2 Hc2) as (e2 & E2 & L2 & N2);
    try lia; auto using in_range_divisor.
  rewrite <- Sd in L2, N2.
  assert (Point : forall d, (d < days p1)%nat ->
       0 <= nth d e2 0 /\ nth d e2 0 <= nth d e1 0 /\
       nth d e1 0 <= nth d (infection_rates p1) 0).
  { intros d Hd. rewrite (N1 d Hd), (N2 d Hd).
    unfold Spec.effectiveInfectiousness. rewrite <- Sir.
    destruct (testingSequence_compare p1 p2 (Z.to_nat td1) (Z.to_nat td2) d d)
      as (T0 & T & T1); auto; try lia.
    destruct (tracingSequence_compare p1 p2 (Z.to_nat (td1 + cd1))
                (Z.to_nat (td2 + cd2)) d d) as (C0 & C & C1); auto; try lia.
    assert (X0 : 0 <= nth d (infection_rates p1) 0).
    { apply nth_nonneg. now destruct R1. }
    split; [|split].
    - repeat apply Qmult_le_0_compat; assumption.
    - apply product_mono; assumption.
    - eapply Qle_trans.
      + apply (product_mono _ 1 _ 1); try assumption; lra.
      + apply Qle_lteq. right. ring. }
  exists e1, e2. split; [exact E1|]. split; [exact E2|].
  split; [exact L1|]. split; [exact L2|]. split; [exact Point|].
  rewrite (np_sum_as_nth e1), (np_sum_as_nth e2),
    (np_sum_as_nth (infection_rates p1)), L1, L2, <- Hdays.
  split; [|split].
  - apply np_sum_map_nonneg. intros d Hin. apply in_seq in Hin.
    apply Point. lia.
  - apply np_sum_map_le. intros d Hin. apply in_seq in Hin.
    apply Point. lia.
  - apply np_sum_map_le. intros d Hin. apply in_seq in Hin.
    apply Point. lia.
Qed.

Lemma weaker_rates_refl (p : Infection) : weaker_rates p p.
Proof. repeat split; apply Qle_refl. Qed.

Lemma same_epidemic_refl (p : Infection) : same_epidemic p p.
Proof. repeat split. Qed.

(** X11: inside the ranges suppression only takes away: every entry of
    what [suppress] returns is between 0 and the entry of the infection
    profile, so the effective [R] is between 0 and the sum of the
    profile. *)
Theorem suppress_bounds (p : Infection) :
  well_formed p -> in_range p ->
  exists e,
    suppress p = Ok e /\
    (forall d, (d < days p)%nat ->
       0 <= nth d e 0 /\ nth d e 0 <= nth d (infection_rates p) 0) /\
    0 <= np_sum e /\ np_sum e <= np_sum (infection_rates p).
Proof.
  intros (td & cd & Htd & Hcd & Hpos & Hpos2 & Hdays & Hsym & _) R.
  destruct (suppress_compare p p td cd td cd (same_epidemic_refl p)
              Htd Hcd Htd Hcd) as (e1 & e2 & E1 & E2 & _ & _ & P & S0 & _ & S1);
    auto using weaker_rates_refl; try lia.
  rewrite E1 in E2. injection E2 as <-.
  exists e1. split; [exact E1|]. split; [|split; assumption].
  intros d Hd. destruct (P d Hd) as (A & _ & B). now split.
Qed.

Lemma in_range_default : in_range default_infection.
Proof.
  unfold in_range. repeat split; try by_running; repeat constructor; by_running.
Qed.

Lemma suppress_bounds_witness :
  exists e, suppress default_infection = Ok e /\
            0 <= np_sum e /\ np_sum e <= 2.
Proof.
  destruct (suppress_bounds default_infection well_formed_default in_range_default)
    as (e & E & _ & S0 & S1).
  exists e. split; [exact E|]. split; [exact S0|].
  eapply Qle_trans; [exact S1|]. by_running.
Defined.

(** X12: inside the ranges the testing-suppression sequence that
    [suppress] builds never rises from one day to the next, and all its
    entries are between 0 and 1: the later in the infection, the larger
    the share of cases already isolated. *)
Theorem testing_sequence_nonincreasing (p : Infection) :
  well_formed p -> in_range p ->
  exists T,
    overall_testing_suppression p = Ok T /\
    length T = days p /\
    forall d1 d2, (d1 <= d2)%nat -> (d2 < days p)%nat ->
      0 <= nth d2 T 0 /\ nth d2 T 0 <= nth d1 T 0 /\ nth d1 T 0 <= 1.
Proof.
  intros (td & cd & Htd & Hcd & Hpos & Hpos2 & Hdays & Hsym & Hdiv) R.
  destruct (suppress_closed p td cd Htd Hcd Hpos Hpos2 Hdays Hsym Hdiv)
    as (T & C & HT & _ & ET & _ & LT & _).
  exists T. split; [exact HT|]. split; [exact LT|].
  intros d1 d2 Hle Hlt.
  assert (N : forall d, (d < days p)%nat ->
            nth d T 0 == Spec.testingSequence p (Z.to_nat td) d).
  { intros d Hd. rewrite ET. rewrite <- (Z2Nat.id td) at 2 by exact Hpos.
    now apply overall_testing_nth. }
  rewrite (N d1) by lia. rewrite (N d2) by lia.
  apply testingSequence_compare; auto using weaker_rates_refl.
Qed.

Lemma testing_sequence_nonincreasing_witness :
  exists T,
    overall_testing_suppression default_infection = Ok T /\
    nth 7 T 0 <= nth 2 T 0.
Proof.
  destruct (testing_sequence_nonincreasing default_infection
              well_formed_default in_range_default) as (T & E & _ & M).
  exists T. split; [exact E|].
  destruct (M 2%nat 7%nat) as (_ & H & _); [lia|by_running|exact H].
Defined.

(** X13: for the same epidemic and the same delays, inside the ranges,
    raising any of the testing rate, the isolation effectivity and the
    tracing rate never raises an entry of the effective vector, nor the
    effective [R]. *)
Theorem more_intervention_less_R (p1 p2 : Infection) :
  well_formed p1 -> in_range p1 -> in_range p2 ->
  same_epidemic p1 p2 ->
  testing_delay p2 = testing_delay p1 -> tracing_delay p2 = tracing_delay p1 ->
  weaker_rates p1 p2 ->
  exists e1 e2,
    suppress p1 = Ok e1 /\ suppress p2 = Ok e2 /\
    (forall d, (d < days p1)%nat -> nth d e2 0 <= nth d e1 0) /\
    np_sum e2 <= np_sum e1.
Proof.
  intros (td & cd & Htd & Hcd & Hpos & Hpos2 & Hdays & Hsym & _)
         R1 R2 Same Et Ec W.
  rewrite Htd in Et. rewrite Hcd in Ec.
  destruct (suppress_compare p1 p2 td cd td cd Same Htd Hcd Et Ec)
    as (e1 & e2 & E1 & E2 & _ & _ & P & _ & S & _); auto; try lia.
  exists e1, e2. split; [exact E1|]. split; [exact E2|]. split; [|exact S].
  intros d Hd. now destruct (P d Hd) as (_ & H & _).
Qed.

Lemma more_intervention_less_R_witness :
  exists e1 e2,
    suppress default_infection = Ok e1 /\
    suppress (setattr default_infection "tracing_rate" (Int 60)) = Ok e2 /\
    np_sum e2 <= np_sum e1.
Proof.
  destruct (more_intervention_less_R default_infection
              (setattr default_infection "tracing_rate" (Int 60))
              well_formed_default in_range_default)
    as (e1 & e2 & E1 & E2 & _ & S).
  - unfold in_range. repeat split; try by_running; repeat constructor; by_running.
  - repeat split.
  - reflexivity.
  - reflexivity.
  - repeat split; by_running.
  - exists e1, e2. split; [exact E1|]. split; [exact E2|exact S].
Defined.

(** X14: for the same epidemic and the same rates, inside the ranges,
    testing later or tracing later never lowers an entry of the effective
    vector, nor the effective [R]. *)
Theorem later_intervention_more_R (p1 p2 : Infection) (td1 cd1 td2 cd2 : Z) :
  in_range p1 -> in_range p2 ->
  same_epidemic p1 p2 ->
  testing_rate p1 = testing_rate p2 ->
  isolation_effectivity p1 = isolation_effectivity p2 ->
  tracing_rate p1 = tracing_rate p2 ->
  testing_delay p1 = Int td1 -> tracing_delay p1 = Int cd1 ->
  testing_delay p2 = Int td2 -> tracing_delay p2 = Int cd2 ->
  (0 <= td2 <= td1)%Z -> (0 <= td2 + cd2 <= td1 + cd1)%Z ->
  days p1 = length (infection_rates p1) -> symptoms p1 <> [] ->
  exists e1 e2,
    suppress p1 = Ok e1 /\ suppress p2 = Ok e2 /\
    (forall d, (d < days p1)%nat -> nth d e2 0 <= nth d e1 0) /\
    np_sum e2 <= np_sum e1.
Proof.
  intros R1 R2 Same Et Ei Ec Ht1 Hc1 Ht2 Hc2 Htd Hcd Hdays Hsym.
  assert (W : weaker_rates p1 p2).
  { unfold weaker_rates. rewrite Et, Ei, Ec. repeat split; apply Qle_refl. }
  destruct (suppress_compare p1 p2 td1 cd1 td2 cd2 Same Ht1 Hc1 Ht2 Hc2
              Htd Hcd Hdays Hsym R1 R2 W)
    as (e1 & e2 & E1 & E2 & _ & _ & P & _ & S & _).
  exists e1, e2. split; [exact E1|]. split; [exact E2|]. split; [|exact S].
  intros d Hd. now destruct (P d Hd) as (_ & H & _).
Qed.

Lemma later_intervention_more_R_witness :
  exists e1 e2,
    suppress (setattr default_infection "testing_delay" (Int 5)) = Ok e1 /\
    suppress default_infection = Ok e2 /\
    np_sum e2 <= np_sum e1.
Proof.
  destruct (later_intervention_more_R
              (setattr default_infection "testing_delay" (Int 5))
              default_infection 5 1 3 1)
    as (e1 & e2 & E1 & E2 & _ & S); try reflexivity; try lia.
  - unfold in_range. repeat split; try by_running; repeat constructor; by_running.
  - exact in_range_default.
  - repeat split.
  - by_running.
  - exists e1, e2. split; [exact E1|]. split; [exact E2|exact S].
Defined.

(** ** [compute_growth] *)

Lemma nth_map_seq {B : Type} (f : nat -> B) (n i : nat) (d : B) :
  (i < n)%nat -> nth i (map f (seq 0 n)) d = f i.
Proof.
  intros H. rewrite (nth_indep _ d (f 0%nat)) by (now rewrite length_map, length_seq).
  rewrite map_nth, seq_nth by exact H. reflexivity.
Qed.

Lemma nth_removelast {B : Type} (l : list B) (d : B) : forall i,
  (S i < length l)%nat -> nth i (removelast l) d = nth i l d.
Proof.
  induction l as [|x l IH]; intros i H; [simpl in H; lia|].
  destruct l as [|y l]; [simpl in H; lia|].
  change (removelast (x :: y :: l)) with (x :: removelast (y :: l)).
  destruct i as [|i]; [reflexivity|].
  cbn [nth]. apply IH. cbn [length] in *. lia.
Qed.

(** X15: for a vector of [days >= 1] entries the matrix of
    [compute_growth] is square of size [days]; its first row is the
    vector and row [i + 1] is the unit vector of column [i], so that the
    matrix moves every age class one day on and fills the first with the
    weighted sum. *)
Theorem companion_structure (p : Infection) (a : list Q) :
  length a = days p -> (1 <= days p)%nat ->
  exists A,
    companion p a = Ok A /\
    length A = days p /\
    is_square A = true /\
    nth 0 A [] = a /\
    forall i j, (S i < days p)%nat -> (j < days p)%nat ->
      nth j (nth (S i) A []) 0 = if (i =? j)%nat then 1 else 0.
Proof.
  intros Hlen Hpos.
  destruct (companion_square p a Hlen Hpos) as (A & E & EA & L & Sq).
  exists A. split; [exact E|]. split; [exact L|]. split; [exact Sq|].
  rewrite EA. split; [reflexivity|].
  intros i j Hi Hj. cbn [nth].
  rewrite nth_removelast
    by (unfold np_diag_ones; rewrite length_map, length_seq; exact Hi).
  unfold np_diag_ones. rewrite nth_map_seq by lia.
  now rewrite nth_map_seq.
Qed.

Lemma companion_structure_witness :
  exists A,
    companion default_infection [1; 2; 3; 4; 5; 6; 7; 8] = Ok A /\
    nth 0 A [] = [1; 2; 3; 4; 5; 6; 7; 8] /\
    nth 2 (nth 3 A []) 0 = 1 /\ nth 3 (nth 3 A []) 0 = 0.
Proof.
  destruct (companion_structure default_infection [1; 2; 3; 4; 5; 6; 7; 8])
    as (A & E & _ & _ & R0 & U); try by_running.
  exists A. split; [exact E|]. split; [exact R0|]. split.
  - rewrite (U 2%nat 2%nat); [reflexivity|by_running|by_running].
  - rewrite (U 2%nat 3%nat); [reflexivity|by_running|by_running].
Defined.

(** X16: [compute_growth] fails on a vector whose length is not [days]
    ([reshape], a [ValueError]) and on an empty profile ([eig] of a 1x0
    matrix, a [LinAlgError]); on a vector of [days >= 1] entries its only
    failure is a solver that returns no eigenvalue. *)
Theorem compute_growth_failures (eig_abs : matrix -> list Q) (p : Infection)
    (a : list Q) :
  (length a <> days p -> compute_growth eig_abs p a = Raise ValueError) /\
  (length a = days p -> days p = 0%nat ->
   compute_growth eig_abs p a = Raise LinAlgError) /\
  (length a = days p -> (1 <= days p)%nat ->
   exists A, companion p a = Ok A /\
             compute_growth eig_abs p a = np_max (eig_abs A)).
Proof.
  split; [|split].
  - intros H. unfold compute_growth, companion, reshape_row.
    apply Nat.eqb_neq in H. rewrite H. reflexivity.
  - intros H H0. unfold compute_growth, companion, reshape_row.
    rewrite H, Nat.eqb_refl, H0. cbn [bind np_diag_ones seq map removelast app].
    rewrite H0 in H. destruct a; [reflexivity|discriminate].
  - intros H H1. destruct (companion_square p a H H1) as (A & E & _ & _ & Sq).
    exists A. split; [exact E|]. unfold compute_growth. rewrite E.
    cbn [bind]. now rewrite Sq.
Qed.

Lemma compute_growth_failures_witness :
  compute_growth diag_abs default_infection [1; 2] = Raise ValueError /\
  compute_growth diag_abs (mkInfection (Float 2) [] [10] 0 (Int 50) (Int 3)
                             (Int 90) (Int 0) (Int 1) (Int 20)) []
  = Raise LinAlgError.
Proof.
  split.
  - apply (proj1 (compute_growth_failures diag_abs default_infection [1; 2])).
    by_running.
  - apply (proj1 (proj2 (compute_growth_failures diag_abs _ []))); reflexivity.
Defined.

(** ** [iterate] *)

Lemma lookup_missing (id : string) : forall d,
  (forall var, ~ In (id, var) d) -> lookup id d = Raise KeyError.
Proof.
  induction d as [|[k v] d IH]; intros H; [reflexivity|].
  cbn [lookup]. destruct (String.eqb id k) eqn:E.
  - apply String.eqb_eq in E. subst. exfalso. apply (H v). now left.
  - apply IH. intros var Hin. apply (H var). now right.
Qed.

(** X17: a sweep over a name that is not in the registry is a
    [KeyError], raised before anything is computed. *)
Theorem iterate_unknown_id (eig_abs : matrix -> list Q) (id : string)
    (p : Infection) :
  (forall var, ~ In (id, var) variables) ->
  iterate eig_abs id p = Raise KeyError.
Proof.
  intros H. unfold iterate. now rewrite (lookup_missing id variables H).
Qed.

Lemma iterate_unknown_id_witness :
  iterate diag_abs "days" default_infection = Raise KeyError.
Proof.
  apply iterate_unknown_id. intros var H.
  cbn [variables In] in H.
  repeat (destruct H as [H|H]; [discriminate H|]). exact H.
Defined.

Lemma setattr_setattr (s : Infection) (id : string) (a b : number) :
  setattr (setattr s id a) id b = setattr s id b.
Proof.
  destruct s. unfold setattr.
  repeat match goal with
         | |- context [String.eqb id ?k] =>
             let E := fresh "E" in destruct (String.eqb id k) eqn:E;
             try rewrite E
         end;
  reflexivity.
Qed.

Lemma eqb_r0_false (id : string) : id <> "r0"%string -> String.eqb id "r0" = false.
Proof. intros H. now apply String.eqb_neq. Qed.

(** X18: the value that the swept variable has before the sweep does
    not matter: for every registry variable but ["r0"], [iterate] returns
    the same records and leaves the same parameter set whatever that
    value was. *)
Theorem iterate_ignores_swept_value (eig_abs : matrix -> list Q) (id : string)
    (var : Variable_) (s : Infection) (v : number) :
  In (id, var) variables -> id <> "r0"%string ->
  iterate eig_abs id (setattr s id v) = iterate eig_abs id s.
Proof.
  intros Hin Hid. unfold iterate. rewrite (In_lookup id var Hin). cbn [bind].
  destruct (registry_frange id var Hin) as (xs & Ef & Hne & _).
  rewrite Ef. destruct xs as [|x xs]; [contradiction|].
  cbn [iterate_loop]. rewrite (eqb_r0_false id Hid). cbn [bind].
  now rewrite setattr_setattr.
Qed.

Lemma iterate_ignores_swept_value_witness :
  iterate diag_abs "tracing_rate"
          (setattr default_infection "tracing_rate" (Int 35))
  = iterate diag_abs "tracing_rate" default_infection.
Proof.
  apply (iterate_ignores_swept_value diag_abs "tracing_rate"
           (mkVariable (Int 0) (Int 100) (Int 5) (Int 0) tracing_rate 1)).
  - do 4 right. now left.
  - discriminate.
Defined.

Lemma iterate_loop_snapshot (eig_abs : matrix -> list Q) (id : string)
    (var : Variable_) :
  In (id, var) variables ->
  forall xs,
    (id = "r0"%string -> Forall (fun x => 0 < to_Q x) xs) ->
    forall self data recs p',
      iterate_loop eig_abs id xs self data = Ok (recs, p') ->
      exists recs',
        recs = data ++ recs' /\
        length recs' = length xs /\
        forall k, (k < length xs)%nat ->
          forall id' var', In (id', var') variables -> id' <> id ->
            field id' (params (nth k recs' no_row)) = Some (getter var' self).
Proof.
  intros Hin. induction xs as [|x xs IH]; intros Hpos self data recs p' H.
  - cbn [iterate_loop] in H. injection H as <- <-. exists [].
    rewrite app_nil_r. repeat split. cbn [length]. intros; lia.
  - cbn [iterate_loop] in H. fold (sweep_step id x self) in H.
    destruct (sweep_step id x self) as [s1| | |] eqn:Es; try discriminate.
    cbn [bind] in H.
    destruct (get_r_and_growth eig_abs s1) as [[R g]| | |] eqn:Eg;
      try discriminate.
    cbn [bind fst snd] in H.
    assert (Hx : id = "r0"%string -> 0 < to_Q x).
    { intros E. specialize (Hpos E). now inversion Hpos. }
    assert (Hxs : id = "r0"%string -> Forall (fun x => 0 < to_Q x) xs).
    { intros E. specialize (Hpos E). now inversion Hpos. }
    destruct (sweep_step_inv id var x self s1 Hin Hx Es) as ((Fg & _) & _).
    destruct (IH Hxs _ _ _ _ H) as (recs' & -> & L & Fld).
    eexists. split; [rewrite <- app_assoc; reflexivity|].
    split; [cbn [app length]; now rewrite L|].
    intros [|k] Hk id' var' Hin' Hne; cbn [app nth params].
    + rewrite (lookup_field id' var' s1 variables (In_lookup id' var' Hin')).
      now rewrite (Fg id' var' Hin' Hne).
    + rewrite (Fld k) with (var' := var'); auto.
      * now rewrite (Fg id' var' Hin' Hne).
      * cbn [length] in Hk. lia.
Qed.

(** X19: every record of a sweep carries the other registry variables
    as they were before the sweep. *)
Theorem iterate_rows_keep_other_fields (eig_abs : matrix -> list Q)
    (id : string) (p : Infection) (recs : list row) (p' : Infection) :
  iterate eig_abs id p = Ok (recs, p') ->
  forall k, (k < length recs)%nat ->
    forall id' var', In (id', var') variables -> id' <> id ->
      field id' (params (nth k recs no_row)) = Some (getter var' p).
Proof.
  unfold iterate. intros H.
  destruct (lookup id variables) as [var| | |] eqn:El; try discriminate.
  cbn [bind] in H. pose proof (lookup_In id var variables El) as Hin.
  destruct (registry_frange id var Hin) as (xs & Ef & _ & _ & Hr0).
  rewrite Ef in H.
  assert (Hpos : id = "r0"%string -> Forall (fun x => 0 < to_Q x) xs)
    by (intros E; now destruct (Hr0 E)).
  destruct (iterate_loop_snapshot eig_abs id var Hin xs Hpos p [] recs p' H)
    as (recs' & -> & L & Fld).
  cbn [app]. intros k Hk. apply Fld. now rewrite <- L.
Qed.

Lemma iterate_rows_keep_other_fields_witness :
  exists recs p',
    iterate diag_abs "testing_delay" default_infection = Ok (recs, p') /\
    field "testing_rate" (params (nth 10 recs no_row)) = Some (Int 50).
Proof.
  assert (E : exists recs p',
            iterate diag_abs "testing_delay" default_infection = Ok (recs, p')
            /\ length recs = 11%nat)
    by (eexists; eexists; split; [vm_compute; reflexivity|reflexivity]).
  destruct E as (recs & p' & E & L).
  exists recs, p'. split; [exact E|].
  apply (iterate_rows_keep_other_fields diag_abs "testing_delay"
           default_infection recs p' E 10%nat) with (var' :=
           mkVariable (Int 0) (Int 100) (Int 5) (Int 50) testing_rate 1).
  - rewrite L. lia.
  - right. now left.
  - discriminate.
Defined.

Lemma iterate_loop_points (eig_abs : matrix -> list Q) (id : string) :
  String.eqb id "r0" = false ->
  forall xs self data recs p',
    iterate_loop eig_abs id xs self data = Ok (recs, p') ->
    exists recs',
      recs = data ++ recs' /\
      length recs' = length xs /\
      forall k, (k < length xs)%nat ->
        get_r_and_growth eig_abs (setattr self id (nth k xs (Int 0)))
        = Ok (r (nth k recs' no_row), perc (nth k recs' no_row)).
Proof.
  intros Hid. induction xs as [|x xs IH]; intros self data recs p' H.
  - cbn [iterate_loop] in H. injection H as <- <-. exists [].
    rewrite app_nil_r. repeat split. cbn [length]. intros; lia.
  - cbn [iterate_loop] in H. rewrite Hid in H. cbn [bind] in H.
    destruct (get_r_and_growth eig_abs (setattr self id x))
      as [[R g]| | |] eqn:Eg; try discriminate.
    cbn [bind fst snd] in H.
    destruct (IH _ _ _ _ H) as (recs' & -> & L & P).
    eexists. split; [rewrite <- app_assoc; reflexivity|].
    split; [cbn [app length]; now rewrite L|].
    intros [|k] Hk; cbn [app nth r perc].
    + exact Eg.
    + rewrite <- (P k) by (cbn [length] in Hk; lia).
      now rewrite setattr_setattr.
Qed.

(** X20: for every registry variable but ["r0"], record [k] of a sweep is
    the point evaluation at the [k]-th value: its [r] and [perc] are what
    [get_r_and_growth] returns on the initial parameter set with the
    swept field set to that value. *)
Theorem iterate_rows_are_point_evaluations (eig_abs : matrix -> list Q)
    (id : string) (p : Infection) (recs : list row) (p' : Infection) :
  id <> "r0"%string ->
  iterate eig_abs id p = Ok (recs, p') ->
  exists var xs,
    lookup id variables = Ok var /\
    frange (vmin var) (vmax var) (vstep var) = Some xs /\
    length recs = length xs /\
    forall k, (k < length xs)%nat ->
      get_r_and_growth eig_abs (setattr p id (nth k xs (Int 0)))
      = Ok (r (nth k recs no_row), perc (nth k recs no_row)).
Proof.
  intros Hid H. unfold iterate in H.
  destruct (lookup id variables) as [var| | |] eqn:El; try discriminate.
  cbn [bind] in H.
  destruct (frange (vmin var) (vmax var) (vstep var)) as [xs|] eqn:Ef;
    [|discriminate].
  destruct (iterate_loop_points eig_abs id (eqb_r0_false id Hid) xs p []
              recs p' H) as (recs' & -> & L & P).
  exists var, xs. cbn [app]. split; [reflexivity|]. split; [exact Ef|].
  split; [exact L|exact P].
Qed.

Lemma iterate_rows_are_point_evaluations_witness :
  exists recs p',
    iterate diag_abs "testing_rate" default_infection = Ok (recs, p') /\
    get_r_and_growth diag_abs (setattr default_infection "testing_rate" (Int 15))
    = Ok (r (nth 3 recs no_row), perc (nth 3 recs no_row)).
Proof.
  assert (E : exists recs p',
            iterate diag_abs "testing_rate" default_infection = Ok (recs, p'))
    by (eexists; eexists; vm_compute; reflexivity).
  destruct E as (recs & p' & E).
  exists recs, p'. split; [exact E|].
  destruct (iterate_rows_are_point_evaluations diag_abs "testing_rate"
              default_infection recs p') as (var & xs & El & Ef & _ & P);
    [discriminate|exact E|].
  change (lookup "testing_rate" variables)
    with (Ok (mkVariable (Int 0) (Int 100) (Int 5) (Int 50) testing_rate 1)) in El.
  injection El as <-. vm_compute in Ef. injection Ef as <-.
  apply (P 3%nat). vm_compute. lia.
Defined.

Lemma inject_Z_nonneg (k : Z) : (0 <= k)%Z -> 0 <= inject_Z k.
Proof. intros H. change 0 with (inject_Z 0). now rewrite <- Zle_Qle. Qed.

Lemma sweepable_well_formed (p : Infection) : sweepable p -> well_formed p.
Proof.
  intros (td & cd & Htd & Hcd & Hpos & Hpos2 & Hdays & _ & _ & Hsym & S0 & S1 & A).
  exists td, cd. repeat split; auto; try lia.
  intros E. unfold symptom_divisor in E.
  assert (0 <= (100 - np_sum (symptoms p)) * (to_Q (asymptomatic_inf p) / 100)).
  { apply Qmult_le_0_compat; [lra|]. apply div_nonneg; [exact A|reflexivity]. }
  lra.
Qed.

Lemma registry_ints (id : string) (var : Variable_) :
  In (id, var) variables -> id <> "r0"%string ->
  exists xs,
    frange (vmin var) (vmax var) (vstep var) = Some xs /\
    Forall (fun x => exists k, x = Int k /\ (0 <= k)%Z) xs.
Proof.
  intros H Hid. registry_cases H; try contradiction; eexists;
    (split; [vm_compute; reflexivity|]);
    repeat (constructor; [eexists; split; [reflexivity|lia]|]); constructor.
Qed.

Lemma setattr_sweepable (id : string) (var : Variable_) (s : Infection) (k : Z) :
  In (id, var) variables -> id <> "r0"%string ->
  sweepable s -> (0 <= k)%Z -> sweepable (setattr s id (Int k)).
Proof.
  intros H Hid (td & cd & Htd & Hcd & Hpos & Hpos2 & Hdays & Hne & Hsum
                & Hsym & S0 & S1 & A) Hk.
  destruct s as [a_r0 ir sy d tr td0 ie cr cd0 ai].
  cbn [testing_delay tracing_delay days infection_rates symptoms
       asymptomatic_inf] in *.
  pose proof (inject_Z_nonneg k Hk) as Hq.
  registry_cases H; try contradiction; unfold sweepable;
    cbn [setattr testing_delay tracing_delay days infection_rates symptoms
         asymptomatic_inf to_Q];
    [ exists td, cd | exists k, cd | exists td, cd | exists td, cd
    | exists td, k | exists td, cd ];
    repeat split; auto.
Qed.

Lemma iterate_loop_ok (eig_abs : matrix -> list Q) (id : string)
    (var : Variable_) :
  (forall A, A <> [] -> eig_abs A <> []) ->
  In (id, var) variables -> id <> "r0"%string ->
  forall xs, Forall (fun x => exists k, x = Int k /\ (0 <= k)%Z) xs ->
  forall self data,
    sweepable self ->
    exists recs p', iterate_loop eig_abs id xs self data = Ok (recs, p').
Proof.
  intros Heig Hin Hid. induction xs as [|x xs IH]; intros Hxs self data Hs.
  - now exists data, self.
  - inversion Hxs as [|? ? (k & -> & Hk) Hxs']; subst.
    pose proof (setattr_sweepable id var self k Hin Hid Hs Hk) as Hs1.
    pose proof (sweepable_well_formed _ Hs1) as Hwf1.
    destruct (suppress_well_formed _ Hwf1) as (e & Es & Le).
    assert (Hd : (1 <= days (setattr self id (Int k)))%nat).
    { destruct Hs1 as (? & ? & _ & _ & _ & _ & D & N & _). rewrite D.
      destruct (infection_rates (setattr self id (Int k)));
        [contradiction|simpl; lia]. }
    destruct (get_r_and_growth_ok eig_abs _ e Heig Es Le Hd) as (g & Eg & _).
    cbn [iterate_loop]. rewrite (eqb_r0_false id Hid). cbn [bind].
    rewrite Eg. cbn [bind]. now apply IH.
Qed.

(** X21: on a parameter set inside [sweepable], with a solver that
    returns at least one eigenvalue, the sweep over every variable of the
    registry returns (no exception, no [nan]), with one record per value
    of its range. *)
Theorem sweeps_run (eig_abs : matrix -> list Q) (p : Infection) (id : string)
    (var : Variable_) :
  (forall A, A <> [] -> eig_abs A <> []) ->
  sweepable p -> In (id, var) variables ->
  exists xs recs p',
    frange (vmin var) (vmax var) (vstep var) = Some xs /\
    iterate eig_abs id p = Ok (recs, p') /\
    length recs = length xs.
Proof.
  intros Heig Hs Hin.
  assert (Run : exists recs p', iterate eig_abs id p = Ok (recs, p')).
  { unfold iterate. rewrite (In_lookup id var Hin). cbn [bind].
    destruct (string_dec id "r0") as [E|E].
    - destruct (registry_frange id var Hin) as (xs & Ef & _ & _ & Hr0).
      destruct (Hr0 E) as [_ Hpos]. rewrite Ef. subst id.
      destruct Hs as (td & cd & Htd & Hcd & Hpos1 & Hpos2 & Hdays & Hne & Hsum & Hrest).
      apply iterate_loop_r0_ok; auto.
      apply sweepable_well_formed. exists td, cd. repeat split; auto; apply Hrest.
    - destruct (registry_ints id var Hin E) as (xs & Ef & Hint).
      rewrite Ef. now apply (iterate_loop_ok eig_abs id var). }
  destruct Run as (recs & p' & E).
  destruct (iterate_inv eig_abs id p recs p' E)
    as (var' & xs & _ & El & Ef & _ & L & _).
  rewrite (In_lookup id var Hin) in El. injection El as <-.
  exists xs, recs, p'. repeat split; assumption.
Qed.

Lemma sweepable_default : sweepable default_infection.
Proof.
  exists 3%Z, 1%Z. repeat split; try by_running.
Qed.

Lemma sweeps_run_witness :
  exists recs p',
    iterate diag_abs "asymptomatic_inf" default_infection = Ok (recs, p') /\
    length recs = 21%nat.
Proof.
  destruct (sweeps_run diag_abs default_infection "asymptomatic_inf"
              (mkVariable (Int 0) (Int 100) (Int 5) (Int 20) asymptomatic_inf 2))
    as (xs & recs & p' & Ef & E & L).
  - intros A HA. unfold diag_abs. destruct A; [contradiction|discriminate].
  - exact sweepable_default.
  - do 6 right. now left.
  - exists recs, p'. split; [exact E|].
    vm_compute in Ef. injection Ef as <-. exact L.
Defined.

(** ** [_transmit] and [simulate] *)

Lemma nth_of_prefix {B : Type} (l l' : list B) (d : B) (i : nat) :
  firstn (length l) l' = l -> (i < length l)%nat -> nth i l' d = nth i l d.
Proof.
  revert l' i. induction l as [|x l IH]; intros l' i H Hi; [simpl in Hi; lia|].
  destruct l' as [|y l']; [discriminate|]. cbn [length firstn] in *.
  injection H as -> H. destruct i as [|i]; [reflexivity|].
  cbn [nth]. apply IH; [exact H|lia].
Qed.

Lemma prefix_of_prefix {B : Type} (l l' : list B) (y : B) :
  firstn (length (l ++ [y])) l' = l ++ [y] -> firstn (length l) l' = l.
Proof.
  intros H. rewrite length_app in H. cbn [length] in H.
  assert (firstn (length l) (firstn (length l + 1) l') = firstn (length l) l')
    as <- by (rewrite firstn_firstn; f_equal; lia).
  rewrite H, firstn_app, Nat.sub_diag, firstn_all. cbn [firstn].
  apply app_nil_r.
Qed.

(** The loop of [simulate] only appends: what it was given stays in
    front, and each step adds one row of [days] entries and one [R]. *)
Lemma simulate_loop_prefix (p : Infection) : forall n x rs x' rs',
  simulate_loop p n x rs = Ok (x', rs') ->
  firstn (length x) x' = x /\ firstn (length rs) rs' = rs /\
  length x' = (length x + n)%nat /\ length rs' = (length rs + n)%nat /\
  (rows_of_length (days p) x -> rows_of_length (days p) x').
Proof.
  induction n as [|n IH]; intros x rs x' rs' H.
  - cbn [simulate_loop] in H. injection H as <- <-.
    rewrite !firstn_all. repeat split; auto.
  - cbn [simulate_loop] in H.
    destruct (_transmit p (last x [])) as [[w rr]| | |]; try discriminate.
    cbn [bind fst snd] in H. unfold reshape_row in H.
    destruct (length w =? days p)%nat eqn:Ew; [|discriminate].
    cbn [bind] in H. apply Nat.eqb_eq in Ew.
    destruct (IH _ _ _ _ H) as (Px & Pr & Lx & Lr & Rw).
    split; [now apply prefix_of_prefix in Px|].
    split; [now apply prefix_of_prefix in Pr|].
    rewrite length_app in Lx, Lr. cbn [length] in Lx, Lr.
    split; [lia|]. split; [lia|].
    intros Hr. apply Rw. apply Forall_app. split; [exact Hr|].
    constructor; [exact Ew|constructor].
Qed.

Lemma simulate_loop_add (p : Infection) : forall n m x rs,
  simulate_loop p (n + m) x rs
  = (xr <- simulate_loop p n x rs ;; simulate_loop p m (fst xr) (snd xr)).
Proof.
  induction n as [|n IH]; intros m x rs; [reflexivity|].
  cbn [Nat.add simulate_loop].
  destruct (_transmit p (last x [])) as [[w rr]| | |]; try reflexivity.
  cbn [bind fst snd].
  destruct (reshape_row (days p) w) as [new| | |]; try reflexivity.
  cbn [bind]. apply IH.
Qed.

(** Each row of the history is [_transmit] of the row before it. *)
Lemma simulate_loop_transmit (p : Infection) : forall n x rs x' rs',
  simulate_loop p n x rs = Ok (x', rs') ->
  x <> [] -> length rs = length x ->
  forall i, (length x - 1 <= i)%nat -> (i < length x - 1 + n)%nat ->
    _transmit p (nth i x' []) = Ok (nth (S i) x' [], nth (S i) rs' 0).
Proof.
  induction n as [|n IH]; intros x rs x' rs' H Hne Hlen i Hlo Hhi; [lia|].
  cbn [simulate_loop] in H.
  destruct (_transmit p (last x [])) as [[w rr]| | |] eqn:Et; try discriminate.
  cbn [bind fst snd] in H. unfold reshape_row in H.
  destruct (length w =? days p)%nat eqn:Ew; [|discriminate].
  cbn [bind] in H.
  assert (Lx : (0 < length x)%nat) by (destruct x; [contradiction|simpl; lia]).
  destruct (simulate_loop_prefix p _ _ _ _ _ H) as (Px & Pr & _).
  destruct (Nat.eq_dec i (length x - 1)) as [->|Hi].
  - rewrite (nth_of_prefix _ _ [] _ Px) by (rewrite length_app; simpl; lia).
    rewrite (nth_of_prefix _ _ [] _ Px) by (rewrite length_app; simpl; lia).
    rewrite (nth_of_prefix _ _ 0 _ Pr) by (rewrite length_app; simpl; lia).
    rewrite app_nth1 by lia.
    replace (S (length x - 1)) with (length x) by lia.
    rewrite app_nth2, Nat.sub_diag by lia.
    rewrite <- Hlen at 2. rewrite app_nth2, Nat.sub_diag by lia.
    cbn [nth]. rewrite <- Et. f_equal.
    destruct (exists_last Hne) as (x0 & row0 & ->).
    rewrite last_last, length_app. cbn [length].
    replace (length x0 + 1 - 1)%nat with (length x0) by lia.
    now rewrite app_nth2, Nat.sub_diag by lia.
  - apply (IH _ _ _ _ H).
    + destruct x; discriminate.
    + rewrite !length_app. cbn [length]. lia.
    + rewrite length_app. cbn [length]. lia.
    + rewrite length_app. cbn [length]. lia.
Qed.

Lemma transmit_inv (p : Infection) (w w' : list Q) (rr : Q) :
  _transmit p w = Ok (w', rr) ->
  exists e,
    suppress p = Ok e /\ length w = length e /\ rr = np_sum e /\
    w' = np_sum (zip_mul w e) :: removelast w.
Proof.
  unfold _transmit, np_dot. intros H.
  destruct (suppress p) as [e| | |]; try discriminate. cbn [bind] in H.
  destruct (length w =? length e)%nat eqn:E; [|discriminate].
  cbn [bind] in H. injection H as <- <-. apply Nat.eqb_eq in E.
  now exists e.
Qed.

Lemma simulate_inv (p : Infection) (initial_cases : list Q) (n : nat)
    (x : matrix) (rs : list Q) :
  simulate p initial_cases n = Ok (x, rs) ->
  (length initial_cases <= days p)%nat /\
  simulate_loop p n
    [initial_cases ++ repeat 0 (days p - length initial_cases)]
    [to_Q (r0 p)] = Ok (x, rs).
Proof.
  unfold simulate, np_zeros. intros H.
  destruct (_ <? 0)%Z eqn:E; [discriminate|]. apply Z.ltb_ge in E.
  cbn [bind] in H. unfold reshape_row in H.
  destruct (_ =? days p)%nat; [|discriminate]. cbn [bind] in H.
  replace (Z.to_nat (Z.of_nat (days p) - Z.of_nat (length initial_cases)))
    with (days p - length initial_cases)%nat in H by lia.
  split; [lia|exact H].
Qed.

(** One step of the history: the head of the next window is the
    weighted sum of the window, and the rest is the window moved on by
    one day. *)
Lemma simulate_step (p : Infection) (initial_cases : list Q) (n : nat)
    (x : matrix) (rs : list Q) :
  simulate p initial_cases n = Ok (x, rs) ->
  forall i, (i < n)%nat ->
    exists e,
      suppress p = Ok e /\
      nth (S i) rs 0 = np_sum e /\
      nth 0 (nth (S i) x []) 0 = np_sum (zip_mul (nth i x []) e) /\
      forall j, (S j < days p)%nat ->
        nth (S j) (nth (S i) x []) 0 = nth j (nth i x []) 0.
Proof.
  intros H i Hi. destruct (simulate_inv _ _ _ _ _ H) as [Hinit Hloop].
  set (row := initial_cases ++ repeat 0 (days p - length initial_cases)) in *.
  assert (Hrow : length row = days p)
    by (unfold row; rewrite length_app, repeat_length; lia).
  destruct (simulate_loop_prefix p _ _ _ _ _ Hloop) as (_ & _ & Lx & _ & Rw).
  cbn [length] in Lx.
  assert (Rows : rows_of_length (days p) x)
    by (apply Rw; constructor; [exact Hrow|constructor]).
  assert (Li : length (nth i x []) = days p).
  { unfold rows_of_length in Rows. rewrite Forall_forall in Rows.
    apply Rows, nth_In. lia. }
  pose proof (simulate_loop_transmit p n [row] [to_Q (r0 p)] x rs Hloop) as T.
  specialize (T ltac:(discriminate) eq_refl i). cbn [length] in T.
  specialize (T ltac:(lia) ltac:(lia)).
  destruct (transmit_inv _ _ _ _ T) as (e & Es & Le & Er & Ew).
  exists e. split; [exact Es|]. split; [exact Er|]. rewrite Ew.
  split; [reflexivity|]. intros j Hj. cbn [nth].
  apply nth_removelast. lia.
Qed.

(** X22: the recurrence of the simulation: in every step the new cases
    are the dot product of the current window with what [suppress]
    returns, the rest of the next window is the current window one day
    older (its oldest entry dropped), and the [R] recorded is the sum of
    the same vector. *)
Theorem simulate_recurrence (p : Infection) (initial_cases : list Q)
    (n : nat) (x : matrix) (rs : list Q) (e : list Q) :
  simulate p initial_cases n = Ok (x, rs) ->
  suppress p = Ok e ->
  forall i, (i < n)%nat ->
    nth (S i) rs 0 = np_sum e /\
    nth 0 (nth (S i) x []) 0 = np_sum (zip_mul (nth i x []) e) /\
    forall j, (S j < days p)%nat ->
      nth (S j) (nth (S i) x []) 0 = nth j (nth i x []) 0.
Proof.
  intros H Es i Hi.
  destruct (simulate_step p initial_cases n x rs H i Hi)
    as (e' & Es' & R & Hd & Sh).
  rewrite Es in Es'. injection Es' as <-.
  split; [exact R|]. split; [exact Hd|exact Sh].
Qed.

Lemma simulate_recurrence_witness :
  exists x rs e,
    simulate default_infection [1] 3 = Ok (x, rs) /\
    suppress default_infection = Ok e /\
    nth 0 (nth 3 x []) 0 = np_sum (zip_mul (nth 2 x []) e) /\
    nth 3 (nth 3 x []) 0 = nth 2 (nth 2 x []) 0.
Proof.
  assert (E : exists x rs, simulate default_infection [1] 3 = Ok (x, rs))
    by (eexists; eexists; vm_compute; reflexivity).
  destruct E as (x & rs & E).
  assert (Es : exists e, suppress default_infection = Ok e)
    by (eexists; vm_compute; reflexivity).
  destruct Es as (e & Es).
  destruct (simulate_recurrence default_infection [1] 3 x rs e E Es 2%nat)
    as (_ & Hd & Sh); [lia|].
  exists x, rs, e. split; [exact E|]. split; [exact Es|].
  split; [exact Hd|]. apply (Sh 2%nat). by_running.
Defined.

(** X23: the window is the history: entry [j] of window [i] is the
    number of new cases of [j] steps earlier, the head of window
    [i - j]. *)
Theorem simulate_window_is_history (p : Infection) (initial_cases : list Q)
    (n : nat) (x : matrix) (rs : list Q) :
  simulate p initial_cases n = Ok (x, rs) ->
  forall j i, (i <= n)%nat -> (j <= i)%nat -> (j < days p)%nat ->
    nth j (nth i x []) 0 = nth 0 (nth (i - j) x []) 0.
Proof.
  intros H. induction j as [|j IH]; intros i Hi Hj Hd.
  - now rewrite Nat.sub_0_r.
  - destruct i as [|i]; [lia|].
    destruct (simulate_step p initial_cases n x rs H i) as (e & _ & _ & _ & Sh);
      [lia|].
    rewrite (Sh j Hd). cbn [Nat.sub]. apply IH; lia.
Qed.

Lemma simulate_window_is_history_witness :
  exists x rs,
    simulate default_infection [1] 3 = Ok (x, rs) /\
    nth 2 (nth 3 x []) 0 = nth 0 (nth 1 x []) 0.
Proof.
  assert (E : exists x rs, simulate default_infection [1] 3 = Ok (x, rs))
    by (eexists; eexists; vm_compute; reflexivity).
  destruct E as (x & rs & E).
  exists x, rs. split; [exact E|].
  apply (simulate_window_is_history default_infection [1] 3 x rs E 2%nat 3%nat);
    try lia. by_running.
Defined.

(** X24: a longer simulation extends a shorter one: the history and the
    R series of [n] steps are the first [n + 1] rows and entries of those
    of [n + m] steps. *)
Theorem simulate_extends (p : Infection) (initial_cases : list Q) (n m : nat)
    (x x2 : matrix) (rs rs2 : list Q) :
  simulate p initial_cases n = Ok (x, rs) ->
  simulate p initial_cases (n + m) = Ok (x2, rs2) ->
  firstn (S n) x2 = x /\ firstn (S n) rs2 = rs /\
  length x2 = S (n + m) /\ length rs2 = S (n + m).
Proof.
  intros H1 H2.
  destruct (simulate_inv _ _ _ _ _ H1) as [_ L1].
  destruct (simulate_inv _ _ _ _ _ H2) as [_ L2].
  rewrite simulate_loop_add, L1 in L2. cbn [bind fst snd] in L2.
  destruct (simulate_loop_prefix p _ _ _ _ _ L1) as (_ & _ & Lx & Lr & _).
  destruct (simulate_loop_prefix p _ _ _ _ _ L2) as (Px & Pr & Lx2 & Lr2 & _).
  cbn [length] in Lx, Lr. rewrite Lx in Px, Lx2. rewrite Lr in Pr, Lr2.
  cbn [Nat.add] in *. repeat split; auto.
Qed.

Lemma simulate_extends_witness :
  exists x rs x2 rs2,
    simulate default_infection [1] 1 = Ok (x, rs) /\
    simulate default_infection [1] 3 = Ok (x2, rs2) /\
    firstn 2 x2 = x /\ firstn 2 rs2 = rs.
Proof.
  assert (E1 : exists x rs, simulate default_infection [1] 1 = Ok (x, rs))
    by (eexists; eexists; vm_compute; reflexivity).
  destruct E1 as (x & rs & E1).
  assert (E2 : exists x rs, simulate default_infection [1] 3 = Ok (x, rs))
    by (eexists; eexists; vm_compute; reflexivity).
  destruct E2 as (x2 & rs2 & E2).
  destruct (simulate_extends default_infection [1] 1 2 x x2 rs rs2 E1 E2)
    as (Px & Pr & _).
  exists x, rs, x2, rs2. repeat split; assumption.
Defined.

(** X25: the edges of [simulate]: more initial cases than [days] is a
    [ValueError] ([np.zeros] of a negative length); with no step the
    initial cases padded with zeros and [r0] come back, whatever the
    parameter set, since [suppress] is not called. *)
Theorem simulate_edges (p : Infection) (initial_cases : list Q) :
  ((days p < length initial_cases)%nat ->
   forall n, simulate p initial_cases n = Raise ValueError) /\
  ((length initial_cases <= days p)%nat ->
   simulate p initial_cases 0
   = Ok ([initial_cases ++ repeat 0 (days p - length initial_cases)],
         [to_Q (r0 p)])).
Proof.
  split.
  - intros H n. unfold simulate, np_zeros.
    destruct (_ <? 0)%Z eqn:E; [reflexivity|]. apply Z.ltb_ge in E. lia.
  - intros H. unfold simulate, np_zeros.
    destruct (_ <? 0)%Z eqn:E; [apply Z.ltb_lt in E; lia|]. cbn [bind].
    replace (Z.to_nat (Z.of_nat (days p) - Z.of_nat (length initial_cases)))
      with (days p - length initial_cases)%nat by lia.
    unfold reshape_row. rewrite length_app, repeat_length.
    replace (length initial_cases + (days p - length initial_cases))%nat
      with (days p) by lia.
    rewrite Nat.eqb_refl. reflexivity.
Qed.

Lemma simulate_edges_witness :
  simulate default_infection [1; 1; 1; 1; 1; 1; 1; 1; 1] 10 = Raise ValueError /\
  simulate (setattr default_infection "testing_delay" (Int (-1))) [1; 2] 0
  = Ok ([[1; 2; 0; 0; 0; 0; 0; 0]], [2]).
Proof.
  split.
  - apply (proj1 (simulate_edges default_infection [1; 1; 1; 1; 1; 1; 1; 1; 1])).
    by_running.
  - apply (proj2 (simulate_edges
                    (setattr default_infection "testing_delay" (Int (-1)))
                    [1; 2])).
    by_running.
Defined.

(** * Properties of the callback [get_data] of [app.py] *)

Lemma split_comma_from_app (a b acc : string) :
  split_comma_from acc (a ++ String.append "," b)%string
  = split_comma_from acc a ++ split_comma b.
Proof.
  revert acc. induction a as [|c a IH]; intros acc.
  - reflexivity.
  - cbn [String.append split_comma_from].
    destruct (String.eqb (String c EmptyString) ","); rewrite IH; reflexivity.
Qed.

Lemma floats_app (float : string -> option Q) (l1 l2 : list string) :
  floats float (l1 ++ l2)
  = match floats float l1, floats float l2 with
    | Some x, Some y => Some (x ++ y)
    | _, _ => None
    end.
Proof.
  induction l1 as [|t l1 IH]; cbn [app floats].
  - now destruct (floats float l2).
  - destruct (float t); [|reflexivity]. rewrite IH.
    destruct (floats float l1), (floats float l2); reflexivity.
Qed.

(** X26: a profile field is read piece by piece: the values of
    [a + "," + b] are those of [a] followed by those of [b], and the
    field is refused exactly when one of the two parts is, whatever
    [strip] and [float] do. *)
Theorem parse_rates_concat (strip : string -> string)
    (float : string -> option Q) (a b : string) :
  parse_rates strip float (a ++ String.append "," b)%string
  = match parse_rates strip float a, parse_rates strip float b with
    | Some x, Some y => Some (x ++ y)
    | _, _ => None
    end.
Proof.
  unfold parse_rates, split_comma.
  rewrite split_comma_from_app, map_app, filter_app.
  apply floats_app.
Qed.

Lemma new_Infection_value :
  new_Infection
  = Ok (mkInfection (Float 2)
          (map (fun y => 2 * y / 28) [0; 1; 3; 6; 8; 6; 3; 1])
          [0; 0; 0; 0; 10; 20; 20; 10] 8
          (Int 50) (Int 3) (Int 90) (Int 0) (Int 1) (Int 20)).
Proof. reflexivity. Qed.

Lemma truthy_nonzero (v : number) : ~ to_Q v == 0 -> truthy v = true.
Proof.
  intros H. unfold truthy. apply Qeq_bool_false in H. now rewrite H.
Qed.

(** X27: what the sliders and the two fields say is what the model is
    run with: for a non-zero [r0] slider and a profile field whose values
    do not add up to zero, [get_data] sweeps the parameter set that holds
    the seven slider values, the field's profile scaled to sum [r0], its
    length as [days], and the symptom field (the class-level shares when
    that field is empty). *)
Theorem get_data_runs_the_inputs (strip : string -> string)
    (float : string -> option Q) (eig_abs : matrix -> list Q)
    (x t1 t2 : string) (ir sr : list Q) (v0 v1 v2 v3 v4 v5 v6 : number) :
  parse_rates strip float t1 = Some ir ->
  parse_rates strip float t2 = Some sr ->
  ~ to_Q v0 == 0 ->
  ~ np_sum ir == 0 ->
  get_data strip float eig_abs x t1 t2 [v0; v1; v2; v3; v4; v5; v6]
  = Some (df <- iterate eig_abs x
                  (mkInfection v0
                     (map (fun y => to_Q v0 * y / np_sum ir) ir)
                     (list_or (Some sr) (symptoms class_level))
                     (length ir) v1 v2 v3 v4 v5 v6) ;;
          Ok (fst df)).
Proof.
  intros E1 E2 Hv Hs. unfold get_data. rewrite E1, E2, new_Infection_value.
  cbn [bind variables map fst combine configure].
  change (String.eqb "r0" "r0") with true. cbv iota.
  destruct ir as [|y ir]; [exfalso; apply Hs; reflexivity|].
  rewrite (set_rates_supplied _ _ _ _ _ Hs), (truthy_nonzero v0 Hv).
  reflexivity.
Qed.

Lemma get_data_runs_the_inputs_witness :
  get_data no_strip float_of_digits diag_abs "tracing_rate" "1,2,1" "0,50,50"
           [Float 3; Int 50; Int 1; Int 90; Int 0; Int 1; Int 20]
  = Some (df <- iterate diag_abs "tracing_rate"
                  (mkInfection (Float 3)
                     (map (fun y => 3 * y / np_sum [1; 2; 1]) [1; 2; 1])
                     [0; 50; 50] 3
                     (Int 50) (Int 1) (Int 90) (Int 0) (Int 1) (Int 20)) ;;
          Ok (fst df)).
Proof.
  apply (get_data_runs_the_inputs no_strip float_of_digits diag_abs
           "tracing_rate" "1,2,1" "0,50,50" [1; 2; 1] [0; 50; 50]).
  - reflexivity.
  - reflexivity.
  - by_running.
  - by_running.
Defined.

(** X28: an empty profile field does not empty the profile: when the
    field holds no value, [get_data] runs the class-level profile
    [0, 1, 3, 6, 8, 6, 3, 1] scaled to sum to the [r0] slider, over eight
    days. *)
Theorem get_data_empty_profile_field (strip : string -> string)
    (float : string -> option Q) (eig_abs : matrix -> list Q)
    (x t1 t2 : string) (sr : list Q) (v0 v1 v2 v3 v4 v5 v6 : number) :
  parse_rates strip float t1 = Some [] ->
  parse_rates strip float t2 = Some sr ->
  ~ to_Q v0 == 0 ->
  exists q,
    get_data strip float eig_abs x t1 t2 [v0; v1; v2; v3; v4; v5; v6]
    = Some (df <- iterate eig_abs x q ;; Ok (fst df)) /\
    Forall2 Qeq (infection_rates q)
            (map (fun y => to_Q v0 * y / 28) (infection_rates class_level)) /\
    days q = 8%nat /\
    symptoms q = list_or (Some sr) (symptoms class_level) /\
    map (fun kv => getter (snd kv) q) variables = [v0; v1; v2; v3; v4; v5; v6].
Proof.
  intros E1 E2 Hv. unfold get_data. rewrite E1, E2, new_Infection_value.
  cbn [bind variables map fst combine configure].
  change (String.eqb "r0" "r0") with true. cbv iota.
  unfold set_rates. cbv zeta. rewrite (truthy_nonzero v0 Hv).
  cbn [list_or infection_rates map].
  match goal with
  | |- context [Qeq_bool ?s 0] =>
      replace (Qeq_bool s 0) with false by (vm_compute; reflexivity)
  end.
  cbn [bind]. eexists. split; [reflexivity|].
  cbn [infection_rates days symptoms class_level map snd getter r0
       testing_rate testing_delay isolation_effectivity tracing_rate
       tracing_delay asymptomatic_inf].
  split; [|repeat split].
  match goal with
  | |- context [np_sum ?l] =>
      assert (Es : np_sum l == 2) by (vm_compute; reflexivity)
  end.
  repeat (apply Forall2_cons; [rewrite Es; field|]). apply Forall2_nil.
Qed.

Lemma get_data_empty_profile_field_witness :
  exists q,
    get_data no_strip float_of_digits diag_abs "testing_rate" ",," "5,5"
             [Float 4; Int 50; Int 1; Int 90; Int 0; Int 1; Int 20]
    = Some (df <- iterate diag_abs "testing_rate" q ;; Ok (fst df)) /\
    Forall2 Qeq (infection_rates q)
            (map (fun y => to_Q (Float 4) * y / 28)
                 (infection_rates class_level)) /\
    days q = 8%nat /\
    symptoms q = list_or (Some [5; 5]) (symptoms class_level) /\
    map (fun kv => getter (snd kv) q) variables
    = [Float 4; Int 50; Int 1; Int 90; Int 0; Int 1; Int 20].
Proof.
  apply (get_data_empty_profile_field no_strip float_of_digits diag_abs
           "testing_rate" ",," "5,5" [5; 5]).
  - reflexivity.
  - reflexivity.
  - by_running.
Defined.

Lemma sweep_forgets (eig_abs : matrix -> list Q) (id : string)
    (var : Variable_) (s : Infection) (v : number) :
  In (id, var) variables -> id <> "r0"%string ->
  iterate eig_abs id (setattr s id v) = iterate eig_abs id s.
Proof.
  intros Hin Hid. unfold iterate. rewrite (In_lookup id var Hin). cbn [bind].
  destruct (registry_frange id var Hin) as (xs & Ef & Hne & _).
  rewrite Ef. destruct xs as [|y xs]; [contradiction|].
  cbn [iterate_loop]. rewrite (eqb_r0_false id Hid). cbn [bind].
  now rewrite setattr_setattr.
Qed.

Lemma nth_error_registry (i : nat) (x : string) :
  nth_error (map fst variables) i = Some x ->
  exists var, In (x, var) variables.
Proof.
  intros H. apply nth_error_In in H. apply in_map_iff in H.
  destruct H as ([k var] & <- & Hin). now exists var.
Qed.

(** X29: the slider of the variable on the x axis has no effect on the
    figures: for every variable but ["r0"], [get_data] returns the same
    whatever value that slider passes, the sweep overwriting it. *)
Theorem get_data_ignores_own_slider (strip : string -> string)
    (float : string -> option Q) (eig_abs : matrix -> list Q)
    (x t1 t2 : string) (i : nat) (v : number) (values : list number) :
  nth_error (map fst variables) i = Some x ->
  x <> "r0"%string ->
  get_data strip float eig_abs x t1 t2 (replace_at i v values)
  = get_data strip float eig_abs x t1 t2 values.
Proof.
  intros Hi Hx. destruct (nth_error_registry i x Hi) as [var Hin].
  unfold get_data.
  destruct (parse_rates strip float t1) as [ir|]; [|reflexivity].
  destruct (parse_rates strip float t2) as [sr|]; [|reflexivity].
  f_equal. rewrite new_Infection_value. cbn [bind].
  set (inf := mkInfection _ _ _ _ _ _ _ _ _ _).
  destruct values as [|v0 vs]; [destruct i; reflexivity|].
  destruct i as [|i]; [injection Hi as <-; now contradiction Hx|].
  cbn [replace_at variables map fst combine configure].
  change (String.eqb "r0" "r0") with true. cbv iota.
  destruct (set_rates _ _ _ inf) as [q| | |]; cbn [bind]; try reflexivity.
  clear inf. cbn [variables map nth_error] in Hi.
  do 6 (try destruct vs as [|? vs]);
    do 6 (try destruct i as [|i]);
    cbn [nth_error] in Hi; try discriminate Hi;
    try (injection Hi as <-);
    cbn [replace_at combine configure];
    repeat match goal with
           | |- context [String.eqb ?a "r0"] =>
               change (String.eqb a "r0") with false; cbv iota
           end;
    cbn [bind];
    match goal with
    | |- ?a = ?b =>
        first
          [ constr_eq a b; reflexivity
          | match goal with
            | |- bind (iterate _ ?k ?S1) _ = bind (iterate _ _ ?S2) _ =>
                replace S1 with (setattr S2 k v) by (destruct q; reflexivity)
            end;
            rewrite (sweep_forgets eig_abs _ var _ v Hin Hx); reflexivity ]
    end.
Qed.

Lemma get_data_ignores_own_slider_witness :
  get_data no_strip float_of_digits diag_abs "tracing_rate" "1,2,1" "0,50,50"
           (replace_at 4 (Int 75)
              [Float 3; Int 50; Int 1; Int 90; Int 0; Int 1; Int 20])
  = get_data no_strip float_of_digits diag_abs "tracing_rate" "1,2,1" "0,50,50"
             [Float 3; Int 50; Int 1; Int 90; Int 0; Int 1; Int 20].
Proof.
  apply get_data_ignores_own_slider.
  - reflexivity.
  - discriminate.
Defined.
